(** * The test-declaration and execution core of the CTS framework

    A shallow embedding of [common/framework/test_group.ts] (the TypeScript
    text carried in [src/cts/generate_listing.js]): the [TestGroup] registry,
    the [TestBuilder] declaration chain, case expansion into
    [RunCaseSpecific] and the execution protocol [runTest] / [run].

    Conventions of the embedding.
    - A JavaScript string is a [string]; only equality, concatenation,
      [split] and [join] are used, which do not depend on the alphabet.
    - A thrown value is an [exn]; code that may throw returns a [result].
    - [async] functions are awaited at once everywhere in the source, and
      the framework is single threaded, so [await e] is the sequential
      evaluation of [e].
    - Everything the file imports from modules that are not part of the
      sources ([params_utils], [query/*], the JavaScript engine) is a field
      of one of the classes [ParamsUtils], [QueryUtils] and [Engine]. *)

From stdpp Require Import base option list gmap strings.
From Stdlib Require Import Lia.

Local Open Scope stdpp_scope.

(** ** Thrown values and results *)

(** The only test the source performs on a caught value is
    [ex instanceof SkipTestCase]; every other thrown value is an [Error]
    carrying its message. *)
Inductive exn : Type :=
  | SkipTestCase (message : string)
  | Error (message : string).

Definition instanceof_SkipTestCase (ex : exn) : bool :=
  match ex with SkipTestCase _ => true | Error _ => false end.

Definition message (ex : exn) : string :=
  match ex with SkipTestCase m => m | Error m => m end.

(** [ex.message = m]: the exception keeps its class.  The Recorder is
    handed the exception as it is at the call. *)
Definition set_message (ex : exn) (m : string) : exn :=
  match ex with SkipTestCase _ => SkipTestCase m | Error _ => Error m end.

#[global] Instance exn_eq_dec : EqDecision exn.
Proof. solve_decision. Defined.

Inductive result (A : Type) : Type :=
  | Ok (a : A)
  | Throw (ex : exn).
Arguments Ok {A} a.
Arguments Throw {A} ex.

Definition is_Throw {A} (r : result A) : bool :=
  match r with Ok _ => false | Throw _ => true end.

#[global] Instance result_eq_dec {A} `{EqDecision A} : EqDecision (result A).
Proof. solve_decision. Defined.

(** Modelled from the spec: [util/util.js] is not among the sources; the
    spec calls its [assert] a hard assertion failure, that is a thrown
    [Error] carrying the message given at the call. *)
Definition assert (cond : bool) (msg : string) : result unit :=
  if cond then Ok tt else Throw (Error msg).

(** ** Strings: [Array.prototype.join] and [String.prototype.split] *)

Definition nl : string := String (Ascii.ascii_of_nat 10) EmptyString.

Fixpoint join (sep : string) (parts : list string) : string :=
  match parts with
  | [] => ""
  | [p] => p
  | p :: rest => p +:+ sep +:+ join sep rest
  end.

Fixpoint starts_with (p s : string) : bool :=
  match p, s with
  | EmptyString, _ => true
  | String a p', String b s' => if decide (a = b) then starts_with p' s' else false
  | String _ _, EmptyString => false
  end.

Fixpoint drop_chars (n : nat) (s : string) : string :=
  match n, s with
  | O, _ => s
  | S n', String _ s' => drop_chars n' s'
  | S _, EmptyString => EmptyString
  end.

(** The scanning loop of [split] for a separator [R] that is not empty.
    [skip] counts the characters of a matched separator still to be passed
    over, [cur] is the substring collected since the last separator. *)
Fixpoint split_from (R : string) (skip : nat) (cur : string) (s : string)
  : list string :=
  match s with
  | EmptyString => [cur]
  | String c s' =>
      match skip with
      | S k => split_from R k cur s'
      | O =>
          if starts_with R s
          then cur :: split_from R (String.length R - 1) "" s'
          else split_from R 0 (cur +:+ String c "") s'
      end
  end.

Fixpoint chars (s : string) : list string :=
  match s with
  | EmptyString => []
  | String c s' => String c "" :: chars s'
  end.

(** [s.split(R)]: with the empty separator the string is cut into its
    characters, otherwise at every occurrence of [R], scanning from the
    left. *)
Definition split (R s : string) : list string :=
  match R with
  | EmptyString => chars s
  | String _ _ => split_from R 0 "" s
  end.

(** ** Collaborators that are imported, not defined, by the file *)

(** [params_utils.js] and [query/stringify_params.js].  A parameter record
    is a value of [CaseParams]; [empty_params] is the object literal [{}].
    [stringifyPublicParams] may throw: the source relies on it to check
    for invalid parameter values.  The other functions are taken to
    return. *)
Class ParamsUtils : Type := {
  CaseParams : Type;
  empty_params : CaseParams;
  extractPublicParams : CaseParams -> CaseParams;
  mergeParams : CaseParams -> CaseParams -> CaseParams;
  stringifyPublicParams : CaseParams -> result string;
  stringifyPublicParamsUniquely : CaseParams -> string;
}.

(** [query/separators.js] and [query/validQueryPart.js]; [validQueryPart]
    stands for [validQueryPart.test], [validQueryPart_source] for the text
    of the regular expression as a template literal prints it. *)
Class QueryUtils : Type := {
  kPathSeparator : string;
  validQueryPart : string -> bool;
  validQueryPart_source : string;
}.

(** What the JavaScript engine provides: the builtin [decodeURIComponent]
    (it throws on a malformed escape), [String.prototype.trim], and the
    [stack] property of an [Error] created with a given message, which an
    engine may leave undefined. *)
Class Engine : Type := {
  decodeURIComponent : string -> result string;
  trim : string -> string;
  captured_stack : string -> option string;
}.

(** An [Error] object kept as data (not thrown). *)
Record ErrorObject : Type := {
  error_message : string;
  stack : option string;
}.

Definition new_Error `{Engine} (msg : string) : ErrorObject :=
  {| error_message := msg; stack := captured_stack msg |}.

(** ** Iterables *)

(** What one iteration of an [Iterable<A>] produces: finitely many values,
    after which the iteration either ends or throws. *)
Inductive Iterable (A : Type) : Type :=
  | iter_done
  | iter_yield (a : A) (rest : Iterable A)
  | iter_throw (ex : exn).
Arguments iter_done {A}.
Arguments iter_yield {A} a rest.
Arguments iter_throw {A} ex.

Fixpoint iter_of_list {A} (l : list A) : Iterable A :=
  match l with
  | [] => iter_done
  | a :: l' => iter_yield a (iter_of_list l')
  end.

(** The values an iteration yields, and the exception that ends it, if
    one does. *)
Fixpoint yielded {A} (it : Iterable A) : list A :=
  match it with
  | iter_done => []
  | iter_yield a rest => a :: yielded rest
  | iter_throw _ => []
  end.

Fixpoint thrown {A} (it : Iterable A) : option exn :=
  match it with
  | iter_done => None
  | iter_yield _ rest => thrown rest
  | iter_throw ex => Some ex
  end.

(** [Array.from(it)] for the values of one iteration. *)
Fixpoint Array_from {A} (it : Iterable A) : result (list A) :=
  match it with
  | iter_done => Ok []
  | iter_yield a rest =>
      match Array_from rest with
      | Ok l => Ok (a :: l)
      | Throw ex => Throw ex
      end
  | iter_throw ex => Throw ex
  end.

(** ** The Recorder and the fixture, as the calls made on them *)

(** The Recorder is an event sink: the embedding keeps the sequence of
    calls that [run] and [runTest] make on [rec], in order, together with
    the calls they make on the fixture class, the fixture instance and the
    test body. *)
Inductive call `{ParamsUtils} : Type :=
  | rec_start
  | rec_info (ex : exn)
  | rec_debug (ex : exn)
  | rec_threw (ex : exn)
  | rec_skipped (ex : exn)
  | rec_finish
  | new_fixture (params : CaseParams)
  | inst_init
  | this_fn
  | inst_finalize.

Definition is_rec `{ParamsUtils} (c : call) : bool :=
  match c with
  | new_fixture _ | inst_init | this_fn | inst_finalize => false
  | _ => true
  end.

Definition is_skipped `{ParamsUtils} (c : call) : bool :=
  match c with rec_skipped _ => true | _ => false end.

Definition is_debug `{ParamsUtils} (c : call) : bool :=
  match c with rec_debug _ => true | _ => false end.

Definition is_threw `{ParamsUtils} (c : call) : bool :=
  match c with rec_threw _ => true | _ => false end.

Definition is_new_fixture `{ParamsUtils} (c : call) : bool :=
  match c with new_fixture _ => true | _ => false end.

Definition is_finalize `{ParamsUtils} (c : call) : bool :=
  match c with inst_finalize => true | _ => false end.

(** The calls made on the Recorder, in order. *)
Definition recorded `{ParamsUtils} (t : list call) : list call :=
  List.filter is_rec t.

(** The calls made on the fixture class, the instance and the body. *)
Definition fixture_calls `{ParamsUtils} (t : list call) : list call :=
  List.filter (fun c => negb (is_rec c)) t.

(** Code of the fixture and of test bodies acts on a world [W] (the device,
    the fixture's own use of the recorder, ...) and returns or throws. *)
Definition Effect (W A : Type) : Type := W -> result A * W.

(** [FixtureClass<F>]: the constructor applied by [new this.fixture(rec,
    params)] and the two lifecycle methods of the instance.  The recorder
    handed to the constructor is not an argument here: what the fixture
    does with it belongs to the world. *)
Record FixtureClass `{ParamsUtils} (W Inst : Type) : Type := {
  construct : CaseParams -> Effect W Inst;
  init : Inst -> Effect W unit;
  finalize : Inst -> Effect W unit;
}.
Arguments construct {_ W Inst} _ _ _.
Arguments init {_ W Inst} _ _ _.
Arguments finalize {_ W Inst} _ _ _.

(** [TestFn<F, P, SubP>]: the body receives the fixture instance. *)
Definition TestFn (W Inst : Type) : Type := Inst -> Effect W unit.

(** ** The monad of [run]: world, exceptions and the calls made *)

Definition Run `{ParamsUtils} (W A : Type) : Type :=
  W -> result A * W * list call.

Section RunMonad.
Context `{ParamsUtils} {W : Type}.

Definition ret {A} (a : A) : Run W A := fun w => (Ok a, w, []).

Definition throw {A} (ex : exn) : Run W A := fun w => (Throw ex, w, []).

Definition bind {A B} (m : Run W A) (k : A -> Run W B) : Run W B :=
  fun w =>
    match m w with
    | (Ok a, w1, t1) => let '(r, w2, t2) := k a w1 in (r, w2, t1 ++ t2)
    | (Throw ex, w1, t1) => (Throw ex, w1, t1)
    end.

(** [try { m } catch (ex) { handler ex }] *)
Definition try_catch {A} (m : Run W A) (handler : exn -> Run W A) : Run W A :=
  fun w =>
    match m w with
    | (Ok a, w1, t1) => (Ok a, w1, t1)
    | (Throw ex, w1, t1) =>
        let '(r, w2, t2) := handler ex w1 in (r, w2, t1 ++ t2)
    end.

(** [try { m } finally { cleanup }]: [cleanup] runs on every exit of [m];
    when it throws, its exception replaces the outcome of [m]. *)
Definition try_finally {A} (m : Run W A) (cleanup : Run W unit) : Run W A :=
  fun w =>
    let '(r, w1, t1) := m w in
    match cleanup w1 with
    | (Ok _, w2, t2) => (r, w2, t1 ++ t2)
    | (Throw ex, w2, t2) => (Throw ex, w2, t1 ++ t2)
    end.

(** A call on the Recorder: it is noted and returns. *)
Definition on_rec (c : call) : Run W unit := fun w => (Ok tt, w, [c]).

(** A call into fixture or body code: it is noted, then the code runs. *)
Definition invoke {A} (c : call) (code : Effect W A) : Run W A :=
  fun w => let '(r, w1) := code w in (r, w1, [c]).
End RunMonad.

Declare Scope run_scope.
Delimit Scope run_scope with run.
Notation "x <- m ;; k" := (bind m (fun x => k))
  (at level 100, m at next level, k at level 200, right associativity)
  : run_scope.
Notation "m ;; k" := (bind m (fun _ => k))
  (at level 100, k at level 200, right associativity) : run_scope.
Local Open Scope run_scope.

(** ** [TestCaseID] and [RunCaseSpecific] *)

Module TestCaseID.
Record t `{ParamsUtils} : Type := {
  test : list string;
  params : CaseParams;
}.
End TestCaseID.

Module RunCaseSpecific.

Record t `{ParamsUtils} (W Inst : Type) : Type := {
  id : TestCaseID.t;
  params : CaseParams;
  subParamGen : option (CaseParams -> Iterable CaseParams);
  fixture : FixtureClass W Inst;
  fn : TestFn W Inst;
}.
Arguments id {_ W Inst} _.
Arguments params {_ W Inst} _.
Arguments subParamGen {_ W Inst} _.
Arguments fixture {_ W Inst} _.
Arguments fn {_ W Inst} _.

Section RunCaseMethods.
Context `{ParamsUtils} {W Inst : Type}.

(** The constructor. *)
Definition new (testPath : list string) (params : CaseParams)
    (subParamGen : option (CaseParams -> Iterable CaseParams))
    (fixture : FixtureClass W Inst) (fn : TestFn W Inst) : t W Inst :=
  {| id := {| TestCaseID.test := testPath;
              TestCaseID.params := extractPublicParams params |};
     params := params;
     subParamGen := subParamGen;
     fixture := fixture;
     fn := fn |}.

(** The block protected by the [catch] of [runTest]: construction of
    the fixture, then [init] and the body under a [finally] that runs
    [finalize]. *)
Definition lifecycle (this : t W Inst) (params : CaseParams) : Run W unit :=
  inst <- invoke (new_fixture params) (construct (fixture this) params) ;;
  try_finally
    (invoke inst_init (init (fixture this) inst) ;;
     invoke this_fn (fn this inst))
    (invoke inst_finalize (finalize (fixture this) inst)).

Definition runTest (this : t W Inst) (params : CaseParams)
    (throwSkip : bool) : Run W unit :=
  try_catch (lifecycle this params)
    (fun ex =>
       if throwSkip && instanceof_SkipTestCase ex
       then throw ex
       else on_rec (rec_threw ex)).

(** The [for ... of] loop of [run] over the subcases still to come,
    with the two counters. *)
Fixpoint for_subParams (this : t W Inst) (it : Iterable CaseParams)
    (totalCount skipCount : nat) : Run W (nat * nat) :=
  match it with
  | iter_done => ret (totalCount, skipCount)
  | iter_throw ex => throw ex
  | iter_yield subParams rest =>
      on_rec (rec_info
        (Error ("subcase: " +:+ stringifyPublicParamsUniquely subParams))) ;;
      skipCount' <-
        try_catch
          (runTest this (mergeParams (params this) subParams) true ;;
           ret skipCount)
          (fun ex =>
             if instanceof_SkipTestCase ex
             then
               on_rec (rec_debug
                 (set_message ex ("subcase skipped: " +:+ message ex))) ;;
               ret (S skipCount)
             else
               on_rec (rec_threw ex) ;;
               ret skipCount) ;;
      for_subParams this rest (S totalCount) skipCount'
  end.

Definition run (this : t W Inst) : Run W unit :=
  on_rec rec_start ;;
  match subParamGen this with
  | Some gen =>
      counts <- for_subParams this (gen (params this)) 0 0 ;;
      if decide (snd counts = fst counts)
      then on_rec (rec_skipped (SkipTestCase "all subcases were skipped"))
      else ret tt
  | None => runTest this (params this) false
  end ;;
  on_rec rec_finish.
End RunCaseMethods.
End RunCaseSpecific.

(** ** [TestBuilder] *)

Module TestBuilder.

Record t `{ParamsUtils} (W Inst : Type) : Type := {
  testPath : list string;
  description : option string;
  fixture : FixtureClass W Inst;
  testFn : option (TestFn W Inst);
  caseParams : option (list CaseParams);
  subcaseParams : option (CaseParams -> Iterable CaseParams);
  testCreationStack : ErrorObject;
}.
Arguments testPath {_ W Inst} _.
Arguments description {_ W Inst} _.
Arguments fixture {_ W Inst} _.
Arguments testFn {_ W Inst} _.
Arguments caseParams {_ W Inst} _.
Arguments subcaseParams {_ W Inst} _.
Arguments testCreationStack {_ W Inst} _.

Section BuilderMethods.
Context `{ParamsUtils} `{QueryUtils} `{Engine} {W Inst : Type}.

Definition new (testPath : list string) (fixture : FixtureClass W Inst)
    (testCreationStack : ErrorObject) : t W Inst :=
  {| testPath := testPath;
     description := None;
     fixture := fixture;
     testFn := None;
     caseParams := None;
     subcaseParams := None;
     testCreationStack := testCreationStack |}.

Definition set_testFn (this : t W Inst) (f : TestFn W Inst) : t W Inst :=
  {| testPath := testPath this;
     description := description this;
     fixture := fixture this;
     testFn := Some f;
     caseParams := caseParams this;
     subcaseParams := subcaseParams this;
     testCreationStack := testCreationStack this |}.

Definition set_description (this : t W Inst) (d : string) : t W Inst :=
  {| testPath := testPath this;
     description := Some d;
     fixture := fixture this;
     testFn := testFn this;
     caseParams := caseParams this;
     subcaseParams := subcaseParams this;
     testCreationStack := testCreationStack this |}.

Definition set_caseParams (this : t W Inst) (l : list CaseParams) : t W Inst :=
  {| testPath := testPath this;
     description := description this;
     fixture := fixture this;
     testFn := testFn this;
     caseParams := Some l;
     subcaseParams := subcaseParams this;
     testCreationStack := testCreationStack this |}.

Definition set_subcaseParams (this : t W Inst)
    (specs : CaseParams -> Iterable CaseParams) : t W Inst :=
  {| testPath := testPath this;
     description := description this;
     fixture := fixture this;
     testFn := testFn this;
     caseParams := caseParams this;
     subcaseParams := Some specs;
     testCreationStack := testCreationStack this |}.

Definition desc (description : string) (this : t W Inst) : t W Inst :=
  set_description this (trim description).

Definition fn (f : TestFn W Inst) (this : t W Inst) : result (t W Inst) :=
  match assert (bool_decide (testFn this = None)) "" with
  | Throw ex => Throw ex
  | Ok _ => Ok (set_testFn this f)
  end.

(** The synthetic body attached by [unimplemented]. *)
Definition unimplemented_body : TestFn W Inst :=
  fun _ w => (Throw (SkipTestCase "test unimplemented"), w).

Definition unimplemented (this : t W Inst) : result (t W Inst) :=
  match assert (bool_decide (testFn this = None)) "" with
  | Throw ex => Throw ex
  | Ok _ =>
      let prefix :=
        match description this with
        | Some (String c d) => String c d +:+ nl +:+ nl
        | _ => ""
        end in
      Ok (set_testFn
            (set_description this (prefix +:+ "TODO: .unimplemented()"))
            unimplemented_body)
  end.

(** The message built lazily by the first assertion of [validate]. *)
Definition missing_fn_message (this : t W Inst) : string :=
  let s := "Test is missing .fn(): " +:+ join kPathSeparator (testPath this) in
  match stack (testCreationStack this) with
  | Some (String c st) => s +:+ nl +:+ "-> test created at:" +:+ nl +:+ String c st
  | _ => s
  end.

(** The loop of [validate] over the cases still to be checked, [seen]
    holding the unique renderings met so far. *)
Fixpoint validate_cases (testPathString : string)
    (cases : list CaseParams) (seen : gset string) : result unit :=
  match cases with
  | [] => Ok tt
  | testcase :: rest =>
      match stringifyPublicParams testcase with
      | Throw ex => Throw ex
      | Ok testcaseString =>
          let testcaseStringUnique := stringifyPublicParamsUniquely testcase in
          match
            assert (negb (bool_decide (testcaseStringUnique ∈ seen)))
              ("Duplicate public test case params for test " +:+
               testPathString +:+ ": " +:+ testcaseString)
          with
          | Throw ex => Throw ex
          | Ok _ =>
              validate_cases testPathString rest
                ({[testcaseStringUnique]} ∪ seen)
          end
      end
  end.

Definition validate (this : t W Inst) : result unit :=
  let testPathString := join kPathSeparator (testPath this) in
  match
    assert (negb (bool_decide (testFn this = None))) (missing_fn_message this)
  with
  | Throw ex => Throw ex
  | Ok _ =>
      match caseParams this with
      | None => Ok tt
      | Some cases => validate_cases testPathString cases ∅
      end
  end.

(** [cases(casesIterable)].  The iterable belongs to the caller: it is
    an object of the caller's state [C], and iterating it yields a
    sequence and may change that state (a generator is used up).
    [Array.from] iterates it once, here. *)
Definition cases {C : Type} (casesIterable : C -> Iterable CaseParams * C)
    (this : t W Inst) (c : C) : result (t W Inst) * C :=
  match
    assert (bool_decide (caseParams this = None))
      "test case is already parameterized"
  with
  | Throw ex => (Throw ex, c)
  | Ok _ =>
      let '(produced, c') := casesIterable c in
      match Array_from produced with
      | Throw ex => (Throw ex, c')
      | Ok array => (Ok (set_caseParams this array), c')
      end
  end.

Definition params {C : Type} (casesIterable : C -> Iterable CaseParams * C)
    (this : t W Inst) (c : C) : result (t W Inst) * C :=
  cases casesIterable this c.

Definition subcases (specs : CaseParams -> Iterable CaseParams)
    (this : t W Inst) : result (t W Inst) :=
  match
    assert (bool_decide (subcaseParams this = None))
      "test subcases are already parameterized"
  with
  | Throw ex => Throw ex
  | Ok _ => Ok (set_subcaseParams this specs)
  end.

(** [iterate()], with the generator run to its end: the Run Cases it
    yields, in order, or the failure of its assertion. *)
Definition iterate (this : t W Inst) : result (list (RunCaseSpecific.t W Inst)) :=
  match testFn this with
  | None => Throw (Error "No test function (.fn()) for test")
  | Some testFn =>
      Ok (map
            (fun params =>
               RunCaseSpecific.new (testPath this) params
                 (subcaseParams this) (fixture this) testFn)
            (default [empty_params] (caseParams this)))
  end.
End BuilderMethods.
End TestBuilder.

(** ** [TestGroup] *)

Module TestGroup.

Record t `{ParamsUtils} (W Inst : Type) : Type := {
  fixture : FixtureClass W Inst;
  seen : gset string;
  tests : list (TestBuilder.t W Inst);
}.
Arguments fixture {_ W Inst} _.
Arguments seen {_ W Inst} _.
Arguments tests {_ W Inst} _.

Section GroupMethods.
Context `{ParamsUtils} `{QueryUtils} `{Engine} {W Inst : Type}.

(** The constructor, reached through [makeTestGroup]. *)
Definition new (fixture : FixtureClass W Inst) : t W Inst :=
  {| fixture := fixture; seen := ∅; tests := [] |}.

Definition iterate (this : t W Inst) : list (TestBuilder.t W Inst) :=
  tests this.

(** [checkName] returns the group as the call leaves it, also when an
    assertion fails. *)
Definition checkName (name : string) (this : t W Inst)
    : result unit * t W Inst :=
  match decodeURIComponent name with
  | Throw ex => (Throw ex, this)
  | Ok decoded =>
      match
        assert (bool_decide (name = decoded))
          ("Not decodeURIComponent-idempotent: " +:+ name +:+ " !== " +:+ decoded)
      with
      | Throw ex => (Throw ex, this)
      | Ok _ =>
          match
            assert (negb (bool_decide (name ∈ seen this)))
              ("Duplicate test name: " +:+ name)
          with
          | Throw ex => (Throw ex, this)
          | Ok _ =>
              (Ok tt,
               {| fixture := fixture this;
                  seen := {[name]} ∪ seen this;
                  tests := tests this |})
          end
      end
  end.

(** The loop of [test] over the parts of the name. *)
Fixpoint check_parts (parts : list string) : result unit :=
  match parts with
  | [] => Ok tt
  | p :: rest =>
      match
        assert (validQueryPart p)
          ("Invalid test name part " +:+ p +:+ "; must match " +:+
           validQueryPart_source)
      with
      | Throw ex => Throw ex
      | Ok _ => check_parts rest
      end
  end.

(** [test(name)]: the builder it returns is the one it pushed on
    [tests]. *)
Definition test (name : string) (this : t W Inst)
    : result (TestBuilder.t W Inst) * t W Inst :=
  let testCreationStack := new_Error ("Test created: " +:+ name) in
  match checkName name this with
  | (Throw ex, this') => (Throw ex, this')
  | (Ok _, this') =>
      let parts := split kPathSeparator name in
      match check_parts parts with
      | Throw ex => (Throw ex, this')
      | Ok _ =>
          let test := TestBuilder.new parts (fixture this') testCreationStack in
          (Ok test,
           {| fixture := fixture this';
              seen := seen this';
              tests := tests this' ++ [test] |})
      end
  end.

(** The loop of [validate]. *)
Fixpoint validate_tests (tests : list (TestBuilder.t W Inst)) : result unit :=
  match tests with
  | [] => Ok tt
  | test :: rest =>
      match TestBuilder.validate test with
      | Throw ex => Throw ex
      | Ok _ => validate_tests rest
      end
  end.

Definition validate (this : t W Inst) : result unit :=
  validate_tests (tests this).
End GroupMethods.
End TestGroup.

Definition makeTestGroup `{ParamsUtils} {W Inst : Type}
    (fixture : FixtureClass W Inst) : TestGroup.t W Inst :=
  TestGroup.new fixture.

Definition makeTestGroupForUnitTesting `{ParamsUtils} {W Inst : Type}
    (fixture : FixtureClass W Inst) : TestGroup.t W Inst :=
  TestGroup.new fixture.

(** ** The objects that [cases] is handed: a heap

    [cases] receives an object of the caller, an array or a generator
    object, whose elements are records, objects themselves.  Objects are
    held by reference: the heap maps locations to objects, a new object
    taking the next location. *)

Module Heap.

Abbreviation loc := nat.

Inductive object `{ParamsUtils} : Type :=
  | array (elements : list loc)
  | generator (pending : Iterable loc)
  | record (value : CaseParams).

Abbreviation heap := (list object).

(** A [TestBuilder] whose [caseParams] is a reference; [declaration]
    holds its other fields. *)
Record t `{ParamsUtils} (W Inst : Type) : Type := {
  declaration : TestBuilder.t W Inst;
  caseParams : option loc;
}.
Arguments declaration {_ W Inst} _.
Arguments caseParams {_ W Inst} _.

(** What the caller may do to its objects afterwards: give an array other
    elements (by [push], [splice], [sort], an assignment to an index or to
    [length]), or change a record. *)
Inductive mutation `{ParamsUtils} : Type :=
  | write_array (a : loc) (elements : list loc)
  | write_record (r : loc) (value : CaseParams).

Section HeapMethods.
Context `{ParamsUtils} `{QueryUtils} `{Engine} {W Inst : Type}.

(** One iteration of the object at [source]: an array yields its
    elements and is left as it is; a generator object yields what it has
    pending and is used up.  (TypeScript admits no other argument; of
    anything else nothing is yielded.) *)
Definition iterate_object (source : loc) (h : heap) : Iterable loc * heap :=
  match h !! source with
  | Some (array elements) => (iter_of_list elements, h)
  | Some (generator pending) => (pending, <[source := generator iter_done]> h)
  | _ => (iter_done, h)
  end.

Definition record_at (h : heap) (r : loc) : option CaseParams :=
  match h !! r with
  | Some (record value) => Some value
  | _ => None
  end.

(** The records behind references, as they are in the heap [h]. *)
Definition records_of (h : heap) (refs : list loc) : list CaseParams :=
  omap (record_at h) refs.

Fixpoint iter_records (h : heap) (it : Iterable loc) : Iterable CaseParams :=
  match it with
  | iter_done => iter_done
  | iter_throw ex => iter_throw ex
  | iter_yield r rest =>
      match record_at h r with
      | Some value => iter_yield value (iter_records h rest)
      | None => iter_records h rest
      end
  end.

(** The iterable at [source], as [TestBuilder.cases] takes it: its
    records as they are when it is iterated. *)
Definition casesIterable (source : loc) (h : heap) : Iterable CaseParams * heap :=
  let '(produced, h1) := iterate_object source h in
  (iter_records h produced, h1).

(** [Array.from] makes a new array. *)
Definition new_array (elements : list loc) (h : heap) : loc * heap :=
  (length h, h ++ [array elements]).

(** [cases(casesIterable)]: [this.caseParams] becomes a reference to the
    array that [Array.from] makes of the elements of one iteration. *)
Definition cases (source : loc) (this : t W Inst) (h : heap)
  : result (t W Inst) * heap :=
  match
    assert (bool_decide (caseParams this = None))
      "test case is already parameterized"
  with
  | Throw ex => (Throw ex, h)
  | Ok _ =>
      let '(produced, h1) := iterate_object source h in
      match Array_from produced with
      | Throw ex => (Throw ex, h1)
      | Ok elements =>
          let '(a, h2) := new_array elements h1 in
          (Ok {| declaration := declaration this; caseParams := Some a |}, h2)
      end
  end.

(** [validate()] and [iterate()] reach the cases through the reference:
    after their test of the body they iterate the object it leads to,
    reading the records as they are then. *)
Definition validate (this : t W Inst) (h : heap) : result unit * heap :=
  match TestBuilder.testFn (declaration this), caseParams this with
  | Some _, Some a =>
      let '(produced, h1) := iterate_object a h in
      (match
         TestBuilder.validate
           (TestBuilder.set_caseParams (declaration this)
              (records_of h1 (yielded produced)))
       with
       | Throw ex => Throw ex
       | Ok _ => match thrown produced with Some ex => Throw ex | None => Ok tt end
       end, h1)
  | _, _ => (TestBuilder.validate (declaration this), h)
  end.

Definition iterate (this : t W Inst) (h : heap)
  : result (list (RunCaseSpecific.t W Inst)) * heap :=
  match TestBuilder.testFn (declaration this), caseParams this with
  | Some _, Some a =>
      let '(produced, h1) := iterate_object a h in
      (match thrown produced with
       | Some ex => Throw ex
       | None =>
           TestBuilder.iterate
             (TestBuilder.set_caseParams (declaration this)
                (records_of h1 (yielded produced)))
       end, h1)
  | _, _ => (TestBuilder.iterate (declaration this), h)
  end.

Definition mutate (m : mutation) (h : heap) : heap :=
  match m with
  | write_array a elements =>
      match h !! a with
      | Some (array _) => <[a := array elements]> h
      | _ => h
      end
  | write_record r value =>
      match h !! r with
      | Some (record _) => <[r := record value]> h
      | _ => h
      end
  end.

Definition mutate_all (ms : list mutation) (h : heap) : heap :=
  fold_left (fun h m => mutate m h) ms h.

End HeapMethods.
End Heap.

(** ** Observations on the calls made *)

Definition count_calls `{ParamsUtils} (f : call -> bool) (t : list call) : nat :=
  length (List.filter f t).

Definition calls_of `{ParamsUtils} {W A} (x : result A * W * list call) : list call :=
  snd x.

Definition result_of `{ParamsUtils} {W A} (x : result A * W * list call) : result A :=
  fst (fst x).

Definition world_of `{ParamsUtils} {W A} (x : result A * W * list call) : W :=
  snd (fst x).

(** One trial as the fixture and the body go through it, the log left
    aside: the [try] block of [runTest] applies the constructor to the
    parameters, then [init] and the body to the instance it made, the body
    only if [init] returned, and in the [finally] the [finalize] of that
    instance, in the world that [init] or the body left; what [finalize]
    throws replaces what was thrown before. *)
Definition trial `{ParamsUtils} {W Inst : Type} (F : FixtureClass W Inst)
    (fn : TestFn W Inst) (params : CaseParams) : Effect W unit :=
  fun w =>
    match construct F params w with
    | (Throw ex, w1) => (Throw ex, w1)
    | (Ok inst, w1) =>
        let before_finalize :=
          match init F inst w1 with
          | (Ok _, w2) => fn inst w2
          | (Throw ex, w2) => (Throw ex, w2)
          end in
        match finalize F inst (snd before_finalize) with
        | (Throw ex, w3) => (Throw ex, w3)
        | (Ok _, w3) => (fst before_finalize, w3)
        end
    end.

(** The world after the trials of the records [records], one after the
    other. *)
Definition after_trials `{ParamsUtils} {W Inst : Type} (F : FixtureClass W Inst)
    (fn : TestFn W Inst) (records : list CaseParams) (w : W) : W :=
  fold_left (fun w params => snd (trial F fn params w)) records w.

(** The outcomes of the trials of the subcases [subs], run one after the
    other from the world [w]: for each the result of its [lifecycle],
    before [runTest] sorts it. *)
Fixpoint subcase_trials `{ParamsUtils} {W Inst : Type}
    (this : RunCaseSpecific.t W Inst) (subs : list CaseParams) (w : W)
  : list (result unit) :=
  match subs with
  | [] => []
  | subParams :: rest =>
      let x :=
        RunCaseSpecific.lifecycle this
          (mergeParams (RunCaseSpecific.params this) subParams) w in
      result_of x :: subcase_trials this rest (world_of x)
  end.

Definition raised_skip {A} (r : result A) : bool :=
  match r with Throw (SkipTestCase _) => true | _ => false end.

(** The debug note that the subcase loop makes of a skipped trial. *)
Definition skip_note `{ParamsUtils} (trial : result unit) : list call :=
  match trial with
  | Throw (SkipTestCase m) => [rec_debug (SkipTestCase ("subcase skipped: " +:+ m))]
  | _ => []
  end.

(** The failure that [runTest] reports for a trial that threw anything
    else. *)
Definition threw_note `{ParamsUtils} (trial : result unit) : list call :=
  match trial with
  | Throw (Error m) => [rec_threw (Error m)]
  | _ => []
  end.

(** What the Recorder is told about one subcase. *)
Definition subcase_notes `{ParamsUtils} (subParams : CaseParams)
    (trial : result unit) : list call :=
  rec_info (Error ("subcase: " +:+ stringifyPublicParamsUniquely subParams)) ::
  match trial with
  | Ok _ => []
  | Throw (SkipTestCase m) => skip_note trial
  | Throw (Error m) => threw_note trial
  end.

(** ** The groups that the interface can build *)

Section Reachable.
Context `{ParamsUtils} `{QueryUtils} `{Engine} {W Inst : Type}.

(** The joined paths of the tests registered in a group. *)
Definition registered (g : TestGroup.t W Inst) : list string :=
  map (fun b => join kPathSeparator (TestBuilder.testPath b)) (TestGroup.tests g).

(** The builder returned by [test] is the object held in [tests]: a
    method called on it changes the element of [tests] at its position. *)
Definition with_test (i : nat) (b : TestBuilder.t W Inst)
    (g : TestGroup.t W Inst) : TestGroup.t W Inst :=
  {| TestGroup.fixture := TestGroup.fixture g;
     TestGroup.seen := TestGroup.seen g;
     TestGroup.tests := <[i := b]> (TestGroup.tests g) |}.

(** A group is made by [makeTestGroup], then changed by calls of [test]
    (which may fail) and by the methods of the builders it returned,
    none of which changes the path of its test. *)
Inductive reachable : TestGroup.t W Inst -> Prop :=
  | reachable_new fixture : reachable (makeTestGroup fixture)
  | reachable_test name g :
      reachable g -> reachable (snd (TestGroup.test name g))
  | reachable_method i b b' g :
      reachable g ->
      TestGroup.tests g !! i = Some b ->
      TestBuilder.testPath b' = TestBuilder.testPath b ->
      reachable (with_test i b' g).
End Reachable.

(** ** A concrete setting, for examples

    Parameter records are association lists of texts; a key that starts
    with an underscore is not public.  Names are separated by commas and
    their parts are words.  The fixture counts the instances alive. *)

Module Demo.

Definition Params : Type := list (string * string).

Definition is_public (kv : string * string) : bool :=
  negb (starts_with "_" (fst kv)).

Definition render (p : Params) : string :=
  join ";" (map (fun kv => fst kv +:+ "=" +:+ snd kv) (List.filter is_public p)).

Fixpoint get (key : string) (p : Params) : option string :=
  match p with
  | [] => None
  | (k, v) :: rest => if decide (k = key) then Some v else get key rest
  end.

Definition params_utils : ParamsUtils :=
  {| CaseParams := Params;
     empty_params := [];
     extractPublicParams := List.filter is_public;
     mergeParams := fun a b => a ++ b;
     stringifyPublicParams := fun p =>
       if existsb (fun kv => bool_decide (snd kv = "")) (List.filter is_public p)
       then Throw (Error "invalid param value")
       else Ok (render p);
     stringifyPublicParamsUniquely := render |}.

Definition word_char (c : Ascii.ascii) : bool :=
  let n := Ascii.nat_of_ascii c in
  ((48 <=? n) && (n <=? 57)) || ((65 <=? n) && (n <=? 90))
  || ((97 <=? n) && (n <=? 122)) || (n =? 95).

Fixpoint all_chars (f : Ascii.ascii -> bool) (s : string) : bool :=
  match s with
  | EmptyString => true
  | String c s' => f c && all_chars f s'
  end.

Definition query_utils : QueryUtils :=
  {| kPathSeparator := ",";
     validQueryPart := fun p =>
       match p with EmptyString => false | _ => all_chars word_char p end;
     validQueryPart_source := "/^[a-zA-Z0-9_]+$/" |}.

Definition hex_digit (c : Ascii.ascii) : option nat :=
  let n := Ascii.nat_of_ascii c in
  if (48 <=? n) && (n <=? 57) then Some (n - 48)
  else if (65 <=? n) && (n <=? 70) then Some (n - 55)
  else if (97 <=? n) && (n <=? 102) then Some (n - 87)
  else None.

Definition URIError : exn := Error "URIError: URI malformed".

(** Percent-decoding of the escapes of ASCII characters; any other
    escape is reported as malformed. *)
Fixpoint decode (s : string) : result string :=
  match s with
  | EmptyString => Ok ""
  | String c s1 =>
      if decide (c = Ascii.ascii_of_nat 37) then
        match s1 with
        | String h (String l rest) =>
            match hex_digit h, hex_digit l with
            | Some a, Some b =>
                if a <? 8 then
                  match decode rest with
                  | Ok d => Ok (String (Ascii.ascii_of_nat (16 * a + b)) d)
                  | Throw ex => Throw ex
                  end
                else Throw URIError
            | _, _ => Throw URIError
            end
        | _ => Throw URIError
        end
      else
        match decode s1 with
        | Ok d => Ok (String c d)
        | Throw ex => Throw ex
        end
  end.

Fixpoint trim_start (s : string) : string :=
  match s with
  | String c s' => if Ascii.is_space c then trim_start s' else s
  | EmptyString => EmptyString
  end.

Definition trim_both (s : string) : string :=
  String.rev (trim_start (String.rev (trim_start s))).

Definition engine : Engine :=
  {| decodeURIComponent := decode;
     trim := trim_both;
     captured_stack := fun msg =>
       Some ("Error: " +:+ msg +:+ nl +:+ "    at TestGroup.test") |}.

(** An engine whose errors carry no [stack]. *)
Definition engine_without_stack : Engine :=
  {| decodeURIComponent := decode;
     trim := trim_both;
     captured_stack := fun _ => None |}.

(** The instance keeps the parameters it was built from, as [t.params]. *)
Definition fixture : @FixtureClass params_utils nat Params :=
  {| construct := fun p w => (Ok p, S w);
     init := fun _ w => (Ok tt, w);
     finalize := fun _ w => (Ok tt, pred w) |}.

(** A fixture whose [init] throws. *)
Definition fixture_bad_init : @FixtureClass params_utils nat Params :=
  {| construct := fun p w => (Ok p, S w);
     init := fun _ w => (Throw (Error "init failed"), w);
     finalize := fun _ w => (Ok tt, pred w) |}.

Definition body_pass : TestFn nat Params := fun _ w => (Ok tt, w).

(** [t => { if (t.params.x === 2) throw new Error('x is 2') }] *)
Definition body_throw_x2 : TestFn nat Params :=
  fun inst w =>
    if decide (get "x" inst = Some "2")
    then (Throw (Error "x is 2"), w) else (Ok tt, w).

(** [t => { if (t.params.s === 1) t.skip('s is 1') }] *)
Definition body_skip_s1 : TestFn nat Params :=
  fun inst w =>
    if decide (get "s" inst = Some "1")
    then (Throw (SkipTestCase "s is 1"), w) else (Ok tt, w).

Definition body_skip : TestFn nat Params :=
  fun _ w => (Throw (SkipTestCase "not applicable"), w).

(** A caller's state holding one array and one generator object. *)
Record caller : Type := {
  array : list Params;
  pending : list Params;
}.

(** Iterating the array leaves it as it is. *)
Definition the_array (c : caller) : Iterable Params * caller :=
  (iter_of_list (array c), c).

(** Iterating the generator uses it up. *)
Definition the_generator (c : caller) : Iterable Params * caller :=
  (iter_of_list (pending c), {| array := array c; pending := [] |}).

(** Run Cases of the declaration [t], with the fixture above. *)

Definition run_case (params : Params)
    (subParamGen : option (Params -> Iterable Params))
    (fn : TestFn nat Params) : @RunCaseSpecific.t params_utils nat Params :=
  @RunCaseSpecific.new params_utils nat Params ["t"] params subParamGen fixture fn.

(** The Run Case of the declaration [todo], marked unimplemented. *)
Definition unimplemented_case : @RunCaseSpecific.t params_utils nat Params :=
  @RunCaseSpecific.new params_utils nat Params ["todo"] [] None fixture
    (@TestBuilder.unimplemented_body nat Params).

(** A subcase generator that yields nothing. *)
Definition no_subcase (_ : Params) : Iterable Params := iter_done.

(** A subcase generator that throws when it is called. *)
Definition failing_generator (_ : Params) : Iterable Params :=
  iter_throw (Error "generator failed").

(** A subcase generator that yields [{s:1}] and then throws. *)
Definition one_then_failing (_ : Params) : Iterable Params :=
  iter_yield [("s", "1")] (iter_throw (Error "generator failed")).

(** The generator of the subcases [{s:1}] and [{s:2}]. *)
Definition two_subcases (_ : Params) : Iterable Params :=
  iter_of_list [[("s", "1")]; [("s", "2")]].

#[local] Existing Instance params_utils.
#[local] Existing Instance query_utils.

(** Declarations.  [declare e name g] is the group after
    [g.test(name)]; a method of the builder that [test] returned acts on
    the declaration at its position in the group. *)

Definition group0 : @TestGroup.t params_utils nat Params :=
  @makeTestGroup params_utils nat Params fixture.

Definition declare (e : Engine) (name : string)
    (g : @TestGroup.t params_utils nat Params) : @TestGroup.t params_utils nat Params :=
  snd (@TestGroup.test params_utils query_utils e nat Params name g).

Definition declaration (e : Engine) (name : string)
    : @TestBuilder.t params_utils nat Params :=
  @TestBuilder.new params_utils nat Params (split "," name) fixture
    (@new_Error e ("Test created: " +:+ name)).

(** The builder a method returned, or the one it was called on when it
    threw. *)
Definition after {A : Type} (r : result A) (before : A) : A :=
  match r with Ok a => a | Throw _ => before end.

Definition x1 : Params := [("x", "1")].
Definition x2 : Params := [("x", "2")].
Definition x1_hidden : Params := [("x", "1"); ("_seed", "7")].

Definition caller0 : caller := {| array := [x1; x1]; pending := [x1_hidden; x2] |}.

(** [g.test('dup').cases([{x:1},{x:1}])], then [.fn(body)]. *)
Definition dup_cases (e : Engine) : @TestBuilder.t params_utils nat Params :=
  after (fst (TestBuilder.cases the_array (declaration e "dup") caller0))
        (declaration e "dup").

Definition dup_with_body (e : Engine) : @TestBuilder.t params_utils nat Params :=
  after (TestBuilder.fn body_pass (dup_cases e)) (dup_cases e).

Definition group_dup (e : Engine) : @TestGroup.t params_utils nat Params :=
  with_test 0 (dup_with_body e) (declare e "dup" group0).

Definition group_dup_no_body (e : Engine) : @TestGroup.t params_utils nat Params :=
  with_test 0 (dup_cases e) (declare e "dup" group0).

(** [g.test('dup').cases([{x:''},{x:1},{x:1}]).fn(body)]: the first record
    has no human-readable rendering. *)
Definition dup_after_invalid (e : Engine) : @TestBuilder.t params_utils nat Params :=
  TestBuilder.set_testFn
    (TestBuilder.set_caseParams (declaration e "dup") [[("x", "")]; x1; x1])
    body_pass.

Definition group_dup_after_invalid (e : Engine)
    : @TestGroup.t params_utils nat Params :=
  with_test 0 (dup_after_invalid e) (declare e "dup" group0).

Definition group_dup_then_a (e : Engine) : @TestGroup.t params_utils nat Params :=
  declare e "a" (group_dup e).

Definition group_a_then_dup (e : Engine) : @TestGroup.t params_utils nat Params :=
  with_test 1 (dup_with_body e) (declare e "dup" (declare e "a" group0)).

(** [g.test('todo').desc(' later ').unimplemented()] *)
Definition todo (e : Engine) : @TestBuilder.t params_utils nat Params :=
  after (TestBuilder.unimplemented
           (@TestBuilder.desc _ e nat Params " later " (declaration e "todo")))
        (declaration e "todo").

(** [g.test('basic').cases(generator)], then [.fn(body)]. *)
Definition basic_cases (e : Engine) : @TestBuilder.t params_utils nat Params :=
  after (fst (TestBuilder.cases the_generator (declaration e "basic") caller0))
        (declaration e "basic").

Definition basic (e : Engine) : @TestBuilder.t params_utils nat Params :=
  after (TestBuilder.fn body_throw_x2 (basic_cases e)) (basic_cases e).

End Demo.

(** ** Further observations and examples *)

Definition is_init `{ParamsUtils} (c : call) : bool :=
  match c with inst_init => true | _ => false end.

Module Demo2.

#[local] Existing Instance Demo.params_utils.
#[local] Existing Instance Demo.query_utils.

(** A fixture whose [finalize] throws. *)
Definition fixture_bad_finalize : @FixtureClass Demo.params_utils nat Demo.Params :=
  {| construct := fun p w => (Ok p, S w);
     init := fun _ w => (Ok tt, w);
     finalize := fun _ w => (Throw (Error "finalize failed"), pred w) |}.

(** [g.test('dup').cases([{x:1},{x:1},{x:''}]).fn(body)]: the record
    after the repeated one has no human-readable rendering. *)
Definition dup_then_invalid (e : Engine)
    : @TestBuilder.t Demo.params_utils nat Demo.Params :=
  TestBuilder.set_testFn
    (TestBuilder.set_caseParams (Demo.declaration e "dup")
       [Demo.x1; Demo.x1; [("x", "")]])
    Demo.body_pass.

Definition group_dup_then_invalid (e : Engine)
    : @TestGroup.t Demo.params_utils nat Demo.Params :=
  with_test 0 (dup_then_invalid e) (Demo.declare e "dup" Demo.group0).

(** Two records with the same unique rendering [x=;y=1], the second of
    which has no human-readable rendering. *)
Definition dup_second_invalid (e : Engine)
    : @TestBuilder.t Demo.params_utils nat Demo.Params :=
  TestBuilder.set_testFn
    (TestBuilder.set_caseParams (Demo.declaration e "dup")
       [[("x", ";y=1")]; [("x", ""); ("y", "1")]])
    Demo.body_pass.

Definition group_dup_second_invalid (e : Engine)
    : @TestGroup.t Demo.params_utils nat Demo.Params :=
  with_test 0 (dup_second_invalid e) (Demo.declare e "dup" Demo.group0).

(** [t => { if (t.params._seed === 7) throw new Error('seed is 7') }]: a
    body that reads a parameter that is not public. *)
Definition body_reads_seed : TestFn nat Demo.Params :=
  fun inst w =>
    if decide (Demo.get "_seed" inst = Some "7")
    then (Throw (Error "seed is 7"), w) else (Ok tt, w).

(** A heap of the caller: the records [{x:1, _seed:7}] and [{x:2}], an
    array of both, and a generator object that will yield both. *)
Definition heap0 : Heap.heap :=
  [Heap.record Demo.x1_hidden; Heap.record Demo.x2; Heap.array [0; 1];
   Heap.generator (iter_of_list [0; 1])].

(** The declaration [basic] before [cases], after it, and with the body
    attached then. *)
Definition declaration0 (e : Engine) : Heap.t nat Demo.Params :=
  {| Heap.declaration := Demo.declaration e "basic"; Heap.caseParams := None |}.

Definition attached (e : Engine) : Heap.t nat Demo.Params :=
  Demo.after (fst (Heap.cases 3 (declaration0 e) heap0)) (declaration0 e).

Definition heap1 : Heap.heap :=
  snd (Heap.cases 3 (declaration0 Demo.engine) heap0).

Definition with_body (e : Engine) : Heap.t nat Demo.Params :=
  {| Heap.declaration :=
       Demo.after (TestBuilder.fn Demo.body_throw_x2 (Heap.declaration (attached e)))
         (Heap.declaration (attached e));
     Heap.caseParams := Heap.caseParams (attached e) |}.

(** A fixture in a world that is the number of instances alive, one
    whose construction fails when three are alive already, and a body for
    it that asks to be skipped for [{s:1}]. *)
Definition fixture_counting : @FixtureClass Demo.params_utils Z Demo.Params :=
  {| construct := fun p w =>
       if (3 <=? w)%Z then (Throw (Error "too many instances"), w)
       else (Ok p, (w + 1)%Z);
     init := fun _ w => (Ok tt, w);
     finalize := fun _ w => (Ok tt, (w - 1)%Z) |}.

Definition body_skip_s1 : TestFn Z Demo.Params :=
  fun inst w =>
    if decide (Demo.get "s" inst = Some "1")
    then (Throw (SkipTestCase "s is 1"), w) else (Ok tt, w).

Definition counting_case : @RunCaseSpecific.t Demo.params_utils Z Demo.Params :=
  @RunCaseSpecific.new Demo.params_utils Z Demo.Params ["t"] []
    (Some Demo.one_then_failing) fixture_counting body_skip_s1.

(** A fixture that cannot be constructed. *)
Definition fixture_bad_new : @FixtureClass Demo.params_utils nat Demo.Params :=
  {| construct := fun _ w => (Throw (Error "no device"), w);
     init := fun _ w => (Ok tt, w);
     finalize := fun _ w => (Ok tt, pred w) |}.

End Demo2.

(** ** The listing script

    The script at the head of [generate_listing.js]: it walks the files
    under [src/] and builds the object [listing], which it then writes out
    as JSON.  [listing] is embedded as the map from its keys to its
    values; the JSON text made of it is not represented, the writing of
    it is. *)

Module GenerateListing.

(** [String.prototype.substring] and [endsWith], on indices that are
    natural numbers (a negative argument of [substring] counts as 0, which
    is what the truncated subtraction of [nat] gives). *)
Fixpoint take_chars (n : nat) (s : string) : string :=
  match n, s with
  | S n', String c s' => String c (take_chars n' s')
  | _, _ => EmptyString
  end.

Definition substring (start stop : nat) (s : string) : string :=
  take_chars (Nat.max start stop - Nat.min start stop)
    (drop_chars (Nat.min start stop) s).

Definition substring_from (start : nat) (s : string) : string :=
  drop_chars start s.

Definition endsWith (suffix s : string) : bool :=
  bool_decide (drop_chars (String.length s - String.length suffix) s = suffix).

(** An entry of the glob: a string, or an object with a [path]. *)
Inductive entry : Type :=
  | entry_string (file : string)
  | entry_object (path : string).

(** What the script uses of Node's [fs] and of [fast-glob].  [writeFile]
    gives the [err] that the callback of [fs.writeFile] is called with,
    if any, for the file of that name. *)
Class Node : Type := {
  existsSync : string -> bool;
  readFileSync : string -> result string;
  fg_async : string -> result (list entry);
  writeFile : string -> option exn;
}.

(** A value of [listing]: [{}] or [{ description }]. *)
Inductive info : Type :=
  | empty_object
  | with_description (description : string).

Definition prefix : string := "src/".

(** How the script ends. *)
Inductive outcome : Type :=
  | rejected (ex : exn)
  | write_failed (listing : gmap string info) (err : exn)
  | written (listing : gmap string info).

(** [listing[key] = value], on the object that began as [{}]: the key
    [__proto__] reaches the setter of [Object.prototype], which changes
    the prototype of [listing] and gives it no property, so that nothing
    of it is written out. *)
Definition set_property (key : string) (value : info)
    (listing : gmap string info) : gmap string info :=
  if decide (key = "__proto__") then listing else <[key := value]> listing.

Section Script.
Context `{Node} `{Engine}.

(** The loop over the entries, from the listing built so far. *)
Fixpoint for_files (files : list entry) (listing : gmap string info)
  : result (gmap string info) :=
  match files with
  | [] => Ok listing
  | entry :: rest =>
      let file := match entry with entry_string s => s | entry_object p => p end in
      let f := substring_from (String.length prefix) file in
      if endsWith ".ts" f then
        let testPath := substring 0 (String.length f - 3) f in
        for_files rest (set_property testPath empty_object listing)
      else if endsWith "/README.txt" f then
        let dirPath := substring 0 (String.length f - 10) f in
        match readFileSync file with
        | Throw ex => Throw ex
        | Ok content =>
            let description := trim content in
            for_files rest
              (set_property dirPath (with_description description) listing)
        end
      else for_files rest listing
  end.

(** The script up to the call of [fs.writeFile]: the [listing] that is to
    be written out, or what is thrown before. *)
Definition main : result (gmap string info) :=
  if negb (existsSync prefix) then Throw (Error "Must be run from cts/")
  else
    match fg_async (prefix +:+ "**/*") with
    | Throw ex => Throw ex
    | Ok files => for_files files ∅
    end.

(** The whole script.  What is thrown in the [async] function rejects its
    promise, and [fs.writeFile] is then not called; otherwise
    [listing.json] is written, and the callback throws the [err] it is
    given. *)
Definition script : outcome :=
  match main with
  | Throw ex => rejected ex
  | Ok listing =>
      match writeFile "listing.json" with
      | Some err => write_failed listing err
      | None => written listing
      end
  end.
End Script.

(** The path of an entry, without the prefix. *)
Definition stripped (e : entry) : string :=
  substring_from (String.length prefix)
    match e with entry_string s => s | entry_object p => p end.

Definition path_of (e : entry) : string :=
  match e with entry_string s => s | entry_object p => p end.

End GenerateListing.

(** ** The test files that use the interface

    [basic.spec.js] and [debug.spec.ts] build a group when they are loaded:
    each of their statements is a chain [g.test(name)...fn(body)].  The
    fixture classes, the bodies' calls into them and the iterables made by
    [params_builder] are parameters. *)

Module SpecFiles.

Section Chains.
Context `{ParamsUtils} `{QueryUtils} `{Engine} {W Inst : Type}.

(** A method called on the builder that the chain holds: the builder is
    the one [test] pushed last on [tests], and the method changes it
    there.  When an earlier call of the chain threw, the method is not
    called. *)
Definition then_call
    (method : TestBuilder.t W Inst -> result (TestBuilder.t W Inst))
    (r : result (TestBuilder.t W Inst) * TestGroup.t W Inst)
  : result (TestBuilder.t W Inst) * TestGroup.t W Inst :=
  match r with
  | (Throw ex, g) => (Throw ex, g)
  | (Ok b, g) =>
      match method b with
      | Throw ex => (Throw ex, g)
      | Ok b' => (Ok b', with_test (length (TestGroup.tests g) - 1) b' g)
      end
  end.

(** [.desc(description)] and [.params(it)] as links of a chain; the
    iterable is one that iterating does not change. *)
Definition desc_call (description : string) (b : TestBuilder.t W Inst)
  : result (TestBuilder.t W Inst) :=
  Ok (TestBuilder.desc description b).

Definition params_call (it : Iterable CaseParams) (b : TestBuilder.t W Inst)
  : result (TestBuilder.t W Inst) :=
  fst (TestBuilder.params (fun c : unit => (it, c)) b tt).

(** One statement of a file, then the rest of the file: a statement that
    throws ends the loading. *)
Definition statement
    (r : result (TestBuilder.t W Inst) * TestGroup.t W Inst)
    (rest : TestGroup.t W Inst -> result unit * TestGroup.t W Inst)
  : result unit * TestGroup.t W Inst :=
  match r with
  | (Throw ex, g) => (Throw ex, g)
  | (Ok _, g) => rest g
  end.

(** Two calls in a body, one after the other. *)
Definition seq (first second : Effect W unit) : Effect W unit :=
  fun w =>
    match first w with
    | (Ok _, w') => second w'
    | (Throw ex, w') => (Throw ex, w')
    end.

(** [out-wpt/webgpu/shader/validation/wgsl/basic.spec.js] *)
Section Basic.
Variable ShaderValidationTest : FixtureClass W Inst.
Variable expectCompileResult : bool + string -> string -> Inst -> Effect W unit.

Definition trivial : TestFn W Inst :=
  fun t =>
    seq (expectCompileResult (inl true) "[[stage(vertex)]] fn main() -> void {}" t)
        (expectCompileResult (inr "v-0020")
           "[[stage(vertex), stage(fragment)]] fn main() -> void {}" t).

Definition nonsense : TestFn W Inst :=
  fun t => expectCompileResult (inl false) "nonsense" t.

Definition basic_spec : result unit * TestGroup.t W Inst :=
  let g := makeTestGroup ShaderValidationTest in
  statement
    (then_call (TestBuilder.fn trivial)
       (then_call (desc_call "A trivial correct and incorrect shader.")
          (TestGroup.test "trivial" g)))
    (fun g =>
  statement
    (then_call (TestBuilder.fn nonsense)
       (then_call (desc_call "Pass short nonsense strings as WGSL.")
          (TestGroup.test "nonsense" g)))
    (fun g => (Ok tt, g))).
End Basic.

(** [src/webgpu/api/validation/encoding/cmds/debug.spec.ts]: the group
    [g] and its four tests.  [combined] is the iterable of
    [params().combine(...)...], [encoderTypes] that of
    [poptions('encoderType', kEncoderTypes)]. *)
Section Debug.
Variable F : FixtureClass W Inst.
Variables combined encoderTypes : Iterable CaseParams.
Variables debug_group_balanced debug_group_empty_string
  debug_marker_empty_string debug_marker_non_empty_string : TestFn W Inst.

Definition debug_spec : result unit * TestGroup.t W Inst :=
  let g := makeTestGroup F in
  statement
    (then_call (TestBuilder.fn debug_group_balanced)
       (then_call (params_call combined)
          (TestGroup.test "debug_group_balanced" g)))
    (fun g =>
  statement
    (then_call (TestBuilder.fn debug_group_empty_string)
       (then_call (params_call encoderTypes)
          (TestGroup.test "debug_group_empty_string" g)))
    (fun g =>
  statement
    (then_call (TestBuilder.fn debug_marker_empty_string)
       (then_call (params_call encoderTypes)
          (TestGroup.test "debug_marker_empty_string" g)))
    (fun g =>
  statement
    (then_call (TestBuilder.fn debug_marker_non_empty_string)
       (then_call (params_call encoderTypes)
          (TestGroup.test "debug_marker_non_empty_string" g)))
    (fun g => (Ok tt, g))))).
End Debug.
End Chains.
End SpecFiles.

(** ** A concrete setting for the listing script and for the test files *)

Module Demo3.

#[local] Existing Instance Demo.params_utils.
#[local] Existing Instance Demo.query_utils.
#[local] Existing Instance Demo.engine.

(** A working directory holding [src/a/b.spec.ts], [src/a/README.txt],
    [src/a/notes.md] and [src/__proto__.ts]. *)
Definition node : GenerateListing.Node :=
  {| GenerateListing.existsSync := fun p => bool_decide (p = "src/");
     GenerateListing.readFileSync := fun file =>
       if decide (file = "src/a/README.txt") then Ok (" About a." +:+ nl)
       else Ok "export const g = makeTestGroup(F);";
     GenerateListing.fg_async := fun pattern =>
       if decide (pattern = "src/**/*")
       then Ok [GenerateListing.entry_string "src/a/b.spec.ts";
                GenerateListing.entry_object "src/a/README.txt";
                GenerateListing.entry_string "src/a/notes.md";
                GenerateListing.entry_string "src/__proto__.ts"]
       else Ok [];
     GenerateListing.writeFile := fun _ => None |}.

(** The same directory, where no file but the [README.txt] can be read. *)
Definition node_unreadable : GenerateListing.Node :=
  {| GenerateListing.existsSync := fun p => bool_decide (p = "src/");
     GenerateListing.readFileSync := fun file =>
       if decide (file = "src/a/README.txt") then Ok (" About a." +:+ nl)
       else Throw (Error "EACCES: permission denied");
     GenerateListing.fg_async := @GenerateListing.fg_async node;
     GenerateListing.writeFile := fun _ => None |}.

(** The same directory, where the [README.txt] cannot be read. *)
Definition node_no_README : GenerateListing.Node :=
  {| GenerateListing.existsSync := fun p => bool_decide (p = "src/");
     GenerateListing.readFileSync := fun file =>
       if decide (file = "src/a/README.txt")
       then Throw (Error "EACCES: permission denied")
       else Ok "export const g = makeTestGroup(F);";
     GenerateListing.fg_async := @GenerateListing.fg_async node;
     GenerateListing.writeFile := fun _ => None |}.

(** The same directory, which cannot be written to. *)
Definition node_read_only : GenerateListing.Node :=
  {| GenerateListing.existsSync := @GenerateListing.existsSync node;
     GenerateListing.readFileSync := @GenerateListing.readFileSync node;
     GenerateListing.fg_async := @GenerateListing.fg_async node;
     GenerateListing.writeFile := fun _ =>
       Some (Error "EROFS: read-only file system") |}.

(** A directory [src/] that holds a [README.txt] and nothing else, and a
    directory without [src/]. *)
Definition node_top_README : GenerateListing.Node :=
  {| GenerateListing.existsSync := fun p => bool_decide (p = "src/");
     GenerateListing.readFileSync := fun _ => Ok "About the suite.";
     GenerateListing.fg_async := fun _ =>
       Ok [GenerateListing.entry_string "src/README.txt"];
     GenerateListing.writeFile := fun _ => None |}.

Definition node_elsewhere : GenerateListing.Node :=
  {| GenerateListing.existsSync := fun _ => false;
     GenerateListing.readFileSync := fun _ => Ok "";
     GenerateListing.fg_async := fun _ => Ok [];
     GenerateListing.writeFile := fun _ => None |}.

(** [t.expectCompileResult], as a fixture that counts its calls would
    have it. *)
Definition expectCompileResult (expected : bool + string) (code : string)
    (t : Demo.Params) : Effect nat unit :=
  fun w => (Ok tt, S w).

(** [poptions(name, values)] and [combine], on lists. *)
Definition kEncoderTypes : list string :=
  ["non-pass"; "compute pass"; "render pass"; "render bundle"].

Definition poptions (name : string) (values : list string) : list Demo.Params :=
  map (fun v => [(name, v)]) values.

Definition combine (a b : list Demo.Params) : list Demo.Params :=
  flat_map (fun x => map (fun y => x ++ y) b) a.

Definition encoderTypes : Iterable Demo.Params :=
  iter_of_list (poptions "encoderType" kEncoderTypes).

Definition combined : Iterable Demo.Params :=
  iter_of_list
    (combine
       (combine (poptions "encoderType" kEncoderTypes)
                (poptions "pushCount" ["0"; "1"; "2"]))
       (poptions "popCount" ["0"; "1"; "2"])).

End Demo3.

(** * Properties of the execution protocol *)

Ltac unfold_run :=
  unfold RunCaseSpecific.runTest, RunCaseSpecific.lifecycle, try_catch,
    try_finally, bind, invoke, on_rec, ret, throw,
    calls_of, result_of, world_of, count_calls in *.

Ltac case_code :=
  repeat match goal with
  | |- context [construct ?f ?p ?w] =>
      let E := fresh "Hnew" in destruct (construct f p w) as [[?inst|?ex] ?w] eqn:E
  | |- context [init ?f ?i ?w] =>
      let E := fresh "Hinit" in destruct (init f i w) as [[[]|?ex] ?w] eqn:E
  | |- context [RunCaseSpecific.fn ?t ?i ?w] =>
      let E := fresh "Hfn" in destruct (RunCaseSpecific.fn t i w) as [[[]|?ex] ?w] eqn:E
  | |- context [finalize ?f ?i ?w] =>
      let E := fresh "Hfin" in destruct (finalize f i w) as [[[]|?ex] ?w] eqn:E
  end.

Section Execution.
Context `{ParamsUtils} {W Inst : Type}.
Implicit Types (this : RunCaseSpecific.t W Inst) (w : W) (params : CaseParams).

Lemma recorded_app (t1 t2 : list call) :
  recorded (t1 ++ t2) = recorded t1 ++ recorded t2.
Proof. apply List.filter_app. Qed.

(** The lifecycle makes no call on the Recorder and constructs one
    fixture, from the parameters it is given. *)
Lemma lifecycle_recorded this params w :
  recorded (calls_of (RunCaseSpecific.lifecycle this params w)) = [].
Proof. unfold_run. case_code; reflexivity. Qed.

Lemma lifecycle_new_fixture this params w :
  List.filter is_new_fixture (calls_of (RunCaseSpecific.lifecycle this params w))
  = [new_fixture params].
Proof. unfold_run. case_code; reflexivity. Qed.

(** [runTest] with [throwSkip] off reports whatever the lifecycle threw
    through [rec.threw] and returns. *)
Lemma runTest_no_throwSkip this params w :
  RunCaseSpecific.runTest this params false w =
  let x := RunCaseSpecific.lifecycle this params w in
  (Ok tt, world_of x,
   calls_of x ++
   match result_of x with Ok _ => [] | Throw ex => [rec_threw ex] end).
Proof.
  unfold RunCaseSpecific.runTest, try_catch, calls_of, result_of, world_of.
  destruct (RunCaseSpecific.lifecycle this params w) as [[[[]|ex] w1] t1]; simpl.
  - by rewrite app_nil_r.
  - reflexivity.
Qed.

(** With [throwSkip] on, a Skip signal leaves [runTest]; anything else is
    reported as before. *)
Lemma runTest_throwSkip this params w :
  RunCaseSpecific.runTest this params true w =
  let x := RunCaseSpecific.lifecycle this params w in
  match result_of x with
  | Ok _ => (Ok tt, world_of x, calls_of x)
  | Throw (SkipTestCase m) => (Throw (SkipTestCase m), world_of x, calls_of x)
  | Throw (Error m) => (Ok tt, world_of x, calls_of x ++ [rec_threw (Error m)])
  end.
Proof.
  unfold RunCaseSpecific.runTest, try_catch, calls_of, result_of, world_of.
  destruct (RunCaseSpecific.lifecycle this params w) as [[[[]|[m|m]] w1] t1]; simpl.
  - reflexivity.
  - by rewrite app_nil_r.
  - reflexivity.
Qed.

(** One turn of the subcase loop. *)
Lemma for_subParams_yield this subParams rest totalCount skipCount w :
  RunCaseSpecific.for_subParams this (iter_yield subParams rest)
    totalCount skipCount w =
  let x :=
    RunCaseSpecific.lifecycle this
      (mergeParams (RunCaseSpecific.params this) subParams) w in
  let y :=
    RunCaseSpecific.for_subParams this rest (S totalCount)
      (if raised_skip (result_of x) then S skipCount else skipCount)
      (world_of x) in
  (result_of y, world_of y,
   subcase_notes subParams (Ok tt) ++ calls_of x ++
   tail (subcase_notes subParams (result_of x)) ++ calls_of y).
Proof.
  cbn [RunCaseSpecific.for_subParams].
  unfold bind at 1, on_rec at 1. unfold bind at 1, try_catch at 1, bind at 1.
  rewrite runTest_throwSkip.
  destruct (RunCaseSpecific.lifecycle this _ w) as [[[[]|[m|m]] w1] t1];
    cbn -[RunCaseSpecific.for_subParams];
    destruct (RunCaseSpecific.for_subParams this rest _ _ w1) as [[r w2] t2];
    cbn; rewrite ?app_nil_r, <- ?app_assoc; reflexivity.
Qed.

(** The subcase loop: its result, and what it tells the Recorder. *)
Lemma for_subParams_spec this (it : Iterable CaseParams) :
  forall totalCount skipCount w,
  let trials := subcase_trials this (yielded it) w in
  let x := RunCaseSpecific.for_subParams this it totalCount skipCount w in
  result_of x =
    match thrown it with
    | Some ex => Throw ex
    | None =>
        Ok (totalCount + length (yielded it),
            skipCount + length (List.filter raised_skip trials))
    end
  /\ recorded (calls_of x) = concat (zip_with subcase_notes (yielded it) trials).
Proof.
  induction it as [|subParams rest IH|ex]; intros totalCount skipCount w.
  - cbn. split; [|reflexivity]. do 2 f_equal; lia.
  - rewrite for_subParams_yield.
    cbn [yielded thrown subcase_trials zip_with concat List.filter length].
    cbv zeta.
    pose proof (lifecycle_recorded this
      (mergeParams (RunCaseSpecific.params this) subParams) w) as Hl.
    set (x := RunCaseSpecific.lifecycle this _ w) in *.
    destruct (IH (S totalCount)
                (if raised_skip (result_of x) then S skipCount else skipCount)
                (world_of x)) as [IHr IHc].
    cbv zeta in IHr, IHc.
    split.
    + unfold result_of at 1; cbn [fst].
      rewrite IHr. destruct (thrown rest); [reflexivity|].
      destruct (raised_skip (result_of x)); cbn [length]; do 2 f_equal; lia.
    + unfold calls_of at 1; cbn [snd].
      rewrite !recorded_app, IHc, Hl.
      destruct (result_of x) as [[]|[m|m]]; reflexivity.
  - cbn. split; reflexivity.
Qed.

Lemma filter_all_length {A} (f : A -> bool) (l : list A) :
  length (List.filter f l) = length l <-> forallb f l = true.
Proof.
  induction l as [|a l IH]; cbn; [tauto|].
  pose proof (List.filter_length_le f l).
  destruct (f a); cbn; [rewrite <- IH; lia|].
  split; [lia|discriminate].
Qed.

Lemma subcase_trials_length this subs w :
  length (subcase_trials this subs w) = length subs.
Proof.
  revert w; induction subs as [|s subs IH]; intros w; cbn; [reflexivity|].
  by rewrite IH.
Qed.

(** [run] when a subcase generator is attached. *)
Lemma run_subcases this gen w :
  RunCaseSpecific.subParamGen this = Some gen ->
  let it := gen (RunCaseSpecific.params this) in
  let y := RunCaseSpecific.for_subParams this it 0 0 w in
  let trials := subcase_trials this (yielded it) w in
  RunCaseSpecific.run this w =
  match thrown it with
  | Some ex => (Throw ex, world_of y, rec_start :: calls_of y)
  | None =>
      (Ok tt, world_of y,
       rec_start :: calls_of y ++
       (if forallb raised_skip trials
        then [rec_skipped (SkipTestCase "all subcases were skipped")]
        else []) ++ [rec_finish])
  end.
Proof.
  intros Hgen it y trials.
  destruct (for_subParams_spec this it 0 0 w) as [Hr _]. cbv zeta in Hr.
  fold y trials in Hr.
  unfold RunCaseSpecific.run. rewrite Hgen. fold it.
  unfold bind at 1, on_rec at 1. unfold bind at 1. unfold bind at 1. fold y.
  destruct y as [[r w1] t1]; unfold result_of in Hr; cbn [fst snd] in Hr.
  cbn [world_of calls_of fst snd].
  destruct (thrown it) as [ex|]; subst r; [reflexivity|].
  cbn [fst snd].
  assert (Hdec : bool_decide (length (List.filter raised_skip trials)
                              = length (yielded it))
                 = forallb raised_skip trials).
  { apply eq_true_iff_eq. rewrite bool_decide_eq_true.
    rewrite <- filter_all_length. unfold trials.
    by rewrite subcase_trials_length. }
  destruct (decide (_ = _)) as [e|n]; [cbn in e|cbn in n].
  - rewrite bool_decide_eq_true_2 in Hdec by exact e. rewrite <- Hdec.
    cbn. by rewrite <- app_assoc.
  - rewrite bool_decide_eq_false_2 in Hdec by exact n. rewrite <- Hdec.
    cbn. by rewrite app_nil_r.
Qed.

(** [run] when no subcase generator is attached. *)
Lemma run_no_subcases this w :
  RunCaseSpecific.subParamGen this = None ->
  let x := RunCaseSpecific.lifecycle this (RunCaseSpecific.params this) w in
  RunCaseSpecific.run this w =
  (Ok tt, world_of x,
   rec_start :: calls_of x ++
   match result_of x with Ok _ => [] | Throw ex => [rec_threw ex] end ++
   [rec_finish]).
Proof.
  intros Hgen x. unfold RunCaseSpecific.run. rewrite Hgen.
  unfold bind at 1, on_rec at 1. unfold bind at 1.
  rewrite runTest_no_throwSkip. fold x. cbn. by rewrite <- app_assoc.
Qed.

(** The fixtures that the subcase loop constructs. *)
Lemma for_subParams_new_fixture this (it : Iterable CaseParams) :
  forall totalCount skipCount w,
    List.filter is_new_fixture
      (calls_of (RunCaseSpecific.for_subParams this it totalCount skipCount w))
    = map (fun subParams =>
             new_fixture (mergeParams (RunCaseSpecific.params this) subParams))
          (yielded it).
Proof.
  induction it as [|subParams rest IH|ex]; intros totalCount skipCount w;
    [reflexivity| |reflexivity].
  rewrite for_subParams_yield. cbv zeta. cbn [calls_of snd yielded map].
  rewrite !List.filter_app, lifecycle_new_fixture.
  fold (calls_of (RunCaseSpecific.for_subParams this rest (S totalCount)
    (if raised_skip (result_of (RunCaseSpecific.lifecycle this
          (mergeParams (RunCaseSpecific.params this) subParams) w))
     then S skipCount else skipCount)
    (world_of (RunCaseSpecific.lifecycle this
          (mergeParams (RunCaseSpecific.params this) subParams) w)))).
  rewrite IH.
  by destruct (result_of _) as [[]|[m|m]].
Qed.

(** The parameters from which [run] constructs fixtures: those of the
    case, merged with those of each subcase when there are subcases. *)
Lemma run_new_fixture this w :
  List.filter is_new_fixture (calls_of (RunCaseSpecific.run this w)) =
  match RunCaseSpecific.subParamGen this with
  | None => [new_fixture (RunCaseSpecific.params this)]
  | Some gen =>
      map (fun subParams =>
             new_fixture (mergeParams (RunCaseSpecific.params this) subParams))
          (yielded (gen (RunCaseSpecific.params this)))
  end.
Proof.
  destruct (RunCaseSpecific.subParamGen this) as [gen|] eqn:Egen.
  - rewrite (run_subcases this gen w Egen).
    pose proof (for_subParams_new_fixture this
                  (gen (RunCaseSpecific.params this)) 0 0 w) as Hy.
    set (y := RunCaseSpecific.for_subParams this _ 0 0 w) in *.
    destruct (thrown _); cbn [calls_of snd List.filter is_new_fixture];
      fold (calls_of y); [done|].
    rewrite !List.filter_app, Hy.
    destruct (forallb _ _); cbn; by rewrite app_nil_r.
  - rewrite (run_no_subcases this w Egen). cbn [calls_of snd List.filter is_new_fixture].
    rewrite !List.filter_app.
    fold (calls_of (RunCaseSpecific.lifecycle this (RunCaseSpecific.params this) w)).
    rewrite lifecycle_new_fixture.
    by destruct (result_of _).
Qed.

Lemma filter_recorded (f : call -> bool) (t : list call) :
  (forall c, f c = true -> is_rec c = true) ->
  List.filter f (recorded t) = List.filter f t.
Proof.
  intros Hf. unfold recorded. induction t as [|c t IH]; cbn; [reflexivity|].
  destruct (is_rec c) eqn:Ec; cbn; destruct (f c) eqn:Efc; try congruence.
  apply Hf in Efc. congruence.
Qed.

Lemma notes_skipped subs (trials : list (result unit)) :
  List.filter is_skipped (concat (zip_with subcase_notes subs trials)) = [].
Proof.
  revert trials; induction subs as [|s subs IH]; intros [|r trials]; cbn;
    try reflexivity.
  rewrite List.filter_app, IH. by destruct r as [[]|[m|m]].
Qed.

Lemma notes_debug subs (trials : list (result unit)) :
  length subs = length trials ->
  List.filter is_debug (concat (zip_with subcase_notes subs trials))
  = concat (map skip_note trials).
Proof.
  revert trials; induction subs as [|s subs IH]; intros [|r trials] Hlen;
    cbn in *; try reflexivity; try discriminate.
  rewrite List.filter_app, IH by lia. by destruct r as [[]|[m|m]].
Qed.

Lemma notes_threw subs (trials : list (result unit)) :
  length subs = length trials ->
  List.filter is_threw (concat (zip_with subcase_notes subs trials))
  = concat (map threw_note trials).
Proof.
  revert trials; induction subs as [|s subs IH]; intros [|r trials] Hlen;
    cbn in *; try reflexivity; try discriminate.
  rewrite List.filter_app, IH by lia. by destruct r as [[]|[m|m]].
Qed.

Lemma notes_not_bracket subs (trials : list (result unit)) c :
  c ∈ concat (zip_with subcase_notes subs trials) ->
  c <> rec_start /\ c <> rec_finish.
Proof.
  revert trials; induction subs as [|s subs IH]; intros [|r trials]; cbn;
    try (by intros ?%elem_of_nil).
  rewrite elem_of_cons, elem_of_app.
  intros [->|[Hc|Hc]]; [done| |by eapply IH].
  destruct r as [[]|[m|m]]; cbn in Hc.
  - by apply elem_of_nil in Hc.
  - by apply list_elem_of_singleton in Hc as ->.
  - by apply list_elem_of_singleton in Hc as ->.
Qed.

Lemma elem_of_recorded (c : call) (t : list call) :
  is_rec c = true -> c ∈ t -> c ∈ recorded t.
Proof.
  intros Hc Hin. unfold recorded.
  apply list_elem_of_In, List.filter_In. split; [by apply list_elem_of_In|done].
Qed.

(** The lifecycle is one trial: what it throws and the world it leaves
    are those of the constructor, [init], the body and [finalize] applied
    as [trial] has them. *)
Lemma lifecycle_trial this params w :
  (result_of (RunCaseSpecific.lifecycle this params w),
   world_of (RunCaseSpecific.lifecycle this params w))
  = trial (RunCaseSpecific.fixture this) (RunCaseSpecific.fn this) params w.
Proof. unfold trial. unfold_run. case_code; cbn; rewrite ?Hfin; reflexivity. Qed.

Lemma runTest_world this params throwSkip w :
  world_of (RunCaseSpecific.runTest this params throwSkip w)
  = world_of (RunCaseSpecific.lifecycle this params w).
Proof.
  destruct throwSkip; [rewrite runTest_throwSkip|rewrite runTest_no_throwSkip];
    cbv zeta; [|reflexivity].
  by destruct (result_of _) as [[]|[m|m]].
Qed.

Lemma lifecycle_world this params w :
  world_of (RunCaseSpecific.lifecycle this params w)
  = snd (trial (RunCaseSpecific.fixture this) (RunCaseSpecific.fn this) params w).
Proof. by rewrite <- lifecycle_trial. Qed.

Lemma lifecycle_result this params w :
  result_of (RunCaseSpecific.lifecycle this params w)
  = fst (trial (RunCaseSpecific.fixture this) (RunCaseSpecific.fn this) params w).
Proof. by rewrite <- lifecycle_trial. Qed.

(** The world that the subcase loop leaves is the one left by the trials
    of the subcases that the generator yielded, one after the other. *)
Lemma for_subParams_world this (it : Iterable CaseParams) :
  forall totalCount skipCount w,
    world_of (RunCaseSpecific.for_subParams this it totalCount skipCount w)
    = after_trials (RunCaseSpecific.fixture this) (RunCaseSpecific.fn this)
        (map (mergeParams (RunCaseSpecific.params this)) (yielded it)) w.
Proof.
  induction it as [|subParams rest IH|ex]; intros totalCount skipCount w;
    [reflexivity| |reflexivity].
  rewrite for_subParams_yield. cbv zeta. unfold world_of at 1. cbn [fst snd].
  fold (world_of (RunCaseSpecific.for_subParams this rest (S totalCount)
    (if raised_skip (result_of (RunCaseSpecific.lifecycle this
          (mergeParams (RunCaseSpecific.params this) subParams) w))
     then S skipCount else skipCount)
    (world_of (RunCaseSpecific.lifecycle this
          (mergeParams (RunCaseSpecific.params this) subParams) w)))).
  by rewrite IH, lifecycle_world.
Qed.

Lemma run_world this w :
  world_of (RunCaseSpecific.run this w)
  = after_trials (RunCaseSpecific.fixture this) (RunCaseSpecific.fn this)
      match RunCaseSpecific.subParamGen this with
      | None => [RunCaseSpecific.params this]
      | Some gen =>
          map (mergeParams (RunCaseSpecific.params this))
              (yielded (gen (RunCaseSpecific.params this)))
      end w.
Proof.
  destruct (RunCaseSpecific.subParamGen this) as [gen|] eqn:Egen.
  - rewrite (run_subcases this gen w Egen). cbv zeta.
    rewrite <- for_subParams_world with (totalCount := 0) (skipCount := 0).
    by destruct (thrown _).
  - rewrite (run_no_subcases this w Egen). cbv zeta.
    unfold world_of at 1. cbn [fst snd]. by rewrite lifecycle_world.
Qed.

(** C3. Whenever the construction of the fixture succeeds, a trial runs
    [finalize] exactly once, on the instance that was constructed and as
    its last call on the fixture, however [init], the body and [finalize]
    itself end (normally, with an ordinary exception or with the Skip
    signal) and whether or not a Skip is to be thrown on: the world the
    trial leaves is the one [finalize] leaves when it is applied, once, to
    that instance in the world left by [init] or by the body.  When the
    construction throws, [finalize] is not run: the trial leaves the world
    as the constructor left it. *)
Theorem finalize_exactly_once this params throwSkip w :
  let r := RunCaseSpecific.runTest this params throwSkip w in
  match construct (RunCaseSpecific.fixture this) params w with
  | (Ok inst, w1) =>
      let before_finalize :=
        match init (RunCaseSpecific.fixture this) inst w1 with
        | (Ok _, w2) => RunCaseSpecific.fn this inst w2
        | (Throw ex, w2) => (Throw ex, w2)
        end in
      count_calls is_finalize (calls_of r) = 1
      /\ last (fixture_calls (calls_of r)) = Some inst_finalize
      /\ world_of r
         = snd (finalize (RunCaseSpecific.fixture this) inst (snd before_finalize))
  | (Throw _, w1) =>
      count_calls is_finalize (calls_of r) = 0
      /\ world_of r = w1
  end.
Proof.
  unfold_run. case_code; cbn; rewrite ?Hfin; cbn;
    repeat match goal with
    | |- context [if ?b then _ else _] => destruct b; cbn
    end; auto.
Qed.

(** C1 (as the code has it). A Run Case without a subcase generator runs
    exactly one trial, on its own case parameters: the calls of [run] are
    [start], those of one lifecycle on [params], then [threw] for
    whatever that lifecycle threw, the Skip signal included, then
    [finish].  That lifecycle is one trial of the fixture on [params]: the
    constructor is applied to [params], and what the Recorder is told and
    the world [run] leaves are those of that constructor, of [init], of
    the body and of [finalize].  [run] never calls [skipped] on this path,
    and it returns normally.  For the Run Case of a declaration marked
    unimplemented, whose fixture is constructed, initialized and finalized
    without an exception, [threw] is called with the Skip signal of the
    synthetic body. *)
Theorem run_single_trial this w :
  RunCaseSpecific.subParamGen this = None ->
  let x := RunCaseSpecific.lifecycle this (RunCaseSpecific.params this) w in
  let y := trial (RunCaseSpecific.fixture this) (RunCaseSpecific.fn this)
             (RunCaseSpecific.params this) w in
  RunCaseSpecific.run this w =
    (Ok tt, world_of x,
     rec_start :: calls_of x ++
     match result_of x with Ok _ => [] | Throw ex => [rec_threw ex] end ++
     [rec_finish])
  /\ List.filter is_new_fixture (calls_of x)
     = [new_fixture (RunCaseSpecific.params this)]
  /\ (result_of x, world_of x) = y
  /\ world_of (RunCaseSpecific.run this w) = snd y
  /\ recorded (calls_of (RunCaseSpecific.run this w)) =
       match fst y with
       | Ok _ => [rec_start; rec_finish]
       | Throw ex => [rec_start; rec_threw ex; rec_finish]
       end
  /\ forall b b' runCases,
       TestBuilder.unimplemented b = Ok b' ->
       TestBuilder.iterate b' = Ok runCases ->
       this ∈ runCases ->
       forall inst w1 w2 w3,
         construct (RunCaseSpecific.fixture this) (RunCaseSpecific.params this) w
         = (Ok inst, w1) ->
         init (RunCaseSpecific.fixture this) inst w1 = (Ok tt, w2) ->
         finalize (RunCaseSpecific.fixture this) inst w2 = (Ok tt, w3) ->
         RunCaseSpecific.run this w =
           (Ok tt, w3,
            [rec_start; new_fixture (RunCaseSpecific.params this); inst_init;
             this_fn; inst_finalize;
             rec_threw (SkipTestCase "test unimplemented"); rec_finish]).
Proof.
  intros Hgen x y. rewrite (run_no_subcases this w Hgen). fold x.
  assert (Hxy : (result_of x, world_of x) = y) by apply lifecycle_trial.
  split; [reflexivity|]. split; [apply lifecycle_new_fixture|].
  split; [exact Hxy|]. split; [by rewrite <- Hxy|]. split.
  - cbn [calls_of snd]. unfold recorded at 1. cbn [List.filter is_rec].
    fold (recorded (calls_of x ++
      match result_of x with Ok _ => [] | Throw ex => [rec_threw ex] end ++
      [rec_finish])).
    rewrite recorded_app. unfold x at 1. rewrite lifecycle_recorded.
    rewrite <- Hxy. cbn [fst]. by destruct (result_of x) as [[]|ex].
  - intros b b' runCases Hun Hit Hin inst w1 w2 w3 Hnew Hinit Hfin.
    assert (Hfn : RunCaseSpecific.fn this = TestBuilder.unimplemented_body).
    { unfold TestBuilder.unimplemented in Hun.
      destruct (assert _ _); [|done]. injection Hun as <-.
      unfold TestBuilder.iterate in Hit. cbn in Hit. injection Hit as <-.
      by apply list_elem_of_fmap in Hin as (p & -> & _). }
    subst x. unfold_run. rewrite Hnew. cbn. rewrite Hinit. cbn.
    rewrite Hfn. unfold TestBuilder.unimplemented_body. cbn.
    by rewrite Hfin.
Qed.

(** C2 (as the code has it). With a subcase generator attached, [run]
    reports the case as skipped exactly when the generator ran to its end
    and the trial of every subcase threw the Skip signal, which is so in
    particular when the generator yields no subcase.  It then reports it
    once.  Every subcase whose trial threw Skip gives one debug note, the
    signal with its message prefixed by [subcase skipped: ], and there are
    no other debug notes; [threw] is called for the trials that threw
    something else, and for nothing more. *)
Theorem case_level_skip this gen w :
  RunCaseSpecific.subParamGen this = Some gen ->
  let it := gen (RunCaseSpecific.params this) in
  let trials := subcase_trials this (yielded it) w in
  let t := calls_of (RunCaseSpecific.run this w) in
  List.filter is_skipped t =
    (if bool_decide (thrown it = None) && forallb raised_skip trials
     then [rec_skipped (SkipTestCase "all subcases were skipped")]
     else [])
  /\ List.filter is_debug t = concat (map skip_note trials)
  /\ List.filter is_threw t = concat (map threw_note trials).
Proof.
  intros Hgen it trials t. subst t.
  rewrite (run_subcases this gen w Hgen). fold it trials.
  destruct (for_subParams_spec this it 0 0 w) as [_ Hc]. cbv zeta in Hc.
  fold it trials in Hc.
  set (y := RunCaseSpecific.for_subParams this it 0 0 w) in *.
  assert (Hlen : length (yielded it) = length trials)
    by (unfold trials; by rewrite subcase_trials_length).
  assert (Hs : List.filter is_skipped (calls_of y) = []).
  { rewrite <- filter_recorded, Hc by (by intros []). apply notes_skipped. }
  assert (Hd : List.filter is_debug (calls_of y) = concat (map skip_note trials)).
  { rewrite <- filter_recorded, Hc by (by intros []). by apply notes_debug. }
  assert (Ht : List.filter is_threw (calls_of y) = concat (map threw_note trials)).
  { rewrite <- filter_recorded, Hc by (by intros []). by apply notes_threw. }
  destruct (thrown it) as [ex|]; cbn [calls_of snd bool_decide andb].
  - cbn [List.filter is_skipped is_debug is_threw]. fold (calls_of y).
    rewrite Hs, Hd, Ht. by rewrite bool_decide_eq_false_2.
  - cbn [List.filter is_skipped is_debug is_threw]. fold (calls_of y).
    rewrite !List.filter_app, Hs, Hd, Ht. rewrite bool_decide_eq_true_2 by done.
    destruct (forallb raised_skip trials); cbn; by rewrite ?app_nil_r.
Qed.

(** C4 (as the code has it). Provided the subcase generator, when there
    is one, runs to its end without throwing, [run] returns normally
    whatever the construction of the fixture, [init], the body and
    [finalize] do, and the calls it makes begin with the Recorder's
    [start] and end with its [finish], neither of which occurs in
    between. *)
Theorem run_brackets this w :
  (forall gen, RunCaseSpecific.subParamGen this = Some gen ->
               thrown (gen (RunCaseSpecific.params this)) = None) ->
  result_of (RunCaseSpecific.run this w) = Ok tt
  /\ exists mid,
       calls_of (RunCaseSpecific.run this w) = rec_start :: mid ++ [rec_finish]
       /\ (rec_start ∉ mid) /\ (rec_finish ∉ mid).
Proof.
  intros Hgen.
  destruct (RunCaseSpecific.subParamGen this) as [gen|] eqn:Egen.
  - specialize (Hgen gen eq_refl).
    rewrite (run_subcases this gen w Egen). rewrite Hgen.
    destruct (for_subParams_spec this (gen (RunCaseSpecific.params this)) 0 0 w)
      as [_ Hc]. cbv zeta in Hc.
    set (y := RunCaseSpecific.for_subParams this _ 0 0 w) in *.
    split; [reflexivity|]. cbn [calls_of snd].
    eexists. split; [by rewrite app_assoc|].
    assert (Hmid : forall c, is_rec c = true -> c ∈ calls_of y ->
              c <> rec_start /\ c <> rec_finish).
    { intros c Hrec Hin. eapply notes_not_bracket. rewrite <- Hc.
      by apply elem_of_recorded. }
    fold (calls_of y).
    split; intros [Hin|Hin]%elem_of_app.
    + by destruct (Hmid rec_start eq_refl Hin).
    + destruct (forallb _ _); [by apply list_elem_of_singleton in Hin|
                               by apply elem_of_nil in Hin].
    + by destruct (Hmid rec_finish eq_refl Hin).
    + destruct (forallb _ _); [by apply list_elem_of_singleton in Hin|
                               by apply elem_of_nil in Hin].
  - rewrite (run_no_subcases this w Egen).
    set (x := RunCaseSpecific.lifecycle this _ w).
    split; [reflexivity|]. cbn [calls_of snd].
    eexists. split; [by rewrite app_assoc|].
    assert (Hmid : forall c, is_rec c = true -> c ∉ calls_of x).
    { intros c Hrec Hin. apply (elem_of_recorded _ _ Hrec) in Hin.
      unfold x in Hin. rewrite lifecycle_recorded in Hin.
      by apply elem_of_nil in Hin. }
    fold (calls_of x).
    split; intros [Hin|Hin]%elem_of_app.
    + by apply (Hmid rec_start eq_refl).
    + destruct (result_of x); [by apply elem_of_nil in Hin|
                               by apply list_elem_of_singleton in Hin].
    + by apply (Hmid rec_finish eq_refl).
    + destruct (result_of x); [by apply elem_of_nil in Hin|
                               by apply list_elem_of_singleton in Hin].
Qed.
End Execution.

(** * The protocol at work *)

Section ExecutionExamples.
#[local] Existing Instance Demo.params_utils.

(** A body that throws an ordinary error, and the declaration [todo],
    marked unimplemented. *)
Lemma run_single_trial_witness :
  (RunCaseSpecific.subParamGen (Demo.run_case Demo.x2 None Demo.body_throw_x2) = None
   /\ RunCaseSpecific.run (Demo.run_case Demo.x2 None Demo.body_throw_x2) 0
      = (Ok tt, 0,
         [rec_start; new_fixture Demo.x2; inst_init; this_fn; inst_finalize;
          rec_threw (Error "x is 2"); rec_finish])
   /\ trial Demo.fixture Demo.body_throw_x2 Demo.x2 0 = (Throw (Error "x is 2"), 0)
   /\ recorded
        (calls_of (RunCaseSpecific.run
           (Demo.run_case Demo.x2 None Demo.body_throw_x2) 0))
      = [rec_start; rec_threw (Error "x is 2"); rec_finish])
  /\ (RunCaseSpecific.subParamGen Demo.unimplemented_case = None
      /\ TestBuilder.unimplemented
           (@TestBuilder.desc _ Demo.engine nat Demo.Params " later "
              (Demo.declaration Demo.engine "todo"))
         = Ok (Demo.todo Demo.engine)
      /\ TestBuilder.iterate (Demo.todo Demo.engine) = Ok [Demo.unimplemented_case]
      /\ RunCaseSpecific.run Demo.unimplemented_case 0
         = (Ok tt, 0,
            [rec_start; new_fixture []; inst_init; this_fn; inst_finalize;
             rec_threw (SkipTestCase "test unimplemented"); rec_finish])).
Proof.
  split.
  - split; [reflexivity|].
    destruct (run_single_trial (Demo.run_case Demo.x2 None Demo.body_throw_x2) 0
                eq_refl) as (Hrun & _ & Htrial & _ & Hrec & _).
    split; [exact Hrun|]. split; [reflexivity|]. exact Hrec.
  - split; [reflexivity|]. split; [reflexivity|]. split; [reflexivity|].
    destruct (run_single_trial Demo.unimplemented_case 0 eq_refl)
      as (_ & _ & _ & _ & _ & Hun).
    exact (Hun (@TestBuilder.desc _ Demo.engine nat Demo.Params " later "
                  (Demo.declaration Demo.engine "todo"))
               (Demo.todo Demo.engine) [Demo.unimplemented_case]
               eq_refl eq_refl (list_elem_of_here _ _) [] 1 1 0
               eq_refl eq_refl eq_refl).
Defined.

(** Against C1 as stated: the declaration [todo] is marked unimplemented;
    its single Run Case has no subcase generator and its trial throws the
    Skip signal, yet the Recorder is called with [threw], not with
    [skipped]. *)
Lemma skip_reported_through_threw :
  TestBuilder.iterate (Demo.todo Demo.engine) = Ok [Demo.unimplemented_case]
  /\ RunCaseSpecific.subParamGen Demo.unimplemented_case = None
  /\ result_of (RunCaseSpecific.lifecycle Demo.unimplemented_case
                  (RunCaseSpecific.params Demo.unimplemented_case) 0)
     = Throw (SkipTestCase "test unimplemented")
  /\ calls_of (RunCaseSpecific.run Demo.unimplemented_case 0)
     = [rec_start; new_fixture []; inst_init; this_fn; inst_finalize;
        rec_threw (SkipTestCase "test unimplemented"); rec_finish]
  /\ ~ (exists ex, rec_skipped ex ∈
                    calls_of (RunCaseSpecific.run Demo.unimplemented_case 0)).
Proof.
  repeat split; try reflexivity.
  intros [ex Hin]. vm_compute in Hin.
  repeat (apply elem_of_cons in Hin as [Hin|Hin]; [discriminate|]).
  by apply elem_of_nil in Hin.
Qed.

(** The description that [unimplemented] leaves. *)
Example todo_description :
  TestBuilder.description (Demo.todo Demo.engine)
  = Some ("later" +:+ nl +:+ nl +:+ "TODO: .unimplemented()").
Proof. reflexivity. Qed.

Lemma case_level_skip_witness :
  RunCaseSpecific.subParamGen
    (Demo.run_case [] (Some Demo.two_subcases) Demo.body_skip_s1)
  = Some Demo.two_subcases
  /\ (List.filter is_skipped
        (calls_of (RunCaseSpecific.run
           (Demo.run_case [] (Some Demo.two_subcases) Demo.body_skip_s1) 0))
      = []
      /\ List.filter is_debug
           (calls_of (RunCaseSpecific.run
              (Demo.run_case [] (Some Demo.two_subcases) Demo.body_skip_s1) 0))
         = [rec_debug (SkipTestCase "subcase skipped: s is 1")]
      /\ List.filter is_threw
           (calls_of (RunCaseSpecific.run
              (Demo.run_case [] (Some Demo.two_subcases) Demo.body_skip_s1) 0))
         = []).
Proof.
  split; [reflexivity|].
  exact (case_level_skip
           (Demo.run_case [] (Some Demo.two_subcases) Demo.body_skip_s1)
           Demo.two_subcases 0 eq_refl).
Defined.

(** Against C2 as stated: a generator that yields no subcase makes [run]
    report the case as skipped, although the number of subcases is zero.
    And a generator that throws after a subcase whose trial was skipped
    leaves the case unreported, although every subcase was skipped and
    there is one. *)
Lemma no_subcase_reported_skipped :
  (yielded (Demo.no_subcase (RunCaseSpecific.params
              (Demo.run_case [] (Some Demo.no_subcase) Demo.body_pass))) = []
   /\ calls_of (RunCaseSpecific.run
                  (Demo.run_case [] (Some Demo.no_subcase) Demo.body_pass) 0)
      = [rec_start; rec_skipped (SkipTestCase "all subcases were skipped");
         rec_finish])
  /\ (subcase_trials (Demo.run_case [] (Some Demo.one_then_failing) Demo.body_skip_s1)
        (yielded (Demo.one_then_failing [])) 0
      = [Throw (SkipTestCase "s is 1")]
     /\ recorded (calls_of (RunCaseSpecific.run
           (Demo.run_case [] (Some Demo.one_then_failing) Demo.body_skip_s1) 0))
        = [rec_start; rec_info (Error "subcase: s=1");
           rec_debug (SkipTestCase "subcase skipped: s is 1")]).
Proof. repeat split. Qed.

Lemma run_brackets_witness :
  (forall gen,
      RunCaseSpecific.subParamGen
        (Demo.run_case [] (Some Demo.two_subcases) Demo.body_skip_s1) = Some gen ->
      thrown (gen (RunCaseSpecific.params
                (Demo.run_case [] (Some Demo.two_subcases) Demo.body_skip_s1)))
      = None)
  /\ (result_of (RunCaseSpecific.run
                   (Demo.run_case [] (Some Demo.two_subcases) Demo.body_skip_s1) 0)
        = Ok tt
      /\ exists mid,
           calls_of (RunCaseSpecific.run
                       (Demo.run_case [] (Some Demo.two_subcases) Demo.body_skip_s1) 0)
           = rec_start :: mid ++ [rec_finish]
           /\ (rec_start ∉ mid) /\ (rec_finish ∉ mid)).
Proof.
  assert (Hgen : forall gen,
      RunCaseSpecific.subParamGen
        (Demo.run_case [] (Some Demo.two_subcases) Demo.body_skip_s1) = Some gen ->
      thrown (gen (RunCaseSpecific.params
                (Demo.run_case [] (Some Demo.two_subcases) Demo.body_skip_s1)))
      = None).
  { intros gen Hgen. cbn in Hgen. injection Hgen as <-. reflexivity. }
  split; [exact Hgen|].
  exact (run_brackets
           (Demo.run_case [] (Some Demo.two_subcases) Demo.body_skip_s1) 0 Hgen).
Defined.

(** Against C4 as stated: an exception thrown by the subcase generator
    leaves [run], and the Recorder never sees [finish]. *)
Lemma generator_exception_escapes_run :
  RunCaseSpecific.run
    (Demo.run_case [] (Some Demo.failing_generator) Demo.body_pass) 0
  = (Throw (Error "generator failed"), 0, [rec_start]).
Proof. reflexivity. Qed.

(** Subcases [{s:1}] and [{s:2}], a body that skips when [s] is 1: one
    debug note, no case-level [skipped], a normal [finish]. *)
Example scenario_D :
  recorded (calls_of (RunCaseSpecific.run
     (Demo.run_case [] (Some Demo.two_subcases) Demo.body_skip_s1) 0))
  = [rec_start;
     rec_info (Error "subcase: s=1");
     rec_debug (SkipTestCase "subcase skipped: s is 1");
     rec_info (Error "subcase: s=2");
     rec_finish].
Proof. reflexivity. Qed.

(** The same subcases with a body that always skips: one debug note per
    subcase, then the case is reported as skipped. *)
Example all_subcases_skipped :
  recorded (calls_of (RunCaseSpecific.run
     (Demo.run_case [] (Some Demo.two_subcases) Demo.body_skip) 0))
  = [rec_start;
     rec_info (Error "subcase: s=1");
     rec_debug (SkipTestCase "subcase skipped: not applicable");
     rec_info (Error "subcase: s=2");
     rec_debug (SkipTestCase "subcase skipped: not applicable");
     rec_skipped (SkipTestCase "all subcases were skipped");
     rec_finish].
Proof. reflexivity. Qed.

(** A fixture whose [init] throws is still finalized, and the body is not
    called. *)
Example init_throws :
  calls_of (RunCaseSpecific.runTest
     (RunCaseSpecific.new ["t"] [] None Demo.fixture_bad_init Demo.body_pass) [] false 0)
  = [new_fixture []; inst_init; inst_finalize; rec_threw (Error "init failed")].
Proof. reflexivity. Qed.
End ExecutionExamples.

(** * Properties of strings *)

Example split_examples :
  split "," "a,b,,c" = ["a"; "b"; ""; "c"]
  /\ split "," "" = [""]
  /\ split "" "abc" = ["a"; "b"; "c"]
  /\ split "ab" "xabyabab" = ["x"; "y"; ""; ""]
  /\ split "aa" "aaa" = [""; "a"]
  /\ join "," ["a"; "b"; ""; "c"] = "a,b,,c".
Proof. repeat split. Qed.

Lemma append_cons c (s1 s2 : string) : String c s1 +:+ s2 = String c (s1 +:+ s2).
Proof. reflexivity. Qed.

Lemma append_nil_l (s : string) : "" +:+ s = s.
Proof. reflexivity. Qed.

Lemma append_nil_r (s : string) : s +:+ "" = s.
Proof. induction s as [|c s IH]; [reflexivity|]. by rewrite append_cons, IH. Qed.

Lemma append_assoc (s1 s2 s3 : string) : (s1 +:+ s2) +:+ s3 = s1 +:+ s2 +:+ s3.
Proof.
  induction s1 as [|c s1 IH]; [reflexivity|]. by rewrite !append_cons, IH.
Qed.

Lemma starts_with_length (p s : string) :
  starts_with p s = true -> String.length p <= String.length s.
Proof.
  revert s; induction p as [|a p IH]; intros [|b s]; cbn; try lia; try discriminate.
  destruct (decide (a = b)); [|discriminate]. intros Hp%IH. lia.
Qed.

Lemma starts_with_drop (p s : string) :
  starts_with p s = true -> s = p +:+ drop_chars (String.length p) s.
Proof.
  revert s; induction p as [|a p IH]; intros [|b s]; cbn; try done.
  destruct (decide (a = b)) as [->|]; [|discriminate].
  intros Hp%IH. by rewrite append_cons, <- Hp.
Qed.

Lemma split_from_not_nil (R : string) skip cur s : split_from R skip cur s <> [].
Proof.
  revert skip cur; induction s as [|c s IH]; intros skip cur; cbn; [done|].
  destruct skip; [|apply IH]. destruct (starts_with R (String c s)); [done|apply IH].
Qed.

Lemma join_cons (sep p : string) (rest : list string) :
  rest <> [] -> join sep (p :: rest) = p +:+ sep +:+ join sep rest.
Proof. by destruct rest. Qed.

Lemma join_split_from (R : string) s :
  R <> "" ->
  forall skip cur,
    skip <= String.length s ->
    join R (split_from R skip cur s) = cur +:+ drop_chars skip s.
Proof.
  intros HR. induction s as [|c s IH]; intros skip cur Hskip; cbn in *.
  - assert (skip = 0) as -> by lia. cbn [split_from join drop_chars]. by rewrite append_nil_r.
  - destruct skip as [|k].
    + cbn [drop_chars]. destruct (starts_with R (String c s)) eqn:Es.
      * rewrite join_cons by apply split_from_not_nil.
        pose proof (starts_with_length _ _ Es) as Hlen.
        pose proof (starts_with_drop _ _ Es) as Hdrop.
        destruct R as [|a R']; [done|]. cbn [String.length] in *.
        rewrite IH by lia. cbn [drop_chars] in Hdrop.
        replace (S (String.length R') - 1) with (String.length R') by lia.
        rewrite append_nil_l, Hdrop at 1. reflexivity.
      * rewrite IH by lia. cbn [drop_chars]. by rewrite append_assoc.
    + cbn [drop_chars]. apply IH. lia.
Qed.

Lemma join_chars (s : string) : join "" (chars s) = s.
Proof.
  induction s as [|c s IH]; cbn [chars]; [reflexivity|].
  destruct s as [|c' s']; [reflexivity|].
  rewrite join_cons by done. by rewrite IH.
Qed.

(** Splitting a string and joining the parts with the same separator gives
    the string back. *)
Lemma join_split (sep s : string) : join sep (split sep s) = s.
Proof.
  destruct sep as [|a sep'].
  - apply join_chars.
  - unfold split. rewrite join_split_from by (done || lia). reflexivity.
Qed.

(** * Properties of the registry *)

Section Registry.
Context `{ParamsUtils} `{QueryUtils} `{Engine} {W Inst : Type}.
Implicit Types (g : TestGroup.t W Inst) (b : TestBuilder.t W Inst).

Lemma check_parts_forallb (parts : list string) :
  TestGroup.check_parts parts =
  (if forallb validQueryPart parts then Ok tt else TestGroup.check_parts parts)
  /\ is_Throw (TestGroup.check_parts parts) = negb (forallb validQueryPart parts).
Proof.
  induction parts as [|p parts [IH1 IH2]]; cbn; [done|].
  destruct (validQueryPart p); cbn; [|done].
  split; [|done]. by destruct (forallb validQueryPart parts).
Qed.

Lemma registered_with_test i b b' g :
  TestGroup.tests g !! i = Some b ->
  TestBuilder.testPath b' = TestBuilder.testPath b ->
  registered (with_test i b' g) = registered g.
Proof.
  intros Hi Hpath. unfold registered, with_test; cbn.
  rewrite list_fmap_insert, Hpath.
  apply list_insert_id. by rewrite list_lookup_fmap, Hi.
Qed.

(** In a group built through the interface, the names in [seen] are the
    joined paths of the registered tests, together with names that were
    refused for one of their parts. *)
Lemma reachable_seen g :
  reachable g ->
  (forall n, n ∈ registered g -> n ∈ TestGroup.seen g)
  /\ (forall n, n ∈ TestGroup.seen g ->
        n ∈ registered g \/ forallb validQueryPart (split kPathSeparator n) = false).
Proof.
  induction 1 as [fixture|name g Hg [IH1 IH2]|i b b' g Hg [IH1 IH2] Hi Hpath].
  - split; intros n Hn; cbn in Hn;
      [by apply elem_of_nil in Hn|by apply elem_of_empty in Hn].
  - unfold TestGroup.test, TestGroup.checkName.
    destruct (decodeURIComponent name) as [decoded|ex]; [|done].
    destruct (bool_decide (name = decoded)); cbn [assert]; [|done].
    destruct (bool_decide (name ∈ TestGroup.seen g)) eqn:Eseen;
      cbn [assert negb]; [done|].
    destruct (check_parts_forallb (split kPathSeparator name)) as [_ Hparts].
    destruct (TestGroup.check_parts (split kPathSeparator name)); cbn in *.
    + unfold registered; cbn. rewrite map_app; cbn. rewrite join_split.
      split; intros n.
      * rewrite elem_of_app, list_elem_of_singleton, elem_of_union,
          elem_of_singleton.
        intros [Hn| ->]; [right; by apply IH1|by left].
      * rewrite elem_of_union, elem_of_singleton, elem_of_app,
          list_elem_of_singleton.
        intros [->|Hn]; [by left; right|]. destruct (IH2 n Hn); auto.
    + split; intros n.
      * intros Hn. apply elem_of_union. right. by apply IH1.
      * rewrite elem_of_union, elem_of_singleton.
        intros [->|Hn]; [right|by apply IH2].
        by destruct (forallb _ _).
  - rewrite (registered_with_test i b b' g Hi Hpath). by split.
Qed.

(** C8. In a group built through the interface, [test(name)] throws, and
    registers nothing, when [name] is not its own percent-decoding, when
    it is the joined path of a test already registered, or when one of
    the parts that [split] gives is not a valid part; in every other case
    it returns a new declaration for the path [split] gives, stored at
    the end of the registry, which grows by one. *)
Theorem test_declares name g :
  reachable g ->
  let r := TestGroup.test name g in
  if bool_decide (decodeURIComponent name = Ok name)
     && negb (bool_decide (name ∈ registered g))
     && forallb validQueryPart (split kPathSeparator name)
  then
    exists b, fst r = Ok b
      /\ b = TestBuilder.new (split kPathSeparator name) (TestGroup.fixture g)
               (new_Error ("Test created: " +:+ name))
      /\ TestGroup.tests (snd r) = TestGroup.tests g ++ [b]
      /\ length (TestGroup.tests (snd r)) = S (length (TestGroup.tests g))
  else
    is_Throw (fst r) = true /\ TestGroup.tests (snd r) = TestGroup.tests g.
Proof.
  intros [Hreg Hseen]%reachable_seen r. subst r.
  unfold TestGroup.test, TestGroup.checkName.
  destruct (check_parts_forallb (split kPathSeparator name)) as [Hok Hparts].
  destruct (decodeURIComponent name) as [decoded|ex] eqn:Edec.
  - destruct (decide (name = decoded)) as [<-|Hne].
    + rewrite (bool_decide_eq_true_2 (Ok name = Ok name)) by done.
      rewrite (bool_decide_eq_true_2 (name = name)) by done.
      cbn [assert andb].
      destruct (decide (name ∈ TestGroup.seen g)) as [Hin|Hnin].
      * rewrite (bool_decide_eq_true_2 (name ∈ TestGroup.seen g)) by done.
        cbn [assert negb fst snd].
        destruct (Hseen name Hin) as [Hr|Hp].
        -- by rewrite (bool_decide_eq_true_2 _ Hr).
        -- rewrite Hp. by rewrite andb_false_r.
      * rewrite (bool_decide_eq_false_2 (name ∈ TestGroup.seen g)) by done.
        cbn [assert negb].
        rewrite (bool_decide_eq_false_2 (name ∈ registered g))
          by (intros Hr; by apply Hnin, Hreg).
        cbn [negb andb].
        destruct (forallb validQueryPart (split kPathSeparator name)).
        -- rewrite Hok. cbn. eexists. repeat split; try reflexivity.
           rewrite length_app; cbn; lia.
        -- destruct (TestGroup.check_parts _); [done|]. by cbn.
    + rewrite (bool_decide_eq_false_2 (name = decoded)) by done.
      rewrite (bool_decide_eq_false_2 (Ok decoded = Ok name)) by congruence.
      by cbn.
  - rewrite (bool_decide_eq_false_2 (Throw ex = Ok name)) by done. by cbn.
Qed.
End Registry.

(** * Properties of declarations *)

Section Declarations.
Context `{ParamsUtils} `{QueryUtils} `{Engine} {W Inst : Type}.
Implicit Types (g : TestGroup.t W Inst) (b : TestBuilder.t W Inst).

Lemma validate_tests_app (before after : list (TestBuilder.t W Inst)) b :
  TestGroup.validate_tests (before ++ b :: after) =
  match TestGroup.validate_tests before with
  | Throw ex => Throw ex
  | Ok _ =>
      match TestBuilder.validate b with
      | Throw ex => Throw ex
      | Ok _ => TestGroup.validate_tests after
      end
  end.
Proof.
  induction before as [|b0 before IH]; cbn; [reflexivity|].
  destruct (TestBuilder.validate b0); [apply IH|reflexivity].
Qed.

(** A declaration that fails its own validation makes the validation of
    the group fail. *)
Lemma validate_tests_fails (before after : list (TestBuilder.t W Inst)) b :
  is_Throw (TestBuilder.validate b) = true ->
  is_Throw (TestGroup.validate_tests (before ++ b :: after)) = true.
Proof.
  intros Hb. rewrite validate_tests_app.
  destruct (TestGroup.validate_tests before); [|done].
  by destruct (TestBuilder.validate b).
Qed.

(** What a successful check of the cases establishes. *)
Lemma validate_cases_ok testPathString (cases : list CaseParams) :
  forall seen,
    TestBuilder.validate_cases testPathString cases seen = Ok tt ->
    NoDup (map stringifyPublicParamsUniquely cases)
    /\ forall c, c ∈ cases -> stringifyPublicParamsUniquely c ∉ seen.
Proof.
  induction cases as [|c0 cases IH]; intros seen Hv; cbn in *.
  - split; [constructor|]. by intros c ?%elem_of_nil.
  - destruct (stringifyPublicParams c0) as [s0|]; [|done].
    destruct (decide (stringifyPublicParamsUniquely c0 ∈ seen)) as [Hin|Hnin].
    + by rewrite bool_decide_eq_true_2 in Hv.
    + rewrite bool_decide_eq_false_2 in Hv by done. cbn in Hv.
      destruct (IH _ Hv) as [Hnd Hfresh]. split.
      * constructor; [|done]. intros (c & Hc & Hin)%list_elem_of_fmap.
        apply (Hfresh c Hin). rewrite <- Hc.
        by apply elem_of_union_l, elem_of_singleton_2.
      * intros c [->|Hc]%elem_of_cons; [done|].
        specialize (Hfresh c Hc).
        by apply not_elem_of_union in Hfresh as [_ ?].
Qed.

(** The check of the cases, when every record has a human-readable
    rendering: either it succeeds, or it stops at the first record whose
    unique rendering was met before, citing the rendering of that
    record. *)
Lemma validate_cases_spec testPathString (cases : list CaseParams) :
  (forall c, c ∈ cases -> is_Throw (stringifyPublicParams c) = false) ->
  forall seen,
    (TestBuilder.validate_cases testPathString cases seen = Ok tt
     /\ NoDup (map stringifyPublicParamsUniquely cases)
     /\ forall c, c ∈ cases -> stringifyPublicParamsUniquely c ∉ seen)
    \/ exists pre c post s,
         cases = pre ++ c :: post
         /\ NoDup (map stringifyPublicParamsUniquely pre)
         /\ (forall c', c' ∈ pre -> stringifyPublicParamsUniquely c' ∉ seen)
         /\ (stringifyPublicParamsUniquely c ∈ seen
             \/ stringifyPublicParamsUniquely c
                ∈ map stringifyPublicParamsUniquely pre)
         /\ stringifyPublicParams c = Ok s
         /\ TestBuilder.validate_cases testPathString cases seen =
            Throw (Error ("Duplicate public test case params for test " +:+
                          testPathString +:+ ": " +:+ s)).
Proof.
  induction cases as [|c0 cases IH]; intros Hrender seen.
  - left. cbn. repeat split; [constructor|]. by intros c ?%elem_of_nil.
  - assert (Hr0 : is_Throw (stringifyPublicParams c0) = false)
      by (apply Hrender; left).
    assert (Hrest : forall c, c ∈ cases -> is_Throw (stringifyPublicParams c) = false)
      by (intros c Hc; apply Hrender; by right).
    cbn [TestBuilder.validate_cases].
    destruct (stringifyPublicParams c0) as [s0|] eqn:Es0; [|done].
    destruct (decide (stringifyPublicParamsUniquely c0 ∈ seen)) as [Hin|Hnin].
    + right. exists [], c0, cases, s0.
      rewrite bool_decide_eq_true_2 by done. cbn.
      repeat split; auto; [constructor|]. by intros c ?%elem_of_nil.
    + rewrite bool_decide_eq_false_2 by done. cbn [negb assert].
      destruct (IH Hrest ({[stringifyPublicParamsUniquely c0]} ∪ seen))
        as [(Hv & Hnd & Hfresh)|(pre & c & post & s & -> & Hnd & Hfresh & Hdup & Hs & Hv)].
      * left. split; [done|]. split.
        -- cbn. constructor; [|done].
           intros (c & Hc & Hin)%list_elem_of_fmap.
           apply (Hfresh c Hin). rewrite <- Hc.
        by apply elem_of_union_l, elem_of_singleton_2.
        -- intros c [->|Hc]%elem_of_cons; [done|].
           specialize (Hfresh c Hc).
        by apply not_elem_of_union in Hfresh as [_ ?].
      * right. exists (c0 :: pre), c, post, s. split; [done|]. split.
        { cbn. constructor; [|done].
          intros (c' & Hc' & Hin)%list_elem_of_fmap.
          apply (Hfresh c' Hin). rewrite <- Hc'.
          by apply elem_of_union_l, elem_of_singleton_2. }
        split.
        { intros c' [->|Hc']%elem_of_cons; [done|].
          specialize (Hfresh c' Hc').
          by apply not_elem_of_union in Hfresh as [_ ?]. }
        split; [|done].
        destruct Hdup as [[Hd%elem_of_singleton|Hd]%elem_of_union|Hd].
        -- right. cbn. rewrite Hd. by left.
        -- by left.
        -- right. cbn. by right.
Qed.

(** What the Recorder is told by a run without subcases. *)
Lemma run_no_subcases_recorded (this : RunCaseSpecific.t W Inst) w :
  RunCaseSpecific.subParamGen this = None ->
  recorded (calls_of (RunCaseSpecific.run this w)) =
  match fst (trial (RunCaseSpecific.fixture this) (RunCaseSpecific.fn this)
               (RunCaseSpecific.params this) w) with
  | Ok _ => [rec_start; rec_finish]
  | Throw ex => [rec_start; rec_threw ex; rec_finish]
  end.
Proof.
  intros Hgen. rewrite (run_no_subcases this w Hgen). cbv zeta.
  cbn [calls_of snd]. unfold recorded at 1. cbn [List.filter is_rec].
  fold (calls_of (RunCaseSpecific.lifecycle this (RunCaseSpecific.params this) w)).
  fold (recorded
    (calls_of (RunCaseSpecific.lifecycle this (RunCaseSpecific.params this) w) ++
     match result_of (RunCaseSpecific.lifecycle this (RunCaseSpecific.params this) w)
     with Ok _ => [] | Throw ex => [rec_threw ex] end ++ [rec_finish])).
  rewrite recorded_app, lifecycle_recorded, lifecycle_result.
  by destruct (fst _) as [[]|ex].
Qed.

(** C5. For a declaration with a body, [iterate] yields one Run Case for
    the empty record when no cases were attached, and otherwise one Run
    Case per attached record, in their order.  The identity of each is
    the test path with the public view of its record, while the Run Case
    keeps the whole record, and it is the whole record that reaches the
    fixture and the body when the Run Case is run: the constructor of the
    fixture of the declaration is applied to that record (merged with
    each subcase the generator yields for it, when there are subcases),
    the body is applied to the instance it returns, and the world that
    [run] leaves, and without subcases what the Recorder is told, are
    those of these trials. *)
Theorem iterate_run_cases b testFn :
  TestBuilder.testFn b = Some testFn ->
  let records :=
    match TestBuilder.caseParams b with
    | None => [empty_params]
    | Some cases => cases
    end in
  exists runCases,
    TestBuilder.iterate b = Ok runCases
    /\ Forall2
         (fun params rc =>
            RunCaseSpecific.id rc =
              {| TestCaseID.test := TestBuilder.testPath b;
                 TestCaseID.params := extractPublicParams params |}
            /\ RunCaseSpecific.params rc = params
            /\ RunCaseSpecific.fn rc = testFn
            /\ forall w,
                 List.filter is_new_fixture (calls_of (RunCaseSpecific.run rc w)) =
                 match TestBuilder.subcaseParams b with
                 | None => [new_fixture params]
                 | Some gen =>
                     map (fun subParams => new_fixture (mergeParams params subParams))
                         (yielded (gen params))
                 end
                 /\ world_of (RunCaseSpecific.run rc w) =
                    after_trials (TestBuilder.fixture b) testFn
                      match TestBuilder.subcaseParams b with
                      | None => [params]
                      | Some gen => map (mergeParams params) (yielded (gen params))
                      end w
                 /\ (TestBuilder.subcaseParams b = None ->
                     recorded (calls_of (RunCaseSpecific.run rc w)) =
                     match fst (trial (TestBuilder.fixture b) testFn params w) with
                     | Ok _ => [rec_start; rec_finish]
                     | Throw ex => [rec_start; rec_threw ex; rec_finish]
                     end))
         records runCases.
Proof.
  intros Hfn records. unfold TestBuilder.iterate. rewrite Hfn.
  eexists. split; [reflexivity|].
  replace (default [empty_params] (TestBuilder.caseParams b)) with records
    by (unfold records; by destruct (TestBuilder.caseParams b)).
  clear. induction records as [|params records IH]; cbn [map]; constructor;
    [|done].
  repeat split.
  - by rewrite run_new_fixture.
  - by rewrite run_world.
  - intros Hsub.
    by rewrite run_no_subcases_recorded
      by (cbn [RunCaseSpecific.new RunCaseSpecific.subParamGen]; exact Hsub).
Qed.

(** A sequence in which two elements have the same key has a first
    element whose key repeats an earlier one. *)
Lemma first_repeat {A} (key : A -> string) (l : list A) :
  ~ NoDup (map key l) ->
  exists pre c post,
    l = pre ++ c :: post
    /\ NoDup (map key pre)
    /\ key c ∈ map key pre.
Proof.
  induction l as [|x l IH] using rev_ind; [intros Hdup; destruct Hdup; constructor|].
  intros Hdup.
  destruct (decide (NoDup (map key l))) as [Hnd|Hnd].
  - destruct (decide (key x ∈ map key l)) as [Hin|Hnin].
    + by exists l, x, [].
    + exfalso. apply Hdup. rewrite map_app. cbn.
      apply NoDup_app. repeat split; [done| |apply NoDup_singleton].
      by intros k Hk ->%list_elem_of_singleton.
  - destruct (IH Hnd) as (pre & c & post & -> & Hpre & Hc).
    exists pre, c, (post ++ [x]). by rewrite <- app_assoc.
Qed.

(** The loop of [validate] stops at the first record whose unique
    rendering was met before, provided that the records before it and the
    record itself render: the records after it are not looked at. *)
Lemma validate_cases_first_repeat testPathString (pre : list CaseParams) c post s :
  forall seen,
    NoDup (map stringifyPublicParamsUniquely pre) ->
    (forall c', c' ∈ pre -> stringifyPublicParamsUniquely c' ∉ seen) ->
    (stringifyPublicParamsUniquely c ∈ seen
     \/ stringifyPublicParamsUniquely c ∈ map stringifyPublicParamsUniquely pre) ->
    (forall c', c' ∈ pre -> is_Throw (stringifyPublicParams c') = false) ->
    stringifyPublicParams c = Ok s ->
    TestBuilder.validate_cases testPathString (pre ++ c :: post) seen =
    Throw (Error ("Duplicate public test case params for test " +:+
                  testPathString +:+ ": " +:+ s)).
Proof.
  induction pre as [|c0 pre IH]; intros seen Hnd Hfresh Hin Hrender Hs; cbn.
  - rewrite Hs. destruct Hin as [Hin|Hin%elem_of_nil]; [|done].
    by rewrite bool_decide_eq_true_2.
  - assert (Hr0 : is_Throw (stringifyPublicParams c0) = false)
      by (apply Hrender; left).
    destruct (stringifyPublicParams c0) as [s0|]; [|done].
    rewrite bool_decide_eq_false_2 by (apply Hfresh; left). cbn [negb assert].
    apply NoDup_cons in Hnd as [Hc0 Hnd].
    apply IH; [done| | |by intros c' Hc'; apply Hrender; right|done].
    + intros c' Hc'. apply not_elem_of_union. split.
      * intros Heq%elem_of_singleton. apply Hc0. rewrite <- Heq.
        by apply list_elem_of_fmap_2.
      * apply Hfresh. by right.
    + destruct Hin as [Hin|[->|Hin]%elem_of_cons].
      * left. by apply elem_of_union_r.
      * left. by apply elem_of_union_l, elem_of_singleton_2.
      * by right.
Qed.

(** How the validation of a declaration can fail when the unique
    renderings of its records differ from one another. *)
Lemma validate_cases_no_repeat testPathString (cases : list CaseParams) :
  forall seen,
    NoDup (map stringifyPublicParamsUniquely cases) ->
    (forall c, c ∈ cases -> stringifyPublicParamsUniquely c ∉ seen) ->
    match TestBuilder.validate_cases testPathString cases seen with
    | Ok _ => Forall (fun c => is_Throw (stringifyPublicParams c) = false) cases
    | Throw ex =>
        exists pre c post,
          cases = pre ++ c :: post
          /\ Forall (fun c => is_Throw (stringifyPublicParams c) = false) pre
          /\ stringifyPublicParams c = Throw ex
    end.
Proof.
  induction cases as [|c0 cases IH]; intros seen Hnd Hfresh; cbn; [constructor|].
  destruct (stringifyPublicParams c0) as [s0|ex0] eqn:Es0.
  - rewrite bool_decide_eq_false_2 by (apply Hfresh; left). cbn [negb assert].
    apply NoDup_cons in Hnd as [Hc0 Hnd].
    specialize (IH ({[stringifyPublicParamsUniquely c0]} ∪ seen) Hnd).
    destruct (TestBuilder.validate_cases _ cases _) as [[]|ex].
    + constructor; [by rewrite Es0|]. apply IH.
      intros c Hc. apply not_elem_of_union. split.
      * intros Heq%elem_of_singleton. apply Hc0. rewrite <- Heq.
        by apply list_elem_of_fmap_2.
      * apply Hfresh. by right.
    + destruct IH as (pre & c & post & -> & Hpre & Hc).
      * intros c Hc. apply not_elem_of_union. split.
        -- intros Heq%elem_of_singleton. apply Hc0. rewrite <- Heq.
           by apply list_elem_of_fmap_2.
        -- apply Hfresh. by right.
      * exists (c0 :: pre), c, post. repeat split; [|done].
        constructor; [by rewrite Es0|done].
  - exists [], c0, cases. repeat split; [constructor|done].
Qed.

(** C6 (as the code has it). Take a declaration of a group, with cases
    attached.  When two of its records have the same unique rendering,
    the validation of the group fails, and there is a first record whose
    unique rendering repeats an earlier one; if no earlier declaration of
    the group fails, the declaration has a body, and that record and the
    records before it have a human-readable rendering, the failure is the
    one raised for that record, citing the test path and its
    human-readable rendering, whatever the records after it are.  When
    the unique renderings differ from one another, the declaration never
    fails for a duplicate, whatever the human-readable renderings are: it
    passes if it has a body and every record renders, and otherwise its
    failure is the missing body or the exception of the first record that
    does not render. *)
Theorem duplicate_case_params g before b after cases :
  TestGroup.tests g = before ++ b :: after ->
  TestBuilder.caseParams b = Some cases ->
  let keys := map stringifyPublicParamsUniquely cases in
  (~ NoDup keys ->
     is_Throw (TestGroup.validate g) = true
     /\ exists pre c post,
          cases = pre ++ c :: post
          /\ NoDup (map stringifyPublicParamsUniquely pre)
          /\ stringifyPublicParamsUniquely c
             ∈ map stringifyPublicParamsUniquely pre)
  /\ (forall pre c post,
       cases = pre ++ c :: post ->
       NoDup (map stringifyPublicParamsUniquely pre) ->
       stringifyPublicParamsUniquely c ∈ map stringifyPublicParamsUniquely pre ->
       TestGroup.validate_tests before = Ok tt ->
       TestBuilder.testFn b <> None ->
       (forall c', c' ∈ pre ++ [c] -> is_Throw (stringifyPublicParams c') = false) ->
       exists s,
         stringifyPublicParams c = Ok s
         /\ TestGroup.validate g =
            Throw (Error ("Duplicate public test case params for test " +:+
                          join kPathSeparator (TestBuilder.testPath b) +:+
                          ": " +:+ s)))
  /\ (NoDup keys ->
      match TestBuilder.validate b with
      | Ok _ =>
          TestBuilder.testFn b <> None
          /\ Forall (fun c => is_Throw (stringifyPublicParams c) = false) cases
      | Throw ex =>
          (TestBuilder.testFn b = None
           /\ ex = Error (TestBuilder.missing_fn_message b))
          \/ (TestBuilder.testFn b <> None
              /\ exists pre c post,
                   cases = pre ++ c :: post
                   /\ Forall (fun c => is_Throw (stringifyPublicParams c) = false) pre
                   /\ stringifyPublicParams c = Throw ex)
      end).
Proof.
  intros Htests Hcases keys. split; [|split].
  - intros Hdup. split.
    + unfold TestGroup.validate. rewrite Htests.
      apply validate_tests_fails.
      destruct (TestBuilder.validate b) as [[]|ex] eqn:Ev; [|done].
      exfalso. apply Hdup. unfold TestBuilder.validate in Ev.
      rewrite Hcases in Ev.
      destruct (assert _ _); [|done].
      by apply validate_cases_ok in Ev as [? _].
    + by apply first_repeat.
  - intros pre c post Hsplit Hnd Hin Hbefore Hfn Hrender.
    assert (Hc : is_Throw (stringifyPublicParams c) = false)
      by (apply Hrender, elem_of_app; right; by left).
    destruct (stringifyPublicParams c) as [s|] eqn:Es; [|done].
    exists s. split; [reflexivity|].
    unfold TestGroup.validate. rewrite Htests, validate_tests_app, Hbefore.
    unfold TestBuilder.validate. rewrite Hcases.
    rewrite bool_decide_eq_false_2 by done. cbn [negb assert].
    rewrite Hsplit.
    rewrite (validate_cases_first_repeat _ pre c post s ∅); try done.
    + by right.
    + intros c' Hc'. apply Hrender, elem_of_app. by left.
  - intros Hnd. unfold TestBuilder.validate. rewrite Hcases.
    destruct (decide (TestBuilder.testFn b = None)) as [Hfn|Hfn].
    + rewrite bool_decide_eq_true_2 by done. cbn [negb assert]. by left.
    + rewrite bool_decide_eq_false_2 by done. cbn [negb assert].
      pose proof (validate_cases_no_repeat
                    (join kPathSeparator (TestBuilder.testPath b)) cases ∅ Hnd
                    (fun c _ => not_elem_of_empty _)) as Hv.
      destruct (TestBuilder.validate_cases _ cases ∅) as [[]|ex]; [done|].
      by right.
Qed.

(** C7 (as the code has it). A declaration without a body makes the
    validation of its group fail.  When no earlier declaration of the
    group fails, the failure is the one raised for it: its message names
    the path of the test and, provided the [Error] made when the test was
    declared carries a non-empty [stack], cites that stack as the place
    where the test was created. *)
Theorem missing_body g before b after :
  TestGroup.tests g = before ++ b :: after ->
  TestBuilder.testFn b = None ->
  is_Throw (TestGroup.validate g) = true
  /\ (TestGroup.validate_tests before = Ok tt ->
      TestGroup.validate g =
      Throw (Error
        ("Test is missing .fn(): " +:+
         join kPathSeparator (TestBuilder.testPath b) +:+
         match stack (TestBuilder.testCreationStack b) with
         | Some (String c st) =>
             nl +:+ "-> test created at:" +:+ nl +:+ String c st
         | _ => ""
         end))).
Proof.
  intros Htests Hfn.
  assert (Hb : TestBuilder.validate b =
               Throw (Error (TestBuilder.missing_fn_message b))).
  { unfold TestBuilder.validate. rewrite Hfn.
    by rewrite bool_decide_eq_true_2. }
  unfold TestGroup.validate. rewrite Htests. split.
  - apply validate_tests_fails. by rewrite Hb.
  - intros Hbefore. rewrite validate_tests_app, Hbefore, Hb.
    unfold TestBuilder.missing_fn_message.
    destruct (stack _) as [[|c st]|];
      by rewrite ?append_assoc, ?append_nil_r.
Qed.

(** A test declared by [test] carries the [Error] made at that call. *)
Lemma test_creation_stack name g b g' :
  TestGroup.test name g = (Ok b, g') ->
  TestBuilder.testCreationStack b = new_Error ("Test created: " +:+ name)
  /\ TestBuilder.testFn b = None.
Proof.
  unfold TestGroup.test. destruct (TestGroup.checkName name g) as [[[]|ex] g1];
    [|done].
  destruct (TestGroup.check_parts _); [|done].
  by intros [= <- <-].
Qed.

(** C9. Each attachment is refused by an assertion exactly when
    something is attached already: [fn] and [unimplemented] when the
    declaration has a body, be it one given to [fn] or the synthetic one
    of [unimplemented]; [cases] when cases are attached, and then the
    iterable is not touched; [subcases] when a generator is attached.
    Otherwise the attachment is made (for [cases], unless the iterable
    itself throws), so that a second one is refused. *)
Theorem attach_at_most_once b (f : TestFn W Inst)
    (specs : CaseParams -> Iterable CaseParams)
    {C : Type} (casesIterable : C -> Iterable CaseParams * C) (c : C) :
  match TestBuilder.testFn b with
  | Some _ =>
      TestBuilder.fn f b = Throw (Error "")
      /\ TestBuilder.unimplemented b = Throw (Error "")
  | None =>
      (exists b', TestBuilder.fn f b = Ok b' /\ TestBuilder.testFn b' = Some f)
      /\ (exists b', TestBuilder.unimplemented b = Ok b'
                     /\ TestBuilder.testFn b' = Some TestBuilder.unimplemented_body)
  end
  /\ match TestBuilder.caseParams b with
     | Some _ =>
         TestBuilder.cases casesIterable b c =
           (Throw (Error "test case is already parameterized"), c)
     | None =>
         match Array_from (fst (casesIterable c)) with
         | Ok array =>
             exists b', TestBuilder.cases casesIterable b c
                        = (Ok b', snd (casesIterable c))
                        /\ TestBuilder.caseParams b' = Some array
         | Throw ex =>
             TestBuilder.cases casesIterable b c
             = (Throw ex, snd (casesIterable c))
         end
     end
  /\ match TestBuilder.subcaseParams b with
     | Some _ =>
         TestBuilder.subcases specs b =
           Throw (Error "test subcases are already parameterized")
     | None =>
         exists b', TestBuilder.subcases specs b = Ok b'
                    /\ TestBuilder.subcaseParams b' = Some specs
     end.
Proof.
  unfold TestBuilder.fn, TestBuilder.unimplemented, TestBuilder.cases,
    TestBuilder.subcases.
  repeat split.
  - destruct (TestBuilder.testFn b); cbn; [done|]. split; by eexists.
  - destruct (TestBuilder.caseParams b); cbn; [done|].
    destruct (casesIterable c) as [produced c']; cbn.
    destruct (Array_from produced); [by eexists|done].
  - destruct (TestBuilder.subcaseParams b); cbn; [done|]. by eexists.
Qed.

Lemma Array_from_yielded {A} (it : Iterable A) :
  Array_from it =
  match thrown it with Some ex => Throw ex | None => Ok (yielded it) end.
Proof.
  induction it as [|a rest IH|ex]; cbn; try reflexivity.
  rewrite IH. by destruct (thrown rest).
Qed.

(** No later method of the chain changes the attached cases. *)
Lemma methods_keep_caseParams b (f : TestFn W Inst)
    (specs : CaseParams -> Iterable CaseParams) (description : string) b' :
  TestBuilder.fn f b = Ok b' \/ TestBuilder.unimplemented b = Ok b'
  \/ TestBuilder.subcases specs b = Ok b' \/ TestBuilder.desc description b = b' ->
  TestBuilder.caseParams b' = TestBuilder.caseParams b.
Proof.
  unfold TestBuilder.fn, TestBuilder.unimplemented, TestBuilder.subcases,
    TestBuilder.desc.
  intros [Hm|[Hm|[Hm|Hm]]]; [| | |by subst b'];
    destruct (assert _ _); by simplify_eq.
Qed.











End Declarations.

(** * Declarations at work *)

Section DeclarationExamples.
#[local] Existing Instance Demo.params_utils.
#[local] Existing Instance Demo.query_utils.
#[local] Existing Instance Demo.engine.

(** The declarations used below, spelled out. *)
Example group_dup_tests :
  TestGroup.tests (Demo.group_dup Demo.engine) = [Demo.dup_with_body Demo.engine]
  /\ TestBuilder.caseParams (Demo.dup_with_body Demo.engine)
     = Some [Demo.x1; Demo.x1]
  /\ TestBuilder.testPath (Demo.dup_with_body Demo.engine) = ["dup"].
Proof. repeat split. Qed.

Example basic_declaration :
  TestBuilder.caseParams (Demo.basic Demo.engine) = Some [Demo.x1_hidden; Demo.x2]
  /\ TestBuilder.testFn (Demo.basic Demo.engine) = Some Demo.body_throw_x2
  /\ TestBuilder.subcaseParams (Demo.basic Demo.engine) = None.
Proof. repeat split. Qed.

Lemma iterate_run_cases_witness :
  TestBuilder.testFn (Demo.basic Demo.engine) = Some Demo.body_throw_x2
  /\ exists runCases,
       TestBuilder.iterate (Demo.basic Demo.engine) = Ok runCases
       /\ Forall2
            (fun params rc =>
               RunCaseSpecific.id rc =
                 {| TestCaseID.test := ["basic"];
                    TestCaseID.params := extractPublicParams params |}
               /\ RunCaseSpecific.params rc = params
               /\ RunCaseSpecific.fn rc = Demo.body_throw_x2
               /\ forall w,
                    List.filter is_new_fixture
                      (calls_of (RunCaseSpecific.run rc w))
                    = [new_fixture params]
                    /\ world_of (RunCaseSpecific.run rc w)
                       = after_trials Demo.fixture Demo.body_throw_x2 [params] w
                    /\ (@None (Demo.Params -> Iterable Demo.Params) = None ->
                        recorded (calls_of (RunCaseSpecific.run rc w)) =
                        match fst (trial Demo.fixture Demo.body_throw_x2 params w)
                        with
                        | Ok _ => [rec_start; rec_finish]
                        | Throw ex => [rec_start; rec_threw ex; rec_finish]
                        end))
            [Demo.x1_hidden; Demo.x2] runCases.
Proof.
  split; [reflexivity|].
  exact (iterate_run_cases (Demo.basic Demo.engine) Demo.body_throw_x2 eq_refl).
Defined.

(** A body that reads the parameter [_seed], which the identity leaves
    out: it finds it. *)
Example hidden_parameter_reaches_body :
  TestCaseID.params
    (RunCaseSpecific.id
       (RunCaseSpecific.new ["basic"] Demo.x1_hidden None Demo.fixture
          Demo2.body_reads_seed))
  = Demo.x1
  /\ recorded
       (calls_of
          (RunCaseSpecific.run
             (RunCaseSpecific.new ["basic"] Demo.x1_hidden None Demo.fixture
                Demo2.body_reads_seed) 0))
     = [rec_start; rec_threw (Error "seed is 7"); rec_finish].
Proof. split; reflexivity. Qed.

(** The identities leave out the parameter that is not public. *)
Example basic_identities :
  (fun rcs => map (fun rc => TestCaseID.params (RunCaseSpecific.id rc)) rcs)
    <$> match TestBuilder.iterate (Demo.basic Demo.engine) with
        | Ok rcs => Some rcs
        | Throw _ => None
        end
  = Some [Demo.x1; Demo.x2].
Proof. reflexivity. Qed.

(** The records [{x:1}], [{x:1}], [{x:''}]: the second repeats the
    first, and the third, which does not render, is not looked at.  And
    the declaration [basic], whose records differ. *)
Lemma duplicate_case_params_witness :
  ((TestGroup.tests (Demo2.group_dup_then_invalid Demo.engine)
     = [] ++ Demo2.dup_then_invalid Demo.engine :: []
    /\ TestBuilder.caseParams (Demo2.dup_then_invalid Demo.engine)
       = Some [Demo.x1; Demo.x1; [("x", "")]])
   /\ ~ NoDup (map stringifyPublicParamsUniquely [Demo.x1; Demo.x1; [("x", "")]])
   /\ is_Throw (TestGroup.validate (Demo2.group_dup_then_invalid Demo.engine)) = true
   /\ ([Demo.x1; Demo.x1; [("x", "")]] = [Demo.x1] ++ Demo.x1 :: [[("x", "")]]
       /\ NoDup (map stringifyPublicParamsUniquely [Demo.x1])
       /\ stringifyPublicParamsUniquely Demo.x1
          ∈ map stringifyPublicParamsUniquely [Demo.x1]
       /\ @TestGroup.validate_tests _ _ nat Demo.Params [] = Ok tt
       /\ TestBuilder.testFn (Demo2.dup_then_invalid Demo.engine) <> None
       /\ (forall c', c' ∈ [Demo.x1] ++ [Demo.x1] ->
                      is_Throw (stringifyPublicParams c') = false))
   /\ (exists s,
         stringifyPublicParams Demo.x1 = Ok s
         /\ TestGroup.validate (Demo2.group_dup_then_invalid Demo.engine)
            = Throw (Error ("Duplicate public test case params for test " +:+
                            "dup" +:+ ": " +:+ s))))
  /\ (NoDup (map stringifyPublicParamsUniquely [Demo.x1_hidden; Demo.x2])
      /\ TestBuilder.validate (Demo.basic Demo.engine) = Ok tt).
Proof.
  split.
  - assert (Hdup : ~ NoDup (map stringifyPublicParamsUniquely
                              [Demo.x1; Demo.x1; [("x", "")]])).
    { intros [Hn _]%NoDup_cons. apply Hn. by left. }
    assert (Hrender : forall c', c' ∈ [Demo.x1] ++ [Demo.x1] ->
                        is_Throw (stringifyPublicParams c') = false).
    { intros c' Hc'. cbn in Hc'.
      repeat (apply elem_of_cons in Hc' as [->|Hc']; [reflexivity|]).
      by apply elem_of_nil in Hc'. }
    assert (Hnd : NoDup (map stringifyPublicParamsUniquely [Demo.x1]))
      by apply NoDup_singleton.
    assert (Hin : stringifyPublicParamsUniquely Demo.x1
                  ∈ map stringifyPublicParamsUniquely [Demo.x1]) by (by left).
    destruct (duplicate_case_params (Demo2.group_dup_then_invalid Demo.engine) []
                (Demo2.dup_then_invalid Demo.engine) []
                [Demo.x1; Demo.x1; [("x", "")]] eq_refl eq_refl)
      as (Hfails & Hcites & _).
    split; [by split|]. split; [exact Hdup|].
    split; [exact (proj1 (Hfails Hdup))|].
    split; [repeat split; done|].
    exact (Hcites [Demo.x1] Demo.x1 [[("x", "")]] eq_refl Hnd Hin eq_refl
             ltac:(discriminate) Hrender).
  - assert (Hnd : NoDup (map stringifyPublicParamsUniquely [Demo.x1_hidden; Demo.x2])).
    { cbn. apply NoDup_cons. split; [|apply NoDup_singleton].
      by intros ?%list_elem_of_singleton. }
    split; [exact Hnd|].
    destruct (duplicate_case_params
                (with_test 0 (Demo.basic Demo.engine)
                   (Demo.declare Demo.engine "basic" Demo.group0))
                [] (Demo.basic Demo.engine) [] [Demo.x1_hidden; Demo.x2]
                eq_refl eq_refl) as (_ & _ & Hpass).
    specialize (Hpass Hnd).
    by destruct (TestBuilder.validate (Demo.basic Demo.engine)) as [[]|ex] eqn:Ev.
Defined.

(** The message of that failure. *)
Example scenario_B :
  TestGroup.validate (Demo.group_dup Demo.engine)
  = Throw (Error "Duplicate public test case params for test dup: x=1").
Proof. reflexivity. Qed.

(** Against C6 as stated: a declaration whose two records have the same
    unique rendering, but which has no body, fails validation with the
    message of the missing body, which cites no rendering of a record.  So
    does a group in which the declaration with the two records, complete
    with a body, comes after a declaration that has none.  And when an
    earlier record has no human-readable rendering, or the repeated record
    itself has none, the failure is the exception of the rendering. *)
Lemma duplicate_not_cited_without_body :
  (TestGroup.tests (Demo.group_dup_no_body Demo.engine_without_stack)
     = [Demo.dup_cases Demo.engine_without_stack]
   /\ TestBuilder.caseParams (Demo.dup_cases Demo.engine_without_stack)
      = Some [Demo.x1; Demo.x1]
   /\ stringifyPublicParams Demo.x1 = Ok "x=1"
   /\ @TestGroup.validate _ _ nat Demo.Params
        (Demo.group_dup_no_body Demo.engine_without_stack)
      = Throw (Error "Test is missing .fn(): dup"))
  /\ (TestGroup.tests (Demo.group_a_then_dup Demo.engine_without_stack)
      = [Demo.declaration Demo.engine_without_stack "a";
         Demo.dup_with_body Demo.engine_without_stack]
     /\ TestBuilder.caseParams (Demo.dup_with_body Demo.engine_without_stack)
        = Some [Demo.x1; Demo.x1]
     /\ @TestGroup.validate _ _ nat Demo.Params
          (Demo.group_a_then_dup Demo.engine_without_stack)
        = Throw (Error "Test is missing .fn(): a"))
  /\ (TestGroup.tests (Demo.group_dup_after_invalid Demo.engine)
      = [Demo.dup_after_invalid Demo.engine]
     /\ TestBuilder.caseParams (Demo.dup_after_invalid Demo.engine)
        = Some [[("x", "")]; Demo.x1; Demo.x1]
     /\ TestBuilder.testFn (Demo.dup_after_invalid Demo.engine)
        = Some Demo.body_pass
     /\ @TestGroup.validate _ _ nat Demo.Params
          (Demo.group_dup_after_invalid Demo.engine)
        = Throw (Error "invalid param value"))
  /\ (TestGroup.tests (Demo2.group_dup_second_invalid Demo.engine)
      = [Demo2.dup_second_invalid Demo.engine]
     /\ TestBuilder.caseParams (Demo2.dup_second_invalid Demo.engine)
        = Some [[("x", ";y=1")]; [("x", ""); ("y", "1")]]
     /\ TestBuilder.testFn (Demo2.dup_second_invalid Demo.engine)
        = Some Demo.body_pass
     /\ stringifyPublicParamsUniquely [("x", ";y=1")]
        = stringifyPublicParamsUniquely [("x", ""); ("y", "1")]
     /\ stringifyPublicParams [("x", ";y=1")] = Ok "x=;y=1"
     /\ @TestGroup.validate _ _ nat Demo.Params
          (Demo2.group_dup_second_invalid Demo.engine)
        = Throw (Error "invalid param value")).
Proof. repeat split. Qed.

Lemma missing_body_witness :
  (TestGroup.tests (Demo.declare Demo.engine "a" Demo.group0)
    = [] ++ Demo.declaration Demo.engine "a" :: []
   /\ TestBuilder.testFn (Demo.declaration Demo.engine "a") = None)
  /\ is_Throw (TestGroup.validate (Demo.declare Demo.engine "a" Demo.group0)) = true
  /\ TestGroup.validate (Demo.declare Demo.engine "a" Demo.group0)
     = Throw (Error
         ("Test is missing .fn(): a" +:+ nl +:+ "-> test created at:" +:+ nl +:+
          "Error: Test created: a" +:+ nl +:+ "    at TestGroup.test")).
Proof.
  split; [by split|].
  destruct (missing_body (Demo.declare Demo.engine "a" Demo.group0) []
              (Demo.declaration Demo.engine "a") [] eq_refl eq_refl)
    as [Hfails Hcites].
  split; [exact Hfails|]. exact (Hcites eq_refl).
Defined.

(** Against C7 as stated: when the [Error] made at the declaration has no
    [stack], the failure for a declaration without a body names the test
    and cites no place of creation.  And when an earlier declaration of
    the group fails for its cases, the failure is that one, which says
    nothing of the declaration without a body. *)
Lemma missing_body_without_origin :
  (TestGroup.tests (Demo.declare Demo.engine_without_stack "a" Demo.group0)
     = [Demo.declaration Demo.engine_without_stack "a"]
   /\ TestBuilder.testFn (Demo.declaration Demo.engine_without_stack "a") = None
   /\ @TestGroup.validate _ _ nat Demo.Params
        (Demo.declare Demo.engine_without_stack "a" Demo.group0)
      = Throw (Error "Test is missing .fn(): a"))
  /\ (TestGroup.tests (Demo.group_dup_then_a Demo.engine)
      = [Demo.dup_with_body Demo.engine; Demo.declaration Demo.engine "a"]
     /\ TestBuilder.testFn (Demo.declaration Demo.engine "a") = None
     /\ @TestGroup.validate _ _ nat Demo.Params (Demo.group_dup_then_a Demo.engine)
        = Throw (Error "Duplicate public test case params for test dup: x=1")).
Proof. repeat split. Qed.

Lemma test_declares_witness :
  reachable (Demo.declare Demo.engine "a" Demo.group0)
  /\ (exists b,
        fst (TestGroup.test "b,c" (Demo.declare Demo.engine "a" Demo.group0)) = Ok b
        /\ b = TestBuilder.new ["b"; "c"] Demo.fixture
                 (new_Error "Test created: b,c")
        /\ TestGroup.tests
             (snd (TestGroup.test "b,c" (Demo.declare Demo.engine "a" Demo.group0)))
           = [Demo.declaration Demo.engine "a"] ++ [b]
        /\ length (TestGroup.tests
             (snd (TestGroup.test "b,c" (Demo.declare Demo.engine "a" Demo.group0))))
           = 2).
Proof.
  assert (Hr : reachable (Demo.declare Demo.engine "a" Demo.group0)).
  { apply (reachable_test "a"), reachable_new. }
  split; [exact Hr|].
  exact (test_declares "b,c" (Demo.declare Demo.engine "a" Demo.group0) Hr).
Defined.

(** The three refusals of [test], on the same group. *)
Example test_refusals :
  fst (TestGroup.test "a%2Cb" (Demo.declare Demo.engine "a" Demo.group0))
    = Throw (Error "Not decodeURIComponent-idempotent: a%2Cb !== a,b")
  /\ fst (TestGroup.test "a" (Demo.declare Demo.engine "a" Demo.group0))
    = Throw (Error "Duplicate test name: a")
  /\ fst (TestGroup.test "b,c d" (Demo.declare Demo.engine "a" Demo.group0))
    = Throw (Error "Invalid test name part c d; must match /^[a-zA-Z0-9_]+$/").
Proof. repeat split. Qed.


(** The heap after the attachment, and the declaration [basic] on it:
    the new array is at the next location, the generator is used up.
    When the caller then empties its own array and gives it other
    elements, validation and expansion still find the two records, as
    often as they are called.  The records themselves are shared with the
    caller: when the caller changes the first record into a copy of the
    second, validation finds two records with the same rendering. *)
Example snapshot_at_work :
  Heap.cases 3 (Demo2.declaration0 Demo.engine) Demo2.heap0
  = (Ok (Demo2.attached Demo.engine), Demo2.heap1)
  /\ Demo2.heap1
     = [Heap.record Demo.x1_hidden; Heap.record Demo.x2; Heap.array [0; 1];
        Heap.generator iter_done; Heap.array [0; 1]]
  /\ fst (Heap.iterate_object 3 Demo2.heap1) = iter_done
  /\ (let h2 := Heap.mutate_all
                  [Heap.write_array 2 []; Heap.write_array 2 [1; 1; 1]]
                  Demo2.heap1 in
      Heap.validate (Demo2.with_body Demo.engine) h2 = (Ok tt, h2)
      /\ fst (Heap.iterate (Demo2.with_body Demo.engine) h2)
         = TestBuilder.iterate (Demo.basic Demo.engine)
      /\ snd (Heap.iterate (Demo2.with_body Demo.engine) h2) = h2)
  /\ fst (Heap.validate (Demo2.with_body Demo.engine)
            (Heap.mutate (Heap.write_record 0 Demo.x2) Demo2.heap1))
     = Throw (Error "Duplicate public test case params for test basic: x=2").
Proof. repeat split. Qed.

(** After the attachment the generator is used up: iterating it again
    yields nothing, while the declaration still expands to both cases. *)
Example generator_used_up :
  fst (Demo.the_generator
         (snd (TestBuilder.cases Demo.the_generator
                 (Demo.declaration Demo.engine "basic") Demo.caller0)))
  = iter_done
  /\ length (Demo.after (TestBuilder.iterate (Demo.basic Demo.engine)) []) = 2.
Proof. split; reflexivity. Qed.
End DeclarationExamples.

(** * Further properties of the execution protocol *)

Section MoreExecution.
Context `{ParamsUtils} {W Inst : Type}.
Implicit Types (this : RunCaseSpecific.t W Inst) (w : W) (params : CaseParams).

(** X1. [runTest] lets nothing out but the Skip signal, and that only when
    [throwSkip] is set: its result is the Skip signal of the lifecycle
    when [throwSkip] is set and the lifecycle threw one, and a normal
    return in every other case.  In particular it never throws an ordinary
    error, so that the subcase loop of [run] is never left through a
    trial. *)
Theorem runTest_only_rethrows_skip this params throwSkip w :
  let x := RunCaseSpecific.lifecycle this params w in
  result_of (RunCaseSpecific.runTest this params throwSkip w) =
    (if throwSkip && raised_skip (result_of x) then result_of x else Ok tt)
  /\ forall m,
       result_of (RunCaseSpecific.runTest this params throwSkip w) <> Throw (Error m).
Proof.
  cbv zeta. destruct throwSkip.
  - rewrite runTest_throwSkip. cbv zeta.
    destruct (result_of (RunCaseSpecific.lifecycle this params w)) as [[]|[m|m]];
      by split.
  - rewrite runTest_no_throwSkip. by split.
Qed.

(** X3. What a trial throws, once the fixture is constructed: the
    exception of [finalize] when [finalize] throws, whatever [init] and
    the body did before (a Skip signal of the body is then lost);
    otherwise the exception of [init], or else that of the body. *)
Theorem finalize_exception_wins this params w inst w1 :
  construct (RunCaseSpecific.fixture this) params w = (Ok inst, w1) ->
  let before_finalize :=
    match init (RunCaseSpecific.fixture this) inst w1 with
    | (Ok _, w2) => RunCaseSpecific.fn this inst w2
    | (Throw ex, w2) => (Throw ex, w2)
    end in
  result_of (RunCaseSpecific.lifecycle this params w) =
  match finalize (RunCaseSpecific.fixture this) inst (snd before_finalize) with
  | (Throw ex, _) => Throw ex
  | (Ok _, _) => fst before_finalize
  end.
Proof.
  intros Hnew. unfold_run. rewrite Hnew. cbn.
  case_code; cbn; rewrite ?Hfin; try reflexivity.
Qed.

(** X4. What the Recorder is told by a [run] with subcases, in order:
    [start]; for each subcase the generator yields, an info note naming it,
    followed by a debug note when its trial threw Skip and by [threw] when
    it threw something else; then, if the generator ended without
    throwing, [skipped] when all trials threw Skip, and [finish].  When
    the generator throws, its exception is the result of [run] and the
    notes stop there. *)
Theorem recorder_view_of_subcases this gen w :
  RunCaseSpecific.subParamGen this = Some gen ->
  let it := gen (RunCaseSpecific.params this) in
  let trials := subcase_trials this (yielded it) w in
  result_of (RunCaseSpecific.run this w) =
    match thrown it with Some ex => Throw ex | None => Ok tt end
  /\ recorded (calls_of (RunCaseSpecific.run this w)) =
     rec_start :: concat (zip_with subcase_notes (yielded it) trials) ++
     match thrown it with
     | Some _ => []
     | None =>
         (if forallb raised_skip trials
          then [rec_skipped (SkipTestCase "all subcases were skipped")]
          else []) ++ [rec_finish]
     end.
Proof.
  intros Hgen it trials.
  rewrite (run_subcases this gen w Hgen). fold it trials.
  destruct (for_subParams_spec this it 0 0 w) as [_ Hc]. cbv zeta in Hc.
  fold it trials in Hc.
  set (y := RunCaseSpecific.for_subParams this it 0 0 w) in *.
  destruct (thrown it) as [ex|]; cbn [result_of calls_of fst snd];
    (split; [reflexivity|]); unfold recorded at 1; cbn [List.filter is_rec];
    fold (calls_of y).
  - fold (recorded (calls_of y)). by rewrite Hc, app_nil_r.
  - rewrite List.filter_app. fold (recorded (calls_of y)). rewrite Hc.
    by destruct (forallb raised_skip trials).
Qed.

Lemma lifecycle_balanced this params w :
  count_calls is_init (calls_of (RunCaseSpecific.lifecycle this params w))
  = count_calls is_finalize (calls_of (RunCaseSpecific.lifecycle this params w)).
Proof. unfold_run. case_code; reflexivity. Qed.

Lemma count_calls_app (f : call -> bool) (t1 t2 : list call) :
  count_calls f (t1 ++ t2) = count_calls f t1 + count_calls f t2.
Proof. unfold count_calls. by rewrite List.filter_app, length_app. Qed.

Lemma count_calls_cons (f : call -> bool) (c : call) (t : list call) :
  count_calls f (c :: t) = (if f c then 1 else 0) + count_calls f t.
Proof. unfold count_calls. cbn. by destruct (f c). Qed.

Lemma for_subParams_balanced this (it : Iterable CaseParams) :
  forall totalCount skipCount w,
    count_calls is_init
      (calls_of (RunCaseSpecific.for_subParams this it totalCount skipCount w))
    = count_calls is_finalize
      (calls_of (RunCaseSpecific.for_subParams this it totalCount skipCount w)).
Proof.
  induction it as [|subParams rest IH|ex]; intros totalCount skipCount w;
    [reflexivity| |reflexivity].
  rewrite for_subParams_yield. cbv zeta. cbn [calls_of snd].
  rewrite !count_calls_app.
  fold (calls_of (RunCaseSpecific.for_subParams this rest (S totalCount)
    (if raised_skip (result_of (RunCaseSpecific.lifecycle this
          (mergeParams (RunCaseSpecific.params this) subParams) w))
     then S skipCount else skipCount)
    (world_of (RunCaseSpecific.lifecycle this
          (mergeParams (RunCaseSpecific.params this) subParams) w)))).
  rewrite IH, lifecycle_balanced.
  by destruct (result_of _) as [[]|[m|m]].
Qed.

(** One trial gives back what it took. *)
Lemma trial_balanced (F : FixtureClass W Inst) (fn : TestFn W Inst)
    (alive : W -> Z) :
  (forall params w,
     alive (snd (construct F params w))
     = (alive w + if is_Throw (fst (construct F params w)) then 0 else 1)%Z) ->
  (forall inst w, alive (snd (init F inst w)) = alive w) ->
  (forall inst w, alive (snd (fn inst w)) = alive w) ->
  (forall inst w, alive (snd (finalize F inst w)) = (alive w - 1)%Z) ->
  forall params w, alive (snd (trial F fn params w)) = alive w.
Proof.
  intros Hnew Hinit Hfn Hfin params w. unfold trial.
  specialize (Hnew params w).
  destruct (construct F params w) as [[inst|ex] w1]; cbn in *; [|lia].
  specialize (Hinit inst w1).
  assert (Hbefore : alive (snd match init F inst w1 with
                               | (Ok _, w2) => fn inst w2
                               | (Throw ex, w2) => (Throw ex, w2)
                               end) = alive w1).
  { destruct (init F inst w1) as [[[]|ex] w2]; cbn in *; [|done].
    by rewrite Hfn. }
  specialize (Hfin inst (snd match init F inst w1 with
                             | (Ok _, w2) => fn inst w2
                             | (Throw ex, w2) => (Throw ex, w2)
                             end)).
  destruct (finalize F inst _) as [[[]|ex] w3]; cbn in *; lia.
Qed.

(** X5. A run leaks no fixture.  Suppose that in the world something is
    counted that the construction of a fixture raises by one when it
    succeeds and leaves when it throws, that [finalize] lowers by one,
    and that [init] and the body leave alone.  Then every [run] leaves
    that count as it found it, with or without subcases and whatever is
    thrown, the generator's exception included: each instance that was
    constructed has had its [finalize] run, once.  In the log of the run
    [finalize] is called as many times as [init]. *)
Theorem init_finalize_balanced this w (alive : W -> Z) :
  (forall params w,
     alive (snd (construct (RunCaseSpecific.fixture this) params w))
     = (alive w +
        if is_Throw (fst (construct (RunCaseSpecific.fixture this) params w))
        then 0 else 1)%Z) ->
  (forall inst w,
     alive (snd (init (RunCaseSpecific.fixture this) inst w)) = alive w) ->
  (forall inst w, alive (snd (RunCaseSpecific.fn this inst w)) = alive w) ->
  (forall inst w,
     alive (snd (finalize (RunCaseSpecific.fixture this) inst w))
     = (alive w - 1)%Z) ->
  alive (world_of (RunCaseSpecific.run this w)) = alive w
  /\ count_calls is_init (calls_of (RunCaseSpecific.run this w))
     = count_calls is_finalize (calls_of (RunCaseSpecific.run this w)).
Proof.
  intros Hnew Hinit Hfn Hfin. split.
  - rewrite run_world. unfold after_trials.
    generalize (match RunCaseSpecific.subParamGen this with
                | Some gen =>
                    map (mergeParams (RunCaseSpecific.params this))
                      (yielded (gen (RunCaseSpecific.params this)))
                | None => [RunCaseSpecific.params this]
                end).
    intros records. revert w.
    induction records as [|params records IH]; intros w; [reflexivity|].
    cbn [fold_left]. rewrite IH.
    by apply trial_balanced.
  - destruct (RunCaseSpecific.subParamGen this) as [gen|] eqn:Egen.
    + rewrite (run_subcases this gen w Egen).
      pose proof (for_subParams_balanced this
                    (gen (RunCaseSpecific.params this)) 0 0 w) as Hy.
      set (y := RunCaseSpecific.for_subParams this _ 0 0 w) in *.
      destruct (thrown _); cbn [calls_of snd]; fold (calls_of y);
        rewrite !count_calls_cons, ?count_calls_app, Hy; [reflexivity|].
      by destruct (forallb _ _).
    + rewrite (run_no_subcases this w Egen). cbn [calls_of snd].
      fold (calls_of (RunCaseSpecific.lifecycle this (RunCaseSpecific.params this) w)).
      rewrite !count_calls_cons, !count_calls_app, lifecycle_balanced.
      by destruct (result_of _).
Qed.
End MoreExecution.

(** * Further properties of declarations and of the registry *)

Section MoreDeclarations.
Context `{ParamsUtils} `{QueryUtils} `{Engine} {W Inst : Type}.
Implicit Types (g : TestGroup.t W Inst) (b : TestBuilder.t W Inst).


Lemma validate_cases_renders testPathString (cases : list CaseParams) :
  forall seen,
    TestBuilder.validate_cases testPathString cases seen = Ok tt ->
    Forall (fun c => is_Throw (stringifyPublicParams c) = false) cases.
Proof.
  induction cases as [|c0 cases IH]; intros seen Hv; cbn in *; [constructor|].
  destruct (stringifyPublicParams c0) as [s0|] eqn:Es0; [|done].
  destruct (assert _ _); [|done].
  constructor; [by rewrite Es0|by eapply IH].
Qed.

(** X7. A declaration passes validation exactly when it has a body and,
    if cases are attached, every record has a human-readable rendering and
    the unique renderings of the records are pairwise different. *)
Theorem validate_ok_iff b :
  TestBuilder.validate b = Ok tt <->
  TestBuilder.testFn b <> None
  /\ match TestBuilder.caseParams b with
     | None => True
     | Some cases =>
         Forall (fun c => is_Throw (stringifyPublicParams c) = false) cases
         /\ NoDup (map stringifyPublicParamsUniquely cases)
     end.
Proof.
  unfold TestBuilder.validate. split.
  - destruct (decide (TestBuilder.testFn b = None)) as [Hfn|Hfn].
    + by rewrite bool_decide_eq_true_2.
    + rewrite bool_decide_eq_false_2 by done. cbn [negb assert].
      destruct (TestBuilder.caseParams b) as [cases|]; [|done].
      intros Hv. split; [done|]. split.
      * by eapply validate_cases_renders.
      * by apply validate_cases_ok in Hv as [? _].
  - intros [Hfn Hcases]. rewrite bool_decide_eq_false_2 by done.
    cbn [negb assert].
    destruct (TestBuilder.caseParams b) as [cases|]; [|done].
    destruct Hcases as [Hrender Hnd].
    destruct (validate_cases_spec
                (join kPathSeparator (TestBuilder.testPath b)) cases
                (proj1 (Forall_forall _ _) Hrender) ∅)
      as [(Hv & _)|(pre & c & post & s & -> & _ & _ & Hin & _)]; [done|].
    exfalso. destruct Hin as [?%elem_of_empty|Hin]; [done|].
    rewrite map_app in Hnd. cbn in Hnd.
    apply NoDup_app in Hnd as (_ & Hdisj & _).
    apply (Hdisj _ Hin). by left.
Qed.

(** X8. Validation guarantees expansion: a declaration that passes
    validation expands without failing, and the unique renderings of the
    parameters of its Run Cases are pairwise different. *)
Theorem validated_expands b :
  TestBuilder.validate b = Ok tt ->
  exists runCases,
    TestBuilder.iterate b = Ok runCases
    /\ NoDup (map (fun rc => stringifyPublicParamsUniquely (RunCaseSpecific.params rc))
                  runCases).
Proof.
  unfold TestBuilder.validate, TestBuilder.iterate.
  destruct (TestBuilder.testFn b) as [f|]; [|by rewrite bool_decide_eq_true_2].
  rewrite bool_decide_eq_false_2 by done. cbn [negb assert].
  intros Hv. eexists. split; [reflexivity|].
  rewrite map_map. cbn [RunCaseSpecific.new RunCaseSpecific.params].
  destruct (TestBuilder.caseParams b) as [cases|]; cbn [default].
  - by apply validate_cases_ok in Hv as [? _].
  - cbn. apply NoDup_singleton.
Qed.

(** X9. A declaration whose attached case sequence is empty expands to no
    Run Case at all (not to the single case of a declaration without
    cases), and this is the only way for an expansion to be empty; such a
    declaration passes validation, so that it is never run and never
    reported. *)
Theorem empty_cases_no_run_case b :
  (TestBuilder.iterate b = Ok [] <->
   TestBuilder.testFn b <> None /\ TestBuilder.caseParams b = Some [])
  /\ (TestBuilder.iterate b = Ok [] -> TestBuilder.validate b = Ok tt).
Proof.
  assert (Hiff : TestBuilder.iterate b = Ok [] <->
    TestBuilder.testFn b <> None /\ TestBuilder.caseParams b = Some []).
  { unfold TestBuilder.iterate. split.
    - destruct (TestBuilder.testFn b) as [f|]; [|done].
      destruct (TestBuilder.caseParams b) as [[|c cases]|]; cbn; try done.
    - intros [Hfn ->]. by destruct (TestBuilder.testFn b). }
  split; [exact Hiff|].
  intros [Hfn Hcases]%Hiff. unfold TestBuilder.validate.
  rewrite bool_decide_eq_false_2 by done. cbn [negb assert].
  by rewrite Hcases.
Qed.

(** X10. The validation of a group stops at the first declaration that
    fails: it succeeds exactly when every declaration passes, and
    otherwise its failure is that of the first failing declaration, those
    after it not being looked at. *)
Theorem group_validate_first_failure g :
  match TestGroup.validate g with
  | Ok _ => Forall (fun b => TestBuilder.validate b = Ok tt) (TestGroup.tests g)
  | Throw ex =>
      exists before b after,
        TestGroup.tests g = before ++ b :: after
        /\ Forall (fun b => TestBuilder.validate b = Ok tt) before
        /\ TestBuilder.validate b = Throw ex
  end.
Proof.
  unfold TestGroup.validate.
  induction (TestGroup.tests g) as [|b0 tests IH]; cbn; [constructor|].
  destruct (TestBuilder.validate b0) as [[]|ex] eqn:Eb0.
  - destruct (TestGroup.validate_tests tests) as [[]|ex].
    + by constructor.
    + destruct IH as (before & b & after & -> & Hbefore & Hb).
      exists (b0 :: before), b, after. repeat split; [|done].
      by constructor.
  - exists [], b0, tests. repeat split; [constructor|done].
Qed.

(** X11. In a group built through the interface no two registered tests
    have the same joined path. *)
Theorem registered_paths_distinct g :
  reachable g -> NoDup (registered g).
Proof.
  induction 1 as [fixture|name g Hg IH|i b b' g Hg IH Hi Hpath].
  - constructor.
  - destruct (reachable_seen g Hg) as [Hreg _].
    unfold TestGroup.test, TestGroup.checkName.
    destruct (decodeURIComponent name) as [decoded|ex]; [|done].
    destruct (bool_decide (name = decoded)); cbn [assert]; [|done].
    destruct (decide (name ∈ TestGroup.seen g)) as [Hin|Hnin].
    + by rewrite (bool_decide_eq_true_2 _ Hin).
    + rewrite (bool_decide_eq_false_2 _ Hnin). cbn [assert negb].
      destruct (TestGroup.check_parts (split kPathSeparator name)); [|done].
      unfold registered; cbn. rewrite map_app; cbn. rewrite join_split.
      apply NoDup_app. repeat split; [done| |apply NoDup_singleton].
      intros n Hn ->%list_elem_of_singleton. by apply Hnin, Hreg.
  - by rewrite (registered_with_test i b b' g Hi Hpath).
Qed.

(** X12. In a group built through the interface, the path of every
    registered test consists of valid parts, is what [split] gives back
    from its joined form, and its joined form is its own percent-decoding;
    unless the separator is the empty string, the path is not empty. *)
Theorem registered_paths_well_formed g :
  reachable g ->
  Forall
    (fun b =>
       let path := TestBuilder.testPath b in
       Forall (fun p => validQueryPart p = true) path
       /\ split kPathSeparator (join kPathSeparator path) = path
       /\ decodeURIComponent (join kPathSeparator path)
          = Ok (join kPathSeparator path)
       /\ (kPathSeparator <> "" -> path <> []))
    (TestGroup.tests g).
Proof.
  induction 1 as [fixture|name g Hg IH|i b b' g Hg IH Hi Hpath].
  - constructor.
  - unfold TestGroup.test, TestGroup.checkName.
    destruct (decodeURIComponent name) as [decoded|ex] eqn:Edec; [|done].
    destruct (decide (name = decoded)) as [<-|Hne];
      [|by rewrite bool_decide_eq_false_2].
    rewrite bool_decide_eq_true_2 by done. cbn [assert].
    destruct (bool_decide (name ∈ TestGroup.seen g)); cbn [assert negb]; [done|].
    destruct (check_parts_forallb (split kPathSeparator name)) as [_ Hparts].
    destruct (TestGroup.check_parts (split kPathSeparator name)); [|done].
    cbn in *. apply Forall_app. split; [done|]. constructor; [|constructor].
    cbn. rewrite join_split. repeat split; [|done|].
    + apply Forall_forall. intros p Hp.
      symmetry in Hparts. apply negb_false_iff in Hparts.
      rewrite forallb_forall in Hparts. by apply Hparts, list_elem_of_In.
    + intros Hsep. unfold split.
      destruct kPathSeparator as [|c0 sep']; [done|].
      apply split_from_not_nil.
  - cbn. apply Forall_forall. intros b0 Hb0.
    apply list_elem_of_lookup in Hb0 as [j Hj].
    destruct (decide (i = j)) as [<-|Hij].
    + rewrite list_lookup_insert_eq in Hj by (by eapply lookup_lt_Some).
      injection Hj as <-. rewrite Hpath.
      eapply (proj1 (Forall_forall _ _) IH), list_elem_of_lookup_2, Hi.
    + rewrite list_lookup_insert_ne in Hj by done.
      eapply (proj1 (Forall_forall _ _) IH), list_elem_of_lookup_2, Hj.
Qed.

(** X13. The test that [test(name)] returns renders back to [name]: its
    path joined with the separator, which is the name validation cites, is
    the name it was declared with. *)
Theorem declared_path_round_trip name g b g' :
  TestGroup.test name g = (Ok b, g') ->
  join kPathSeparator (TestBuilder.testPath b) = name
  /\ TestBuilder.validate b
     = Throw (Error ("Test is missing .fn(): " +:+ name +:+
         match captured_stack ("Test created: " +:+ name) with
         | Some (String c st) =>
             nl +:+ "-> test created at:" +:+ nl +:+ String c st
         | _ => ""
         end)).
Proof.
  unfold TestGroup.test.
  destruct (TestGroup.checkName name g) as [[[]|ex] g1]; [|done].
  destruct (TestGroup.check_parts _); [|done].
  intros [= <- <-]. cbn [TestBuilder.new TestBuilder.testPath].
  rewrite join_split. split; [reflexivity|].
  unfold TestBuilder.validate, TestBuilder.missing_fn_message. cbn.
  rewrite join_split.
  destruct (captured_stack _) as [[|c st]|];
    by rewrite ?append_assoc, ?append_nil_r.
Qed.

(** X14. A name that [test] refuses for one of its parts is remembered all
    the same: the refusal cites the first invalid part, registers no test,
    and declaring the same name again is refused as a duplicate. *)
Theorem refused_name_stays_seen name g :
  decodeURIComponent name = Ok name ->
  name ∉ TestGroup.seen g ->
  forallb validQueryPart (split kPathSeparator name) = false ->
  (exists before p after,
     split kPathSeparator name = before ++ p :: after
     /\ forallb validQueryPart before = true
     /\ validQueryPart p = false
     /\ fst (TestGroup.test name g)
        = Throw (Error ("Invalid test name part " +:+ p +:+ "; must match " +:+
                        validQueryPart_source)))
  /\ TestGroup.tests (snd (TestGroup.test name g)) = TestGroup.tests g
  /\ fst (TestGroup.test name (snd (TestGroup.test name g)))
     = Throw (Error ("Duplicate test name: " +:+ name)).
Proof.
  intros Hdec Hnin Hparts.
  assert (Hcheck : exists before p after,
     split kPathSeparator name = before ++ p :: after
     /\ forallb validQueryPart before = true
     /\ validQueryPart p = false
     /\ TestGroup.check_parts (split kPathSeparator name)
        = Throw (Error ("Invalid test name part " +:+ p +:+ "; must match " +:+
                        validQueryPart_source))).
  { clear Hdec Hnin. induction (split kPathSeparator name) as [|p0 parts IH];
      cbn in *; [done|].
    destruct (validQueryPart p0) eqn:Ep0; cbn in *.
    - destruct (IH Hparts) as (before & p & after & -> & Hb & Hp & Hc).
      exists (p0 :: before), p, after. cbn. by rewrite Ep0, Hb.
    - exists [], p0, parts. by rewrite Ep0. }
  destruct Hcheck as (before & p & after & Hsplit & Hb & Hp & Hc).
  assert (Htest : TestGroup.test name g =
    (Throw (Error ("Invalid test name part " +:+ p +:+ "; must match " +:+
                   validQueryPart_source)),
     {| TestGroup.fixture := TestGroup.fixture g;
        TestGroup.seen := {[name]} ∪ TestGroup.seen g;
        TestGroup.tests := TestGroup.tests g |})).
  { unfold TestGroup.test, TestGroup.checkName. rewrite Hdec.
    rewrite bool_decide_eq_true_2 by done. cbn [assert].
    rewrite (bool_decide_eq_false_2 _ Hnin). cbn [assert negb].
    by rewrite Hc. }
  rewrite Htest. cbn [fst snd]. split; [by exists before, p, after|].
  split; [reflexivity|].
  unfold TestGroup.test, TestGroup.checkName. rewrite Hdec.
  rewrite bool_decide_eq_true_2 by done. cbn [assert TestGroup.seen].
  rewrite bool_decide_eq_true_2; [done|].
  by apply elem_of_union_l, elem_of_singleton_2.
Qed.
End MoreDeclarations.

(** * Properties of the listing script *)

Lemma length_append (s1 s2 : string) :
  String.length (s1 +:+ s2) = String.length s1 + String.length s2.
Proof.
  induction s1 as [|c s1 IH]; [reflexivity|].
  rewrite append_cons. cbn. by rewrite IH.
Qed.

Lemma drop_chars_append (s1 s2 : string) :
  drop_chars (String.length s1) (s1 +:+ s2) = s2.
Proof. induction s1 as [|c s1 IH]; [reflexivity|]. by rewrite append_cons. Qed.

Lemma take_chars_append (s1 s2 : string) :
  GenerateListing.take_chars (String.length s1) (s1 +:+ s2) = s1.
Proof.
  induction s1 as [|c s1 IH]; [by destruct s2|].
  rewrite append_cons. cbn. by rewrite IH.
Qed.

Lemma take_drop_chars (n : nat) (s : string) :
  GenerateListing.take_chars n s +:+ drop_chars n s = s.
Proof.
  revert s; induction n as [|n IH]; intros [|c s]; cbn; try reflexivity.
  by rewrite append_cons, IH.
Qed.

Lemma endsWith_iff (suffix s : string) :
  GenerateListing.endsWith suffix s = true <-> exists p, s = p +:+ suffix.
Proof.
  unfold GenerateListing.endsWith. rewrite bool_decide_eq_true. split.
  - intros Hd.
    pose proof (take_drop_chars (String.length s - String.length suffix) s) as Ht.
    rewrite Hd in Ht. by eexists.
  - intros [p ->]. rewrite length_append.
    replace (String.length p + String.length suffix - String.length suffix)
      with (String.length p) by lia.
    apply drop_chars_append.
Qed.

Lemma substring_strips (p suffix : string) :
  GenerateListing.substring 0
    (String.length (p +:+ suffix) - String.length suffix) (p +:+ suffix) = p.
Proof.
  unfold GenerateListing.substring. rewrite length_append.
  replace (String.length p + String.length suffix - String.length suffix)
    with (String.length p) by lia.
  rewrite Nat.max_0_l, Nat.min_0_l, Nat.sub_0_r. cbn [drop_chars].
  apply take_chars_append.
Qed.

Lemma append_inj_r (s1 s2 suffix : string) :
  s1 +:+ suffix = s2 +:+ suffix -> s1 = s2.
Proof.
  intros Heq. rewrite <- (substring_strips s1 suffix), Heq.
  apply substring_strips.
Qed.

Lemma README_not_ts (d : string) :
  GenerateListing.endsWith ".ts" (d +:+ "/README.txt") = false.
Proof.
  unfold GenerateListing.endsWith. apply bool_decide_eq_false.
  rewrite length_append. cbn [String.length].
  replace (String.length d + 11 - 3) with (String.length d + 8) by lia.
  induction d as [|c d IH]; [done|]. by rewrite append_cons.
Qed.

Section Listing.
Context `{GenerateListing.Node} `{Engine}.
Import GenerateListing.

(** One step of the loop, for a file that is a test file and for one that
    is a [README.txt]. *)
Lemma stripped_ts (k : string) :
  substring 0 (String.length (k +:+ ".ts") - 3) (k +:+ ".ts") = k.
Proof. apply (substring_strips k ".ts"). Qed.

Lemma stripped_README (d : string) :
  substring 0 (String.length (d +:+ "/README.txt") - 10) (d +:+ "/README.txt")
  = d +:+ "/".
Proof.
  replace (d +:+ "/README.txt") with ((d +:+ "/") +:+ "README.txt")
    by (by rewrite append_assoc).
  apply (substring_strips (d +:+ "/") "README.txt").
Qed.

Lemma for_files_cons (e : entry) (rest : list entry) (listing : gmap string info) :
  for_files (e :: rest) listing =
  if endsWith ".ts" (stripped e) then
    for_files rest
      (set_property (substring 0 (String.length (stripped e) - 3) (stripped e))
         empty_object listing)
  else if endsWith "/README.txt" (stripped e) then
    match readFileSync (path_of e) with
    | Throw ex => Throw ex
    | Ok content =>
        for_files rest
          (set_property (substring 0 (String.length (stripped e) - 10) (stripped e))
             (with_description (trim content)) listing)
    end
  else for_files rest listing.
Proof. reflexivity. Qed.

Lemma set_property_sound key value (listing : gmap string info) k v :
  set_property key value listing !! k = Some v ->
  (k = key /\ v = value) \/ listing !! k = Some v.
Proof.
  unfold set_property. destruct (decide (key = "__proto__")); [by right|].
  destruct (decide (key = k)) as [<-|Hne].
  - rewrite lookup_insert_eq. intros [= <-]. by left.
  - rewrite lookup_insert_ne by done. by right.
Qed.

Lemma set_property_keeps key value (listing : gmap string info) k :
  is_Some (listing !! k) -> is_Some (set_property key value listing !! k).
Proof.
  unfold set_property. destruct (decide (key = "__proto__")); [done|].
  destruct (decide (key = k)) as [<-|Hne].
  - by rewrite lookup_insert_eq.
  - by rewrite lookup_insert_ne.
Qed.

Lemma set_property_here key value (listing : gmap string info) :
  key <> "__proto__" -> is_Some (set_property key value listing !! key).
Proof.
  intros Hkey. unfold set_property.
  destruct (decide (key = "__proto__")); [done|]. by rewrite lookup_insert_eq.
Qed.

Lemma set_property_proto key value (listing : gmap string info) :
  set_property key value listing !! "__proto__" = listing !! "__proto__".
Proof.
  unfold set_property. destruct (decide (key = "__proto__")); [done|].
  by rewrite lookup_insert_ne.
Qed.

(** The key of a directory ends with a slash: it is not [__proto__]. *)
Lemma dirPath_not_proto (d : string) : d +:+ "/" <> "__proto__".
Proof.
  intros Heq.
  assert (Hends : endsWith "/" (d +:+ "/") = true)
    by (apply endsWith_iff; by exists d).
  by rewrite Heq in Hends.
Qed.

(** The loop, from any listing: where the entries of the result come
    from, and which keys it is sure to hold. *)
Lemma for_files_spec (files : list entry) :
  forall acc listing,
    for_files files acc = Ok listing ->
    (forall k v, listing !! k = Some v ->
       acc !! k = Some v
       \/ exists e, e ∈ files
            /\ ((stripped e = k +:+ ".ts" /\ v = empty_object)
               \/ (exists d content,
                     stripped e = d +:+ "/README.txt" /\ k = d +:+ "/"
                     /\ readFileSync (path_of e) = Ok content
                     /\ v = with_description (trim content))))
    /\ (forall k, is_Some (acc !! k) -> is_Some (listing !! k))
    /\ (forall e, e ∈ files ->
          (forall k, stripped e = k +:+ ".ts" -> k <> "__proto__" ->
             is_Some (listing !! k))
          /\ (forall d, stripped e = d +:+ "/README.txt" ->
                is_Some (listing !! (d +:+ "/")))).
Proof.
  induction files as [|e files IH]; intros acc listing Hrun.
  - injection Hrun as <-. split; [by left|]. split; [done|].
    by intros e ?%elem_of_nil.
  - rewrite for_files_cons in Hrun.
    destruct (endsWith ".ts" (stripped e)) eqn:Ets.
    + apply endsWith_iff in Ets as [k0 Ek0]. rewrite Ek0, stripped_ts in Hrun.
      destruct (IH _ _ Hrun) as (Hsound & Hkeep & Hfiles).
      split; [|split].
      * intros k v [Hacc|(e' & He' & Hex)]%Hsound.
        -- apply set_property_sound in Hacc as [[-> ->]|Hacc]; [|by left].
           right. exists e. split; [by left|]. by left.
        -- right. exists e'. split; [by right|done].
      * intros k Hk. by apply Hkeep, set_property_keeps.
      * intros e' [->|He']%elem_of_cons; [|by apply Hfiles]. split.
        -- intros k Hk Hproto. rewrite Ek0 in Hk. apply append_inj_r in Hk as ->.
           by apply Hkeep, set_property_here.
        -- intros d Hd. rewrite Hd in Ek0.
           pose proof (README_not_ts d) as Hno.
           apply not_true_iff_false in Hno. exfalso. apply Hno.
           apply endsWith_iff. by exists k0.
    + destruct (endsWith "/README.txt" (stripped e)) eqn:Ereadme.
      * apply endsWith_iff in Ereadme as [d0 Ed0].
        rewrite Ed0, stripped_README in Hrun.
        destruct (readFileSync (path_of e)) as [content|ex] eqn:Eread; [|done].
        destruct (IH _ _ Hrun) as (Hsound & Hkeep & Hfiles).
        split; [|split].
        -- intros k v [Hacc|(e' & He' & Hex)]%Hsound.
           ++ apply set_property_sound in Hacc as [[-> ->]|Hacc]; [|by left].
              right. exists e. split; [by left|]. right. by exists d0, content.
           ++ right. exists e'. split; [by right|done].
        -- intros k Hk. by apply Hkeep, set_property_keeps.
        -- intros e' [->|He']%elem_of_cons; [|by apply Hfiles]. split.
           ++ intros k Hk _. apply not_true_iff_false in Ets. exfalso. apply Ets.
              apply endsWith_iff. by exists k.
           ++ intros d Hd. rewrite Ed0 in Hd. apply append_inj_r in Hd as ->.
              apply Hkeep, set_property_here, dirPath_not_proto.
      * destruct (IH _ _ Hrun) as (Hsound & Hkeep & Hfiles).
        split; [|split].
        -- intros k v [Hacc|(e' & He' & Hex)]%Hsound; [by left|].
           right. exists e'. split; [by right|done].
        -- done.
        -- intros e' [->|He']%elem_of_cons; [|by apply Hfiles]. split.
           ++ intros k Hk _. apply not_true_iff_false in Ets. exfalso. apply Ets.
              apply endsWith_iff. by exists k.
           ++ intros d Hd. apply not_true_iff_false in Ereadme. exfalso.
              apply Ereadme. apply endsWith_iff. by exists d.
Qed.

(** The loop never makes a property of the key [__proto__]. *)
Lemma for_files_proto (files : list entry) :
  forall acc listing,
    for_files files acc = Ok listing ->
    listing !! "__proto__" = acc !! "__proto__".
Proof.
  induction files as [|e files IH]; intros acc listing Hrun.
  - by injection Hrun as <-.
  - rewrite for_files_cons in Hrun.
    destruct (endsWith ".ts" (stripped e)).
    + by rewrite (IH _ _ Hrun), set_property_proto.
    + destruct (endsWith "/README.txt" (stripped e)); [|by apply IH].
      destruct (readFileSync (path_of e)) as [content|ex]; [|done].
      by rewrite (IH _ _ Hrun), set_property_proto.
Qed.

(** Why the loop fails: only for a [README.txt] that cannot be read, the
    first of them. *)
Lemma for_files_throws (files : list entry) :
  forall acc ex,
    for_files files acc = Throw ex ->
    exists before e after d,
      files = before ++ e :: after
      /\ stripped e = d +:+ "/README.txt"
      /\ readFileSync (path_of e) = Throw ex
      /\ Forall (fun e' => forall d', stripped e' = d' +:+ "/README.txt" ->
                   is_Throw (readFileSync (path_of e')) = false) before.
Proof.
  induction files as [|e files IH]; intros acc ex Hrun; [done|].
  rewrite for_files_cons in Hrun.
  assert (Hrest : forall acc',
    for_files files acc' = Throw ex ->
    (forall d', stripped e = d' +:+ "/README.txt" ->
       is_Throw (readFileSync (path_of e)) = false) ->
    exists before e0 after d,
      e :: files = before ++ e0 :: after
      /\ stripped e0 = d +:+ "/README.txt"
      /\ readFileSync (path_of e0) = Throw ex
      /\ Forall (fun e' => forall d', stripped e' = d' +:+ "/README.txt" ->
                   is_Throw (readFileSync (path_of e')) = false) before).
  { intros acc' Hrun' He.
    destruct (IH _ _ Hrun') as (before & e0 & after & d & -> & Hd & Hread & Hbefore).
    exists (e :: before), e0, after, d. repeat split; [done|done|].
    by constructor. }
  destruct (endsWith ".ts" (stripped e)) eqn:Ets.
  { eapply Hrest; [done|]. intros d' Hd'. exfalso.
    pose proof (README_not_ts d') as Hno. by rewrite <- Hd', Ets in Hno. }
  destruct (endsWith "/README.txt" (stripped e)) eqn:Ereadme.
  - destruct (readFileSync (path_of e)) as [content|ex'] eqn:Eread.
    + by eapply Hrest.
    + injection Hrun as ->. apply endsWith_iff in Ereadme as [d Hd].
      exists [], e, files, d. repeat split; [done|done|constructor].
  - eapply Hrest; [done|]. intros d' Hd'. exfalso.
    apply not_true_iff_false in Ereadme. apply Ereadme.
    apply endsWith_iff. by exists d'.
Qed.

(** X15. When the script gets as far as the listing, every entry of it
    comes from a file of the glob: a key with the value [{}] from a file
    whose path, without the prefix, is the key followed by [.ts]; a key
    with a description from a file whose path, without the prefix, is a
    directory path followed by [/README.txt], and then the key is that
    directory path with the slash kept at the end, and the description
    the trimmed text of the file.  Conversely every file of these two
    kinds has its key in the listing, but for [__proto__.ts]: the listing
    never has the key [__proto__].  A file of any other path gives no
    entry, the [README.txt] that lies in [src/] itself among them, whose
    path without the prefix does not end in [/README.txt]. *)
Theorem listing_entries files listing :
  existsSync prefix = true ->
  fg_async (prefix +:+ "**/*") = Ok files ->
  main = Ok listing ->
  (forall k v, listing !! k = Some v ->
     exists e, e ∈ files
       /\ ((stripped e = k +:+ ".ts" /\ v = empty_object)
          \/ (exists d content,
                stripped e = d +:+ "/README.txt" /\ k = d +:+ "/"
                /\ readFileSync (path_of e) = Ok content
                /\ v = with_description (trim content))))
  /\ (forall e, e ∈ files ->
        (forall k, stripped e = k +:+ ".ts" -> k <> "__proto__" ->
           is_Some (listing !! k))
        /\ (forall d, stripped e = d +:+ "/README.txt" ->
              is_Some (listing !! (d +:+ "/"))))
  /\ listing !! "__proto__" = None.
Proof.
  unfold main. intros -> -> Hrun. cbn in Hrun.
  destruct (for_files_spec files ∅ listing Hrun) as (Hsound & _ & Hfiles).
  split; [|split; [exact Hfiles|]].
  - intros k v [Hacc|Hex]%Hsound; [|done]. by rewrite lookup_empty in Hacc.
  - by rewrite (for_files_proto files ∅ listing Hrun), lookup_empty.
Qed.

(** X16. How the script ends.  It writes [listing.json] exactly when the
    listing was built and the write gives no error.  Otherwise it fails,
    in one of four ways: the directory [src/] does not exist, and then
    the error is [Must be run from cts/] whatever the glob and the files
    are; the glob fails; a file of the glob whose path ends in
    [/README.txt] cannot be read, the first such file in the order of the
    glob, no file of another name ever being the cause; or the listing
    was built and the write fails, the callback throwing its error.  In
    the first three the write is not asked for. *)
Theorem listing_failure :
  match script with
  | written listing => main = Ok listing /\ writeFile "listing.json" = None
  | write_failed listing err =>
      main = Ok listing /\ writeFile "listing.json" = Some err
  | rejected ex =>
      main = Throw ex
      /\ ((existsSync prefix = false /\ ex = Error "Must be run from cts/")
          \/ (existsSync prefix = true /\ fg_async (prefix +:+ "**/*") = Throw ex)
          \/ (existsSync prefix = true
              /\ exists before e after d,
                   fg_async (prefix +:+ "**/*") = Ok (before ++ e :: after)
                   /\ stripped e = d +:+ "/README.txt"
                   /\ readFileSync (path_of e) = Throw ex
                   /\ Forall (fun e' =>
                                forall d', stripped e' = d' +:+ "/README.txt" ->
                                is_Throw (readFileSync (path_of e')) = false)
                             before))
  end
  /\ (existsSync prefix = false ->
      script = rejected (Error "Must be run from cts/")).
Proof.
  unfold script, main. split.
  - destruct (existsSync prefix); cbn [negb].
    + destruct (fg_async (prefix +:+ "**/*")) as [files|ex'] eqn:Eglob.
      * destruct (for_files files ∅) as [listing|ex] eqn:Erun.
        -- by destruct (writeFile "listing.json").
        -- split; [reflexivity|].
           apply for_files_throws in Erun
             as (before & e & after & d & -> & Hd & Hread & Hbefore).
           right; right. split; [done|]. by exists before, e, after, d.
      * split; [reflexivity|]. right; left. by split.
    + split; [reflexivity|]. by left.
  - by intros ->.
Qed.
End Listing.

(** The loop reads no file but the [README.txt] files it meets. *)
Lemma for_files_reads `{Engine} (node1 node2 : GenerateListing.Node)
    (files : list GenerateListing.entry) :
  (forall e d, e ∈ files ->
     GenerateListing.stripped e = d +:+ "/README.txt" ->
     @GenerateListing.readFileSync node1 (GenerateListing.path_of e)
     = @GenerateListing.readFileSync node2 (GenerateListing.path_of e)) ->
  forall acc,
    @GenerateListing.for_files node1 _ files acc
    = @GenerateListing.for_files node2 _ files acc.
Proof.
  induction files as [|e files IH]; intros Hread acc; [reflexivity|].
  rewrite !for_files_cons.
  assert (Hrest : forall acc',
    @GenerateListing.for_files node1 _ files acc'
    = @GenerateListing.for_files node2 _ files acc').
  { apply IH. intros e' d He'. apply Hread. by right. }
  destruct (GenerateListing.endsWith ".ts" (GenerateListing.stripped e));
    [apply Hrest|].
  destruct (GenerateListing.endsWith "/README.txt" (GenerateListing.stripped e))
    eqn:Ereadme; [|apply Hrest].
  apply endsWith_iff in Ereadme as [d Hd].
  rewrite (Hread e d) by (done || by left).
  destruct (@GenerateListing.readFileSync node2 (GenerateListing.path_of e));
    [apply Hrest|reflexivity].
Qed.

(** X17. The listing depends on the file system only through the glob and
    the texts of the [README.txt] files of the glob: two file systems
    that agree on the existence of [src/], on the glob and on the reading
    of those files give the same result, whatever else they hold; no
    [.ts] file is ever read. *)
Theorem listing_reads_only_READMEs `{Engine} (node1 node2 : GenerateListing.Node)
    (files : list GenerateListing.entry) :
  @GenerateListing.existsSync node1 GenerateListing.prefix
  = @GenerateListing.existsSync node2 GenerateListing.prefix ->
  @GenerateListing.fg_async node1 (GenerateListing.prefix +:+ "**/*") = Ok files ->
  @GenerateListing.fg_async node2 (GenerateListing.prefix +:+ "**/*") = Ok files ->
  (forall e d, e ∈ files ->
     GenerateListing.stripped e = d +:+ "/README.txt" ->
     @GenerateListing.readFileSync node1 (GenerateListing.path_of e)
     = @GenerateListing.readFileSync node2 (GenerateListing.path_of e)) ->
  @GenerateListing.main node1 _ = @GenerateListing.main node2 _.
Proof.
  intros Hexists Hglob1 Hglob2 Hread. unfold GenerateListing.main.
  rewrite Hexists, Hglob1, Hglob2.
  destruct (@GenerateListing.existsSync node2 GenerateListing.prefix);
    [|reflexivity].
  by apply for_files_reads.
Qed.

(** * Properties of the test files *)

Section SpecFilesLoad.
Context `{ParamsUtils} `{QueryUtils} `{Engine} {W Inst : Type}.
Import SpecFiles.
Implicit Types (g : TestGroup.t W Inst) (b : TestBuilder.t W Inst).

(** [test] on a name that is fresh and well formed. *)
Lemma test_fresh name g :
  decodeURIComponent name = Ok name ->
  name ∉ TestGroup.seen g ->
  forallb validQueryPart (split kPathSeparator name) = true ->
  TestGroup.test name g =
  (Ok (TestBuilder.new (split kPathSeparator name) (TestGroup.fixture g)
         (new_Error ("Test created: " +:+ name))),
   {| TestGroup.fixture := TestGroup.fixture g;
      TestGroup.seen := {[name]} ∪ TestGroup.seen g;
      TestGroup.tests :=
        TestGroup.tests g ++
        [TestBuilder.new (split kPathSeparator name) (TestGroup.fixture g)
           (new_Error ("Test created: " +:+ name))] |}).
Proof.
  intros Hdec Hnin Hparts. unfold TestGroup.test, TestGroup.checkName.
  rewrite Hdec. rewrite bool_decide_eq_true_2 by done. cbn [assert].
  rewrite (bool_decide_eq_false_2 _ Hnin). cbn [assert negb].
  destruct (check_parts_forallb (split kPathSeparator name)) as [Hok _].
  rewrite Hparts in Hok. by rewrite Hok.
Qed.

(** A method that succeeds, called on the builder pushed last. *)
Lemma then_call_last method b b' fixture seen tests :
  method b = Ok b' ->
  then_call method
    (Ok b, {| TestGroup.fixture := fixture; TestGroup.seen := seen;
              TestGroup.tests := tests ++ [b] |})
  = (Ok b', {| TestGroup.fixture := fixture; TestGroup.seen := seen;
               TestGroup.tests := tests ++ [b'] |}).
Proof.
  intros Hm. unfold then_call, with_test. rewrite Hm. cbn.
  rewrite length_app. cbn.
  replace (length tests + 1 - 1) with (length tests + 0) by lia.
  by rewrite insert_app_r.
Qed.

(** The chain [g.test(name).desc(description).fn(f)]. *)
Lemma desc_fn_chain name description (f : TestFn W Inst) g :
  decodeURIComponent name = Ok name ->
  name ∉ TestGroup.seen g ->
  forallb validQueryPart (split kPathSeparator name) = true ->
  then_call (TestBuilder.fn f)
    (then_call (desc_call description) (TestGroup.test name g))
  = (Ok (TestBuilder.set_testFn
           (TestBuilder.desc description
              (TestBuilder.new (split kPathSeparator name) (TestGroup.fixture g)
                 (new_Error ("Test created: " +:+ name)))) f),
     {| TestGroup.fixture := TestGroup.fixture g;
        TestGroup.seen := {[name]} ∪ TestGroup.seen g;
        TestGroup.tests :=
          TestGroup.tests g ++
          [TestBuilder.set_testFn
             (TestBuilder.desc description
                (TestBuilder.new (split kPathSeparator name) (TestGroup.fixture g)
                   (new_Error ("Test created: " +:+ name)))) f] |}).
Proof.
  intros Hdec Hnin Hparts. rewrite (test_fresh name g Hdec Hnin Hparts).
  rewrite (then_call_last (desc_call description) _ _ _ _ _ eq_refl).
  apply then_call_last. unfold TestBuilder.fn. cbn [TestBuilder.desc
    TestBuilder.set_description TestBuilder.new TestBuilder.testFn].
  by rewrite bool_decide_eq_true_2.
Qed.

(** The chain [g.test(name).params(it).fn(f)], for an iterable that does
    not throw. *)
Lemma params_fn_chain name (it : Iterable CaseParams) (f : TestFn W Inst) g :
  decodeURIComponent name = Ok name ->
  name ∉ TestGroup.seen g ->
  forallb validQueryPart (split kPathSeparator name) = true ->
  thrown it = None ->
  then_call (TestBuilder.fn f)
    (then_call (params_call it) (TestGroup.test name g))
  = (Ok (TestBuilder.set_testFn
           (TestBuilder.set_caseParams
              (TestBuilder.new (split kPathSeparator name) (TestGroup.fixture g)
                 (new_Error ("Test created: " +:+ name))) (yielded it)) f),
     {| TestGroup.fixture := TestGroup.fixture g;
        TestGroup.seen := {[name]} ∪ TestGroup.seen g;
        TestGroup.tests :=
          TestGroup.tests g ++
          [TestBuilder.set_testFn
             (TestBuilder.set_caseParams
                (TestBuilder.new (split kPathSeparator name) (TestGroup.fixture g)
                   (new_Error ("Test created: " +:+ name))) (yielded it)) f] |}).
Proof.
  intros Hdec Hnin Hparts Hit. rewrite (test_fresh name g Hdec Hnin Hparts).
  rewrite (then_call_last (params_call it) _
             (TestBuilder.set_caseParams
                (TestBuilder.new (split kPathSeparator name) (TestGroup.fixture g)
                   (new_Error ("Test created: " +:+ name))) (yielded it))).
  - apply then_call_last. unfold TestBuilder.fn. cbn [TestBuilder.set_caseParams
      TestBuilder.new TestBuilder.testFn].
    by rewrite bool_decide_eq_true_2.
  - unfold params_call, TestBuilder.params, TestBuilder.cases.
    cbn [TestBuilder.new TestBuilder.caseParams].
    rewrite bool_decide_eq_true_2 by done. cbn [assert].
    by rewrite Array_from_yielded, Hit.
Qed.

(** Cases that all render, with different unique renderings, pass the
    loop of [validate]. *)
Lemma validate_cases_distinct testPathString (cases : list CaseParams) :
  Forall (fun c => is_Throw (stringifyPublicParams c) = false) cases ->
  NoDup (map stringifyPublicParamsUniquely cases) ->
  TestBuilder.validate_cases testPathString cases ∅ = Ok tt.
Proof.
  intros Hrender Hnd.
  destruct (validate_cases_spec testPathString cases
              (proj1 (Forall_forall _ _) Hrender) ∅)
    as [(Hv & _)|(pre & c & post & s & -> & _ & _ & Hin & _)]; [done|].
  exfalso. destruct Hin as [?%elem_of_empty|Hin]; [done|].
  rewrite map_app in Hnd. cbn in Hnd.
  apply NoDup_app in Hnd as (_ & Hdisj & _).
  apply (Hdisj _ Hin). by left.
Qed.

(** X18. Loading [basic.spec.js] throws nothing, provided that its two
    test names are their own percent-decoding and have valid parts (which
    depends on the separator and on the rule for parts alone): the group
    then holds the tests [trivial] and [nonsense], in this order, with
    their trimmed descriptions, it passes validation, and each test
    expands to exactly one Run Case, with the empty parameter record, no
    subcases and the fixture of the file. *)
Theorem basic_spec_loads (ShaderValidationTest : FixtureClass W Inst)
    (expectCompileResult : bool + string -> string -> Inst -> Effect W unit) :
  Forall (fun name =>
            decodeURIComponent name = Ok name
            /\ forallb validQueryPart (split kPathSeparator name) = true)
         ["trivial"; "nonsense"] ->
  exists g,
    basic_spec ShaderValidationTest expectCompileResult = (Ok tt, g)
    /\ registered g = ["trivial"; "nonsense"]
    /\ map TestBuilder.description (TestGroup.tests g)
       = [Some (trim "A trivial correct and incorrect shader.");
          Some (trim "Pass short nonsense strings as WGSL.")]
    /\ TestGroup.validate g = Ok tt
    /\ Forall
         (fun b => exists rc,
            TestBuilder.iterate b = Ok [rc]
            /\ RunCaseSpecific.params rc = empty_params
            /\ RunCaseSpecific.subParamGen rc = None
            /\ RunCaseSpecific.fixture rc = ShaderValidationTest)
         (TestGroup.tests g).
Proof.
  intros Hnames.
  apply Forall_cons in Hnames as [[Hd1 Hp1] Hnames].
  apply Forall_cons in Hnames as [[Hd2 Hp2] _].
  unfold basic_spec. cbv zeta.
  rewrite desc_fn_chain; [|done|apply not_elem_of_empty|done].
  cbn [statement].
  rewrite desc_fn_chain; [|done| |done].
  2:{ cbn. rewrite elem_of_union, elem_of_singleton.
      by intros [?|?%elem_of_empty]. }
  cbn [statement]. eexists. split; [reflexivity|].
  unfold registered. cbn. rewrite !join_split.
  repeat split.
  repeat constructor; eexists; by repeat split.
Qed.

(** X19. Loading [debug.spec.ts] throws nothing, provided that its four
    test names are their own percent-decoding and have valid parts and
    that neither iterable of parameters throws: the group then holds the
    four tests in the order of the file, and each expands to one Run Case
    per record of its iterable, in order, the three tests on markers and
    empty strings sharing the records of [encoderTypes].  If moreover the
    records of each iterable render and have different unique renderings,
    the group passes validation. *)
Theorem debug_spec_loads (F : FixtureClass W Inst)
    (combined encoderTypes : Iterable CaseParams)
    (f1 f2 f3 f4 : TestFn W Inst) :
  Forall (fun name =>
            decodeURIComponent name = Ok name
            /\ forallb validQueryPart (split kPathSeparator name) = true)
         ["debug_group_balanced"; "debug_group_empty_string";
          "debug_marker_empty_string"; "debug_marker_non_empty_string"] ->
  thrown combined = None ->
  thrown encoderTypes = None ->
  exists g,
    debug_spec F combined encoderTypes f1 f2 f3 f4 = (Ok tt, g)
    /\ registered g
       = ["debug_group_balanced"; "debug_group_empty_string";
          "debug_marker_empty_string"; "debug_marker_non_empty_string"]
    /\ Forall2
         (fun b cases => exists runCases,
            TestBuilder.iterate b = Ok runCases
            /\ map RunCaseSpecific.params runCases = cases
            /\ Forall (fun rc => RunCaseSpecific.subParamGen rc = None) runCases)
         (TestGroup.tests g)
         [yielded combined; yielded encoderTypes; yielded encoderTypes;
          yielded encoderTypes]
    /\ (Forall (fun c => is_Throw (stringifyPublicParams c) = false)
          (yielded combined ++ yielded encoderTypes) ->
        NoDup (map stringifyPublicParamsUniquely (yielded combined)) ->
        NoDup (map stringifyPublicParamsUniquely (yielded encoderTypes)) ->
        TestGroup.validate g = Ok tt).
Proof.
  intros Hnames Hc He.
  apply Forall_cons in Hnames as [[Hd1 Hp1] Hnames].
  apply Forall_cons in Hnames as [[Hd2 Hp2] Hnames].
  apply Forall_cons in Hnames as [[Hd3 Hp3] Hnames].
  apply Forall_cons in Hnames as [[Hd4 Hp4] _].
  unfold debug_spec. cbv zeta.
  rewrite params_fn_chain; [|done|apply not_elem_of_empty|done|done].
  cbn [statement].
  rewrite params_fn_chain; [|done| |done|done].
  2:{ cbn. rewrite !elem_of_union, !elem_of_singleton.
      by intros [?|?%elem_of_empty]. }
  cbn [statement].
  rewrite params_fn_chain; [|done| |done|done].
  2:{ cbn. rewrite !elem_of_union, !elem_of_singleton.
      by intros [?|[?|?%elem_of_empty]]. }
  cbn [statement].
  rewrite params_fn_chain; [|done| |done|done].
  2:{ cbn. rewrite !elem_of_union, !elem_of_singleton.
      by intros [?|[?|[?|?%elem_of_empty]]]. }
  cbn [statement]. eexists. split; [reflexivity|].
  unfold registered. cbn. rewrite !join_split.
  split; [reflexivity|]. split.
  - repeat constructor; eexists; (split; [reflexivity|]);
      rewrite map_map; cbn; (split; [apply map_id|]);
      apply Forall_forall; by intros rc (c & -> & _)%list_elem_of_fmap.
  - intros [Hrc Hre]%Forall_app Hndc Hnde.
    unfold TestGroup.validate. cbn.
    by rewrite !validate_cases_distinct.
Qed.
End SpecFilesLoad.

(** * The further properties at work *)

Section MoreExamples.
#[local] Existing Instance Demo.params_utils.
#[local] Existing Instance Demo.query_utils.
#[local] Existing Instance Demo.engine.

(** A body that asks to be skipped, on a fixture whose [finalize] throws:
    the Skip signal is lost. *)
Lemma finalize_exception_wins_witness :
  construct Demo2.fixture_bad_finalize [] 0 = (Ok [], 1)
  /\ result_of
       (RunCaseSpecific.lifecycle
          (RunCaseSpecific.new ["t"] [] None Demo2.fixture_bad_finalize
             Demo.body_skip) [] 0)
     = Throw (Error "finalize failed").
Proof.
  split; [reflexivity|].
  exact (finalize_exception_wins
           (RunCaseSpecific.new ["t"] [] None Demo2.fixture_bad_finalize
              Demo.body_skip) [] 0 [] 1 eq_refl).
Defined.

(** A run from a world with two instances alive, with a generator that
    yields the subcase [{s:1}], which the body skips, and then throws. *)
Lemma init_finalize_balanced_witness :
  world_of (RunCaseSpecific.run Demo2.counting_case 2%Z) = 2%Z
  /\ count_calls is_init (calls_of (RunCaseSpecific.run Demo2.counting_case 2%Z))
     = count_calls is_finalize
         (calls_of (RunCaseSpecific.run Demo2.counting_case 2%Z)).
Proof.
  apply (init_finalize_balanced Demo2.counting_case 2%Z (fun w => w)).
  - intros params w. cbn. destruct (3 <=? w)%Z; cbn; lia.
  - done.
  - intros inst w. cbn. unfold Demo2.body_skip_s1. by destruct (decide _).
  - done.
Defined.

(** The subcases [{s:1}] and [{s:2}], the first of which is skipped. *)
Lemma recorder_view_of_subcases_witness :
  RunCaseSpecific.subParamGen
    (Demo.run_case [] (Some Demo.two_subcases) Demo.body_skip_s1)
  = Some Demo.two_subcases
  /\ result_of (RunCaseSpecific.run
       (Demo.run_case [] (Some Demo.two_subcases) Demo.body_skip_s1) 0) = Ok tt
  /\ recorded (calls_of (RunCaseSpecific.run
       (Demo.run_case [] (Some Demo.two_subcases) Demo.body_skip_s1) 0))
     = [rec_start;
        rec_info (Error "subcase: s=1");
        rec_debug (SkipTestCase "subcase skipped: s is 1");
        rec_info (Error "subcase: s=2");
        rec_finish].
Proof.
  split; [reflexivity|].
  exact (recorder_view_of_subcases
           (Demo.run_case [] (Some Demo.two_subcases) Demo.body_skip_s1)
           Demo.two_subcases 0 eq_refl).
Defined.


(** The declaration [basic], with the cases [{x:1, _seed:7}] and [{x:2}]. *)
Lemma validated_expands_witness :
  TestBuilder.validate (Demo.basic Demo.engine) = Ok tt
  /\ exists runCases,
       TestBuilder.iterate (Demo.basic Demo.engine) = Ok runCases
       /\ NoDup (map (fun rc =>
                        stringifyPublicParamsUniquely (RunCaseSpecific.params rc))
                     runCases).
Proof.
  split; [reflexivity|].
  exact (validated_expands (Demo.basic Demo.engine) eq_refl).
Defined.

Lemma reachable_a_then_dup : reachable (Demo.group_a_then_dup Demo.engine).
Proof.
  eapply (reachable_method 1 (Demo.declaration Demo.engine "dup")).
  - apply (reachable_test "dup"), (reachable_test "a"), reachable_new.
  - reflexivity.
  - reflexivity.
Qed.

(** The group with the tests [a] and [dup]. *)
Lemma registered_paths_distinct_witness :
  reachable (Demo.group_a_then_dup Demo.engine)
  /\ NoDup ["a"; "dup"].
Proof.
  split; [exact reachable_a_then_dup|].
  exact (registered_paths_distinct (Demo.group_a_then_dup Demo.engine)
           reachable_a_then_dup).
Defined.

Lemma registered_paths_well_formed_witness :
  reachable (Demo.group_a_then_dup Demo.engine)
  /\ Forall
       (fun b =>
          let path := TestBuilder.testPath b in
          Forall (fun p => validQueryPart p = true) path
          /\ split kPathSeparator (join kPathSeparator path) = path
          /\ decodeURIComponent (join kPathSeparator path)
             = Ok (join kPathSeparator path)
          /\ (kPathSeparator <> "" -> path <> []))
       (TestGroup.tests (Demo.group_a_then_dup Demo.engine)).
Proof.
  split; [exact reachable_a_then_dup|].
  exact (registered_paths_well_formed (Demo.group_a_then_dup Demo.engine)
           reachable_a_then_dup).
Defined.

(** [g.test('b,c')], in the group that holds [a]. *)
Lemma declared_path_round_trip_witness :
  TestGroup.test "b,c" (Demo.declare Demo.engine "a" Demo.group0)
  = (Ok (Demo.declaration Demo.engine "b,c"),
     Demo.declare Demo.engine "b,c" (Demo.declare Demo.engine "a" Demo.group0))
  /\ join "," (TestBuilder.testPath (Demo.declaration Demo.engine "b,c")) = "b,c"
  /\ TestBuilder.validate (Demo.declaration Demo.engine "b,c")
     = Throw (Error ("Test is missing .fn(): b,c" +:+ nl +:+
                     "-> test created at:" +:+ nl +:+
                     "Error: Test created: b,c" +:+ nl +:+
                     "    at TestGroup.test")).
Proof.
  split; [reflexivity|].
  exact (declared_path_round_trip "b,c"
           (Demo.declare Demo.engine "a" Demo.group0)
           (Demo.declaration Demo.engine "b,c")
           (Demo.declare Demo.engine "b,c" (Demo.declare Demo.engine "a" Demo.group0))
           eq_refl).
Defined.

(** [g.test('a,b c')]: the part [b c] is not valid. *)
Lemma refused_name_stays_seen_witness :
  decodeURIComponent "a,b c" = Ok "a,b c"
  /\ ("a,b c" ∉ TestGroup.seen Demo.group0)
  /\ forallb validQueryPart (split kPathSeparator "a,b c") = false
  /\ (exists before p after,
        split kPathSeparator "a,b c" = before ++ p :: after
        /\ forallb validQueryPart before = true
        /\ validQueryPart p = false
        /\ fst (TestGroup.test "a,b c" Demo.group0)
           = Throw (Error ("Invalid test name part " +:+ p +:+ "; must match " +:+
                           validQueryPart_source)))
  /\ TestGroup.tests (snd (TestGroup.test "a,b c" Demo.group0)) = []
  /\ fst (TestGroup.test "a,b c" (snd (TestGroup.test "a,b c" Demo.group0)))
     = Throw (Error "Duplicate test name: a,b c").
Proof.
  split; [reflexivity|]. split; [apply not_elem_of_empty|].
  split; [reflexivity|].
  exact (refused_name_stays_seen "a,b c" Demo.group0 eq_refl
           (not_elem_of_empty "a,b c") eq_refl).
Defined.
End MoreExamples.

Section ListingExamples.
#[local] Existing Instance Demo.engine.
Import GenerateListing.

(** The listing of the directory of [Demo3.node]. *)
Example listing_of_node :
  @main Demo3.node _
  = Ok (<["a/" := with_description "About a."]>
          (<["a/b.spec" := empty_object]> ∅)).
Proof. vm_compute. reflexivity. Qed.

Lemma listing_entries_witness :
  @existsSync Demo3.node prefix = true
  /\ @fg_async Demo3.node (prefix +:+ "**/*")
     = Ok [entry_string "src/a/b.spec.ts"; entry_object "src/a/README.txt";
           entry_string "src/a/notes.md"; entry_string "src/__proto__.ts"]
  /\ @main Demo3.node _
     = Ok (<["a/" := with_description "About a."]>
             (<["a/b.spec" := empty_object]> ∅))
  /\ (<["a/" := with_description "About a."]>
        (<["a/b.spec" := empty_object]> (∅ : gmap string info))) !! "__proto__"
     = None.
Proof.
  split; [reflexivity|]. split; [reflexivity|].
  split; [exact listing_of_node|].
  exact (proj2 (proj2
    (@listing_entries Demo3.node _
       [entry_string "src/a/b.spec.ts"; entry_object "src/a/README.txt";
        entry_string "src/a/notes.md"; entry_string "src/__proto__.ts"]
       (<["a/" := with_description "About a."]>
          (<["a/b.spec" := empty_object]> ∅))
       eq_refl eq_refl listing_of_node))).
Defined.

(** The four failures, and the [README.txt] of [src/] itself, which is
    not listed. *)
Example script_failures :
  @script Demo3.node_elsewhere _ = rejected (Error "Must be run from cts/")
  /\ @script Demo3.node_no_README _ = rejected (Error "EACCES: permission denied")
  /\ @script Demo3.node_read_only _
     = write_failed (<["a/" := with_description "About a."]>
                       (<["a/b.spec" := empty_object]> ∅))
         (Error "EROFS: read-only file system")
  /\ @script Demo3.node _
     = written (<["a/" := with_description "About a."]>
                  (<["a/b.spec" := empty_object]> ∅))
  /\ @script Demo3.node_top_README _ = written ∅.
Proof. vm_compute. repeat split. Qed.

(** The directory where only the [README.txt] can be read gives the same
    listing. *)
Lemma listing_reads_only_READMEs_witness :
  @main Demo3.node _ = @main Demo3.node_unreadable _.
Proof.
  apply (listing_reads_only_READMEs Demo3.node Demo3.node_unreadable
           [entry_string "src/a/b.spec.ts"; entry_object "src/a/README.txt";
            entry_string "src/a/notes.md"; entry_string "src/__proto__.ts"]);
    [reflexivity|reflexivity|reflexivity|].
  intros e d He Hd.
  assert (Hends : endsWith "/README.txt" (stripped e) = true)
    by (apply endsWith_iff; by exists d).
  clear Hd.
  repeat (apply elem_of_cons in He as [->|He]); try reflexivity;
    try (by apply elem_of_nil in He); by vm_compute in Hends.
Defined.
End ListingExamples.

Section SpecFilesExamples.
#[local] Existing Instance Demo.params_utils.
#[local] Existing Instance Demo.query_utils.
#[local] Existing Instance Demo.engine.
Import SpecFiles.

Lemma basic_spec_loads_witness :
  Forall (fun name =>
            decodeURIComponent name = Ok name
            /\ forallb validQueryPart (split kPathSeparator name) = true)
         ["trivial"; "nonsense"]
  /\ exists g,
       basic_spec Demo.fixture Demo3.expectCompileResult = (Ok tt, g)
       /\ registered g = ["trivial"; "nonsense"]
       /\ map TestBuilder.description (TestGroup.tests g)
          = [Some "A trivial correct and incorrect shader.";
             Some "Pass short nonsense strings as WGSL."]
       /\ TestGroup.validate g = Ok tt
       /\ Forall
            (fun b => exists rc,
               TestBuilder.iterate b = Ok [rc]
               /\ RunCaseSpecific.params rc = []
               /\ RunCaseSpecific.subParamGen rc = None
               /\ RunCaseSpecific.fixture rc = Demo.fixture)
            (TestGroup.tests g).
Proof.
  assert (Hnames : Forall (fun name =>
            decodeURIComponent name = Ok name
            /\ forallb validQueryPart (split kPathSeparator name) = true)
         ["trivial"; "nonsense"]) by (repeat constructor).
  split; [exact Hnames|].
  exact (basic_spec_loads Demo.fixture Demo3.expectCompileResult Hnames).
Defined.

Lemma debug_spec_loads_witness :
  Forall (fun name =>
            decodeURIComponent name = Ok name
            /\ forallb validQueryPart (split kPathSeparator name) = true)
         ["debug_group_balanced"; "debug_group_empty_string";
          "debug_marker_empty_string"; "debug_marker_non_empty_string"]
  /\ thrown Demo3.combined = None
  /\ thrown Demo3.encoderTypes = None
  /\ exists g,
       debug_spec Demo.fixture Demo3.combined Demo3.encoderTypes
         Demo.body_pass Demo.body_pass Demo.body_pass Demo.body_pass = (Ok tt, g)
       /\ registered g
          = ["debug_group_balanced"; "debug_group_empty_string";
             "debug_marker_empty_string"; "debug_marker_non_empty_string"]
       /\ Forall2
            (fun b cases => exists runCases,
               TestBuilder.iterate b = Ok runCases
               /\ map RunCaseSpecific.params runCases = cases
               /\ Forall (fun rc => RunCaseSpecific.subParamGen rc = None) runCases)
            (TestGroup.tests g)
            [yielded Demo3.combined; yielded Demo3.encoderTypes;
             yielded Demo3.encoderTypes; yielded Demo3.encoderTypes]
       /\ (Forall (fun c => is_Throw (stringifyPublicParams c) = false)
             (yielded Demo3.combined ++ yielded Demo3.encoderTypes) ->
           NoDup (map stringifyPublicParamsUniquely (yielded Demo3.combined)) ->
           NoDup (map stringifyPublicParamsUniquely (yielded Demo3.encoderTypes)) ->
           TestGroup.validate g = Ok tt).
Proof.
  assert (Hnames : Forall (fun name =>
            decodeURIComponent name = Ok name
            /\ forallb validQueryPart (split kPathSeparator name) = true)
         ["debug_group_balanced"; "debug_group_empty_string";
          "debug_marker_empty_string"; "debug_marker_non_empty_string"])
    by (repeat constructor).
  split; [exact Hnames|]. split; [reflexivity|]. split; [reflexivity|].
  exact (debug_spec_loads Demo.fixture Demo3.combined Demo3.encoderTypes
           Demo.body_pass Demo.body_pass Demo.body_pass Demo.body_pass
           Hnames eq_refl eq_refl).
Defined.

(** The file as it is: four encoder types, and three push and three pop
    counts, give 36 cases for the first test and 4 for each of the
    others, and the group passes validation. *)
Example debug_spec_cases :
  let g := snd (debug_spec Demo.fixture Demo3.combined Demo3.encoderTypes
                  Demo.body_pass Demo.body_pass Demo.body_pass Demo.body_pass) in
  map (fun b => length <$> TestBuilder.caseParams b) (TestGroup.tests g)
  = [Some 36; Some 4; Some 4; Some 4]
  /\ TestGroup.validate g = Ok tt.
Proof. vm_compute. by split. Qed.
End SpecFilesExamples.
